(** * GitSummarizer: a shallow embedding of [github_repo_fetcher.py]

    The script fetches the repositories of a GitHub account page by page,
    keeps six fields of every repository and writes the records to a JSON
    file.  This development embeds the functions of the script
    ([get_url], [convert_reset_to_ist], [fetcher], [write_file], [main])
    together with the library calls they rely on, and proves the
    properties of the specification about them.

    Conventions of the embedding:
    - a Python [str] is a [string]; every character stands for the code
      point of the same number (0..255);
    - a Python [int] is a [Z];
    - a value decoded from JSON is a [json] tree; a Python [dict] is an
      association list in insertion order, a Python [list] a [list];
      numbers are integers and the three floating-point values JSON
      text has a name for ([NaN], [Infinity], [-Infinity]); numbers with
      a fraction or an exponent are outside the model;
    - the network is a function from requests to replies; the reply to a
      request is what [session.get] returns or raises once the transport
      adapter is done with it;
    - standard output, the requests sent, the file system and the pending
      lines of standard input form the [world] threaded through the
      program; the world also says which paths cannot be opened for
      writing;
    - loops that the script writes as [while True] take a fuel argument;
      running out of fuel is the outcome [Diverge]. *)

From Stdlib Require Import ZArith NArith Ascii String List Bool Lia.
From Stdlib Require Import QArith DecimalString DecimalFacts DecimalPos DecimalN DecimalZ.
From stdpp Require Import gmap strings list.

Set Warnings "-register-all".
Local Open Scope Z_scope.

(** ** Characters and strings *)

Module PyStr.

Definition code (c : ascii) : N := N_of_ascii c.

(** [str.isspace] on one character (code points below 256). *)
Definition isspace (c : ascii) : bool :=
  let n := code c in
  ((9 <=? n) && (n <=? 13) || (28 <=? n) && (n <=? 32)
   || (n =? 133) || (n =? 160))%N.

(** Upper-case letters of the range are A..Z and U+00C0..U+00DE without
    the multiplication sign; each has its lower-case letter 32 further. *)
Definition isupper (c : ascii) : bool :=
  let n := code c in
  ((65 <=? n) && (n <=? 90)
   || (192 <=? n) && (n <=? 222) && negb (n =? 215))%N.

Definition lower_char (c : ascii) : ascii :=
  if isupper c then ascii_of_N (code c + 32) else c.

(** [str.lower] *)
Fixpoint lower (s : string) : string :=
  match s with
  | EmptyString => EmptyString
  | String c r => String (lower_char c) (lower r)
  end.

(** [str.lstrip], [str.rstrip] and [str.strip] without argument *)
Fixpoint lstrip (s : string) : string :=
  match s with
  | EmptyString => EmptyString
  | String c r => if isspace c then lstrip r else s
  end.

Fixpoint rstrip (s : string) : string :=
  match s with
  | EmptyString => EmptyString
  | String c r =>
      match rstrip r with
      | EmptyString => if isspace c then EmptyString else String c EmptyString
      | r' => String c r'
      end
  end.

Definition strip (s : string) : string := rstrip (lstrip s).

(** [needle in hay] *)
Fixpoint contains (needle hay : string) : bool :=
  String.prefix needle hay ||
  match hay with
  | EmptyString => false
  | String _ r => contains needle r
  end.

(** Truth value of a string: non-empty. *)
Definition nonempty (s : string) : bool :=
  match s with EmptyString => false | String _ _ => true end.

Definition isdigit (c : ascii) : bool :=
  let n := code c in ((48 <=? n) && (n <=? 57))%N.

(** The digits of an [int] literal: decimal digits, single underscores
    allowed between two digits. *)
Fixpoint int_digits (s : string) (after_digit : bool) : option string :=
  match s with
  | EmptyString => if after_digit then Some EmptyString else None
  | String c r =>
      if isdigit c then
        match int_digits r true with
        | Some ds => Some (String c ds)
        | None => None
        end
      else if (code c =? 95)%N && after_digit then
        match r with
        | String d _ => if isdigit d then int_digits r false else None
        | EmptyString => None
        end
      else None
  end.

(** The value of a string of decimal digits. *)
Definition of_digits (ds : string) : option Z :=
  match NilEmpty.uint_of_string ds with
  | Some u => Some (Z.of_uint u)
  | None => None
  end.

(** [sys.get_int_max_str_digits()]: the longest numeral [int] reads and
    [repr] writes. *)
Definition max_str_digits : nat := 4300.

(** White space around the numeral given to [int]: the white space of
    ASCII as C has it, and the white space past ASCII.  The separators
    U+001C..U+001F, white space for [str.strip], are none here. *)
Definition int_space (c : ascii) : bool :=
  let n := code c in
  ((9 <=? n) && (n <=? 13) || (n =? 32) || (n =? 133) || (n =? 160))%N.

Fixpoint skip_space (s : string) : string :=
  match s with
  | EmptyString => EmptyString
  | String c r => if int_space c then skip_space r else s
  end.

Fixpoint drop_space (s : string) : string :=
  match s with
  | EmptyString => EmptyString
  | String c r =>
      match drop_space r with
      | EmptyString => if int_space c then EmptyString else String c EmptyString
      | r' => String c r'
      end
  end.

Definition int_unsigned (s : string) : option Z :=
  match int_digits s false with
  | Some ds =>
      if (max_str_digits <? String.length ds)%nat then None else of_digits ds
  | None => None
  end.

(** [int(s)] for a string [s]; [None] stands for [ValueError]. *)
Definition int (s : string) : option Z :=
  match drop_space (skip_space s) with
  | String "-" r => option_map Z.opp (int_unsigned r)
  | String "+" r => int_unsigned r
  | r => int_unsigned r
  end.

(** The decimal numeral of an integer. *)
Definition decimal (z : Z) : string := NilEmpty.string_of_int (Z.to_int z).

(** [repr] of an [int]; [None] stands for the [ValueError] raised for a
    numeral of more than [max_str_digits] digits. *)
Definition repr_int (z : Z) : option string :=
  if (max_str_digits <? String.length (decimal (Z.abs z)))%nat then None
  else Some (decimal z).

End PyStr.

(** ** JSON values and Python dictionaries *)

(** The floating-point values that JSON text names by a constant.  The
    finite ones, written and read by [float.__repr__] and [float], are
    not part of the model. *)
Inductive pyfloat : Type :=
| NaN
| Infinity
| NegInfinity.

Inductive json : Type :=
| JNull
| JBool (b : bool)
| JInt (z : Z)
| JFloat (f : pyfloat)
| JStr (s : string)
| JArr (l : list json)
| JObj (d : list (string * json)).

Abbreviation dict := (list (string * json)).

(** [d.get(k)] without default: the value, or [None] *)
Fixpoint dict_get (k : string) (d : dict) : json :=
  match d with
  | [] => JNull
  | (k', v) :: r => if String.eqb k k' then v else dict_get k r
  end.

Definition dict_keys (d : dict) : list string := map fst d.

(** [d[k] = v]: an existing key keeps its position *)
Fixpoint dict_set (k : string) (v : json) (d : dict) : dict :=
  match d with
  | [] => [(k, v)]
  | (k', v') :: r =>
      if String.eqb k k' then (k', v) :: r else (k', v') :: dict_set k v r
  end.

(** Truth value of a decoded value, as [if not items] tests it. *)
Definition truthy (v : json) : bool :=
  match v with
  | JNull => false
  | JBool b => b
  | JInt z => negb (z =? 0)
  | JFloat _ => true
  | JStr s => PyStr.nonempty s
  | JArr l => match l with [] => false | _ => true end
  | JObj d => match d with [] => false | _ => true end
  end.

(** ** Exceptions, the world and the monad of the script *)

(** Exception classes, as far as the handlers of the script tell them
    apart.  [OtherException] is any other subclass of [Exception]
    ([AttributeError], [TypeError], [OverflowError], [EOFError]). *)
Inductive exn : Type :=
| Timeout
| ConnectionError
| RequestException
| ValueError
| OtherException
| SystemExit (code : Z).

Definition is_Exception (e : exn) : bool :=
  match e with SystemExit _ => false | _ => true end.

Record request : Type := {
  url : string;
  params : dict;
  timeout : Z * Z
}.

Record response : Type := {
  status_code : Z;
  (** [CaseInsensitiveDict]: lower-cased header name to value *)
  headers : gmap string string;
  (** what [resp.json()] returns; [None] when decoding raises *)
  json_body : option json
}.

Inductive reply : Type :=
| Respond (r : response)
| Fail (e : exn).

Definition server : Type := request -> reply.

(** A line written by [print]: a string, or a prefix followed by the
    text of an exception. *)
Inductive printed : Type :=
| Print (s : string)
| PrintExc (prefix : string) (e : exn).

Record world : Type := {
  stdout : list printed;
  sent : list request;
  files : gmap string string;
  stdin : list string;
  (** the paths the file system refuses to open for writing: a missing
      directory, a directory, a file without permission *)
  unwritable : string -> bool
}.

Inductive res (A : Type) : Type :=
| Ok (a : A)
| Exc (e : exn)
| Diverge.
Arguments Ok {A} a.
Arguments Exc {A} e.
Arguments Diverge {A}.

Definition M (A : Type) : Type := world -> res A * world.

#[global] Instance M_ret : MRet M := fun A a w => (Ok a, w).

#[global] Instance M_bind : MBind M := fun A B f m w =>
  match m w with
  | (Ok a, w') => f a w'
  | (Exc e, w') => (Exc e, w')
  | (Diverge, w') => (Diverge, w')
  end.

Definition raise {A} (e : exn) : M A := fun w => (Exc e, w).

Definition diverge {A} : M A := fun w => (Diverge, w).

(** [try: m except <classes accepted by catches>: h] *)
Definition try_except {A} (m : M A) (catches : exn -> bool) (h : exn -> M A) : M A :=
  fun w =>
    match m w with
    | (Exc e, w') => if catches e then h e w' else (Exc e, w')
    | r => r
    end.

Definition lift {A} (r : exn + A) : M A :=
  match r with inl e => raise e | inr a => mret a end.

Definition print (o : printed) : M unit := fun w =>
  (Ok tt, {| stdout := stdout w ++ [o]; sent := sent w;
             files := files w; stdin := stdin w;
             unwritable := unwritable w |}).

(** The character [open] refuses in a path. *)
Definition nul : ascii := "000"%char.

Fixpoint has_nul (s : string) : bool :=
  match s with
  | EmptyString => false
  | String c r => Ascii.eqb c nul || has_nul r
  end.

(** The exception [open(path, "w")] raises, if any: [FileNotFoundError]
    for the empty path, [ValueError] for a path with a null character,
    an [OSError] for a path the file system refuses. *)
Definition open_error (path : string) (w : world) : option exn :=
  match path with
  | EmptyString => Some OtherException
  | _ =>
      if has_nul path then Some ValueError
      else if unwritable w path then Some OtherException
      else None
  end.

(** The world where the file at [path] holds [content]. *)
Definition with_file (path content : string) (w : world) : world :=
  {| stdout := stdout w; sent := sent w;
     files := <[path := content]> (files w); stdin := stdin w;
     unwritable := unwritable w |}.

(** [open(path, "w", encoding="utf-8")]: the file is created or emptied. *)
Definition open_w (path : string) : M unit := fun w =>
  match open_error path w with
  | Some e => (Exc e, w)
  | None => (Ok tt, with_file path EmptyString w)
  end.

(** [input(prompt)] *)
Definition input (prompt : string) : M string := fun w =>
  let out := stdout w ++ [Print prompt] in
  match stdin w with
  | [] =>
      (Exc OtherException,
       {| stdout := out; sent := sent w; files := files w; stdin := [];
          unwritable := unwritable w |})
  | line :: rest =>
      (Ok line,
       {| stdout := out; sent := sent w; files := files w; stdin := rest;
          unwritable := unwritable w |})
  end.

(** ** The HTTP session *)

(** [urllib3.util.retry.Retry(...)] as configured by the script *)
Record Retry : Type := {
  total : Z;
  backoff_factor : Q;
  status_forcelist : list Z;
  allowed_methods : list string;
  raise_on_status : bool;
  respect_retry_after_header : bool
}.

Definition retry_strategy : Retry := {|
  total := 3;
  backoff_factor := 1 # 2;
  status_forcelist := [429; 500; 502; 503; 504];
  allowed_methods := ["GET"];
  raise_on_status := false;
  respect_retry_after_header := true
|}.

(** [session.mount(prefix, HTTPAdapter(max_retries=retry_strategy))] *)
Definition session_mounts : list (string * Retry) :=
  [("https://", retry_strategy); ("http://", retry_strategy)].

(** [headers.get(name)] of a case-insensitive dictionary *)
Definition headers_get (name : string) (h : gmap string string) : option string :=
  h !! PyStr.lower name.

(** [session.get(url, params=params, timeout=timeout)] *)
Definition session_get (srv : server) (rq : request) : M response := fun w =>
  let w' := {| stdout := stdout w; sent := sent w ++ [rq];
               files := files w; stdin := stdin w;
               unwritable := unwritable w |} in
  match srv rq with
  | Respond r => (Ok r, w')
  | Fail e => (Exc e, w')
  end.

(** [resp.raise_for_status()] *)
Definition raise_for_status (resp : response) : M unit :=
  if (400 <=? status_code resp) && (status_code resp <? 600)
  then raise RequestException else mret tt.

(** [resp.json()] *)
Definition resp_json (resp : response) : M json :=
  match json_body resp with
  | Some v => mret v
  | None => raise ValueError
  end.

(** ** Dates: [datetime], [timedelta] and [strftime] *)

Module DateTime.

Record datetime : Type := {
  year : Z; month : Z; day : Z;
  hour : Z; minute : Z; second : Z
}.

(** A normalised [timedelta]: [0 <= td_seconds < 86400]. *)
Record timedelta : Type := { td_days : Z; td_seconds : Z }.

Definition MAXORDINAL : Z := 3652059.

Definition DAYS_IN_MONTH : list Z :=
  [-1; 31; 28; 31; 30; 31; 30; 31; 31; 30; 31; 30; 31].

Definition DAYS_BEFORE_MONTH : list Z :=
  [-1; 0; 31; 59; 90; 120; 151; 181; 212; 243; 273; 304; 334].

Definition at_index (l : list Z) (i : Z) : Z := nth (Z.to_nat i) l 0.

Definition is_leap (y : Z) : bool :=
  (y mod 4 =? 0) && (negb (y mod 100 =? 0) || (y mod 400 =? 0)).

Definition days_before_year (y : Z) : Z :=
  let y := y - 1 in y * 365 + y / 4 - y / 100 + y / 400.

Definition days_in_month (y m : Z) : Z :=
  if (m =? 2) && is_leap y then 29 else at_index DAYS_IN_MONTH m.

Definition days_before_month (y m : Z) : Z :=
  at_index DAYS_BEFORE_MONTH m + (if (2 <? m) && is_leap y then 1 else 0).

Definition ymd2ord (y m d : Z) : Z :=
  days_before_year y + days_before_month y m + d.

Definition DI400Y : Z := 146097.
Definition DI100Y : Z := 36524.
Definition DI4Y : Z := 1461.

(** Ordinal (1 is 1 January of year 1) to year, month, day. *)
Definition ord2ymd (n : Z) : Z * Z * Z :=
  let n := n - 1 in
  let n400 := n / DI400Y in
  let n := n mod DI400Y in
  let y := n400 * 400 + 1 in
  let n100 := n / DI100Y in
  let n := n mod DI100Y in
  let n4 := n / DI4Y in
  let n := n mod DI4Y in
  let n1 := n / 365 in
  let n := n mod 365 in
  let y := y + n100 * 100 + n4 * 4 + n1 in
  if (n1 =? 4) || (n100 =? 4) then (y - 1, 12, 31)
  else
    let leapyear := (n1 =? 3) && (negb (n4 =? 24) || (n100 =? 3)) in
    let m := Z.shiftr (n + 50) 5 in
    let preceding :=
      at_index DAYS_BEFORE_MONTH m + (if (2 <? m) && leapyear then 1 else 0) in
    if n <? preceding then
      let m := m - 1 in
      let preceding :=
        preceding
        - (at_index DAYS_IN_MONTH m + (if (m =? 2) && leapyear then 1 else 0)) in
      (y, m, n - preceding + 1)
    else (y, m, n - preceding + 1).

Definition toordinal (dt : datetime) : Z :=
  ymd2ord (year dt) (month dt) (day dt).

(** [datetime.combine(date.fromordinal(n), time(h, m, s))] *)
Definition combine (n h m s : Z) : datetime :=
  let '(y, mo, d) := ord2ymd n in
  {| year := y; month := mo; day := d; hour := h; minute := m; second := s |}.

(** [timedelta(days, hours=.., minutes=.., seconds=..)] *)
Definition mk_timedelta (days hours minutes seconds : Z) : timedelta :=
  let s := hours * 3600 + minutes * 60 + seconds in
  {| td_days := days + s / 86400; td_seconds := s mod 86400 |}.

Definition td_add (a b : timedelta) : timedelta :=
  mk_timedelta (td_days a + td_days b) 0 0 (td_seconds a + td_seconds b).

(** Ordinal of 1 January 1970. *)
Definition EPOCH : Z := 719163.

(** The timestamps whose year fits the [int] field of the C [struct tm]:
    outside them [gmtime] fails (64-bit Linux). *)
Definition GMTIME_MIN : Z := -67768040609740800.
Definition GMTIME_MAX : Z := 67768036191676799.

(** [datetime.fromtimestamp(t, tz=timezone.utc)] for an integer [t]:
    [OverflowError] or [OSError] when [gmtime] cannot take [t],
    [ValueError] when the year is out of the range 1..9999. *)
Definition fromtimestamp_utc (t : Z) : exn + datetime :=
  let n := t / 86400 + EPOCH in
  let r := t mod 86400 in
  if (t <? GMTIME_MIN) || (GMTIME_MAX <? t) then inl OtherException
  else if (1 <=? n) && (n <=? MAXORDINAL)
  then inr (combine n (r / 3600) (r mod 3600 / 60) (r mod 60))
  else inl ValueError.

(** [dt + other] *)
Definition add (dt : datetime) (other : timedelta) : exn + datetime :=
  let delta :=
    td_add (mk_timedelta (toordinal dt) (hour dt) (minute dt) (second dt)) other in
  let h := td_seconds delta / 3600 in
  let rem := td_seconds delta mod 3600 in
  if (0 <? td_days delta) && (td_days delta <=? MAXORDINAL)
  then inr (combine (td_days delta) h (rem / 60) (rem mod 60))
  else inl OtherException.

(** A number in at least [width] digits, as C's [%02d]. *)
Definition pad (width : nat) (n : Z) : string :=
  let s := PyStr.decimal n in
  String.string_of_list_ascii
    (repeat "0"%char (width - String.length s)) +:+ s.

Definition month_abbr (m : Z) : string :=
  nth (Z.to_nat m)
    [EmptyString; "Jan"; "Feb"; "Mar"; "Apr"; "May"; "Jun";
     "Jul"; "Aug"; "Sep"; "Oct"; "Nov"; "Dec"] EmptyString.

Definition hour12 (h : Z) : Z := if h mod 12 =? 0 then 12 else h mod 12.

Definition am_pm (h : Z) : string := if h <? 12 then "AM" else "PM".

(** The directives of [strftime] the script uses (C locale, glibc: the
    year is not padded). *)
Definition directive (c : ascii) (dt : datetime) : string :=
  match c with
  | "d"%char => pad 2 (day dt)
  | "b"%char => month_abbr (month dt)
  | "Y"%char => PyStr.decimal (year dt)
  | "I"%char => pad 2 (hour12 (hour dt))
  | "M"%char => pad 2 (minute dt)
  | "S"%char => pad 2 (second dt)
  | "p"%char => am_pm (hour dt)
  | _ => String "%" (String c EmptyString)
  end.

Fixpoint strftime (fmt : string) (dt : datetime) : string :=
  match fmt with
  | String "%" (String c r) => directive c dt +:+ strftime r dt
  | String c r => String c (strftime r dt)
  | EmptyString => EmptyString
  end.

(** *** What the proofs say about dates *)

(** The fields denote a date of the calendar and a time of the day. *)
Definition valid (dt : datetime) : Prop :=
  1 <= year dt <= 9999 /\ 1 <= month dt <= 12
  /\ 1 <= day dt <= days_in_month (year dt) (month dt)
  /\ 0 <= hour dt < 24 /\ 0 <= minute dt < 60 /\ 0 <= second dt < 60.

(** Seconds between 1 January 1970, 00:00:00, and the date and time
    the fields denote. *)
Definition timestamp (dt : datetime) : Z :=
  (toordinal dt - EPOCH) * 86400
  + hour dt * 3600 + minute dt * 60 + second dt.

(** Month lengths and offsets for a year known to be leap or not. *)
Definition dim (leap : bool) (m : Z) : Z :=
  if (m =? 2) && leap then 29 else at_index DAYS_IN_MONTH m.

Definition dbm (leap : bool) (m : Z) : Z :=
  at_index DAYS_BEFORE_MONTH m + (if (2 <? m) && leap then 1 else 0).

(** The last steps of [ord2ymd]: month and day of day [n] of a year. *)
Definition month_day (leapyear : bool) (n : Z) : Z * Z :=
  let m := Z.shiftr (n + 50) 5 in
  let preceding :=
    at_index DAYS_BEFORE_MONTH m + (if (2 <? m) && leapyear then 1 else 0) in
  if n <? preceding then
    let m := m - 1 in
    let preceding :=
      preceding
      - (at_index DAYS_IN_MONTH m + (if (m =? 2) && leapyear then 1 else 0)) in
    (m, n - preceding + 1)
  else (m, n - preceding + 1).

Definition month_day_ok (leap : bool) (n : Z) : bool :=
  let '(m, d) := month_day leap n in
  (1 <=? m) && (m <=? 12) && (1 <=? d) && (d <=? dim leap m)
  && (dbm leap m + d =? n + 1).

(** The text [strftime] gives for the format of the script. *)
Definition reset_text (dt : datetime) : string :=
  pad 2 (day dt) +:+ "-" +:+ month_abbr (month dt) +:+ "-"
  +:+ PyStr.decimal (year dt) +:+ " " +:+ pad 2 (hour12 (hour dt)) +:+ ":"
  +:+ pad 2 (minute dt) +:+ ":" +:+ pad 2 (second dt) +:+ " "
  +:+ am_pm (hour dt) +:+ " IST".

End DateTime.

(** ** [json.dumps] *)

Module Json.

Definition dquote : ascii := "034"%char.
Definition backslash : ascii := "092"%char.
Definition newline : ascii := "010"%char.

Definition hex_digit (n : N) : ascii :=
  if (n <? 10)%N then ascii_of_N (48 + n) else ascii_of_N (87 + n).

(** The replacement of one character under [ensure_ascii=True]. *)
Definition escape_char (c : ascii) : string :=
  let n := PyStr.code c in
  if (n =? 34)%N then String backslash (String dquote EmptyString)
  else if (n =? 92)%N then String backslash (String backslash EmptyString)
  else if (n =? 10)%N then String backslash "n"
  else if (n =? 13)%N then String backslash "r"
  else if (n =? 9)%N then String backslash "t"
  else if (n =? 8)%N then String backslash "b"
  else if (n =? 12)%N then String backslash "f"
  else if ((32 <=? n) && (n <=? 126))%N then String c EmptyString
  else
    String backslash
      (String "u" (String "0" (String "0"
         (String (hex_digit (n / 16)) (String (hex_digit (n mod 16)) EmptyString))))).

Fixpoint escape (s : string) : string :=
  match s with
  | EmptyString => EmptyString
  | String c r => escape_char c +:+ escape r
  end.

(** [encode_basestring_ascii] *)
Definition encode_basestring_ascii (s : string) : string :=
  String dquote (escape s +:+ String dquote EmptyString).

Definition spaces (n : nat) : string :=
  String.string_of_list_ascii (repeat " "%char n).

Definition newline_indent (indent level : nat) : string :=
  String newline (spaces (indent * level)).

(** [float.__repr__] as the encoder uses it, with [allow_nan] set. *)
Definition floatstr (f : pyfloat) : string :=
  match f with
  | NaN => "NaN"
  | Infinity => "Infinity"
  | NegInfinity => "-Infinity"
  end.

(** The chunk for a value that is no list and no dictionary; the inner
    [None] stands for the [ValueError] of [int.__repr__]. *)
Definition atom (o : json) : option (option string) :=
  match o with
  | JNull => Some (Some "null")
  | JBool true => Some (Some "true")
  | JBool false => Some (Some "false")
  | JInt z => Some (PyStr.repr_int z)
  | JFloat f => Some (Some (floatstr f))
  | JStr s => Some (Some (encode_basestring_ascii s))
  | JArr _ | JObj _ => None
  end.

(** The generator [_iterencode] with [indent] set: item separator [","],
    key separator [": "], keys in insertion order.  It yields the text
    chunk by chunk; [None] is the chunk at which it raises.  In a list,
    the separator before an element that is no list and no dictionary
    belongs to the chunk of the element. *)
Fixpoint iterencode (indent level : nat) (o : json) : list (option string) :=
  match o with
  | JArr [] => [Some "[]"]
  | JArr lst =>
      let nli := newline_indent indent (S level) in
      (fix items (buf : string) (l : list json) : list (option string) :=
         match l with
         | [] => []
         | v :: rest =>
             match atom v with
             | Some c => [option_map (String.append buf) c]
             | None => Some buf :: iterencode indent (S level) v
             end ++ items ("," +:+ nli) rest
         end) ("[" +:+ nli) lst
      ++ [Some (newline_indent indent level); Some "]"]
  | JObj [] => [Some "{}"]
  | JObj dct =>
      let nli := newline_indent indent (S level) in
      Some "{" :: Some nli
      :: (fix items (first : bool) (d : list (string * json))
            : list (option string) :=
            match d with
            | [] => []
            | kv :: rest =>
                (if first then [] else [Some ("," +:+ nli)])
                ++ Some (encode_basestring_ascii (fst kv)) :: Some ": "
                   :: iterencode indent (S level) (snd kv)
                ++ items false rest
            end) true dct
      ++ [Some (newline_indent indent level); Some "}"]
  | _ => match atom o with Some c => [c] | None => [] end
  end.

(** [for chunk in iterable: fp.write(chunk)]: the text written, and
    whether the loop came to its end. *)
Fixpoint written (chunks : list (option string)) : string * bool :=
  match chunks with
  | [] => (EmptyString, true)
  | Some c :: rest => let '(s, ok) := written rest in (c +:+ s, ok)
  | None :: _ => (EmptyString, false)
  end.

(** [json.dumps(o, indent=indent)]; [None] stands for the [ValueError]. *)
Definition dumps (indent : nat) (o : json) : option string :=
  match written (iterencode indent 0 o) with
  | (s, true) => Some s
  | (_, false) => None
  end.

(** The text of a value when every chunk can be written: each integer
    as its decimal numeral. *)
Fixpoint text (indent level : nat) (o : json) : string :=
  match o with
  | JNull => "null"
  | JBool true => "true"
  | JBool false => "false"
  | JInt z => PyStr.decimal z
  | JFloat f => floatstr f
  | JStr s => encode_basestring_ascii s
  | JArr [] => "[]"
  | JArr lst =>
      let nli := newline_indent indent (S level) in
      "[" +:+ nli
      +:+ String.concat ("," +:+ nli) (map (text indent (S level)) lst)
      +:+ newline_indent indent level +:+ "]"
  | JObj [] => "{}"
  | JObj dct =>
      let nli := newline_indent indent (S level) in
      "{" +:+ nli
      +:+ String.concat ("," +:+ nli)
            (map (fun kv =>
                    encode_basestring_ascii (fst kv) +:+ ": "
                    +:+ text indent (S level) (snd kv)) dct)
      +:+ newline_indent indent level +:+ "}"
  end.

(** *** [json.loads]: the decoder that reads the file back *)

Definition is_ws (c : ascii) : bool :=
  let n := PyStr.code c in
  ((n =? 32) || (n =? 9) || (n =? 10) || (n =? 13))%N.

Fixpoint skip_ws (s : string) : string :=
  match s with
  | EmptyString => EmptyString
  | String c r => if is_ws c then skip_ws r else s
  end.

Definition hex_value (c : ascii) : option N :=
  let n := PyStr.code c in
  if ((48 <=? n) && (n <=? 57))%N then Some (n - 48)%N
  else if ((97 <=? n) && (n <=? 102))%N then Some (n - 87)%N
  else if ((65 <=? n) && (n <=? 70))%N then Some (n - 55)%N
  else None.

(** The four hexadecimal digits of a [\u] escape. *)
Definition hex4 (a b c d : ascii) : option N :=
  match hex_value a, hex_value b, hex_value c, hex_value d with
  | Some x, Some y, Some z, Some t =>
      Some (((x * 16 + y) * 16 + z) * 16 + t)%N
  | _, _, _, _ => None
  end.

(** The character a backslash followed by [e] stands for. *)
Definition unescape (e : ascii) : option ascii :=
  let n := PyStr.code e in
  if (n =? 34)%N then Some dquote
  else if (n =? 92)%N then Some backslash
  else if (n =? 47)%N then Some "/"%char
  else if (n =? 98)%N then Some "008"%char
  else if (n =? 102)%N then Some "012"%char
  else if (n =? 110)%N then Some newline
  else if (n =? 114)%N then Some "013"%char
  else if (n =? 116)%N then Some "009"%char
  else None.

Definition cons_char {A} (c : ascii) (r : option (string * A)) : option (string * A) :=
  match r with
  | Some (s, rest) => Some (String c s, rest)
  | None => None
  end.

(** [scanstring] in strict mode, from the character after the opening
    quote: the decoded string and what follows the closing quote.  An
    escape for a code point above 255 has no value in the model. *)
Fixpoint scanstring (s : string) : option (string * string) :=
  match s with
  | EmptyString => None
  | String c r =>
      if Ascii.eqb c dquote then Some (EmptyString, r)
      else if Ascii.eqb c backslash then
        match r with
        | String "u" (String h1 (String h2 (String h3 (String h4 r')))) =>
            match hex4 h1 h2 h3 h4 with
            | Some n =>
                if (n <? 256)%N then cons_char (ascii_of_N n) (scanstring r')
                else None
            | None => None
            end
        | String e r' =>
            match unescape e with
            | Some ch => cons_char ch (scanstring r')
            | None => None
            end
        | EmptyString => None
        end
      else if (PyStr.code c <? 32)%N then None
      else cons_char c (scanstring r)
  end.

Fixpoint span_digits (s : string) : string * string :=
  match s with
  | EmptyString => (EmptyString, EmptyString)
  | String c r =>
      if PyStr.isdigit c
      then let '(ds, rest) := span_digits r in (String c ds, rest)
      else (EmptyString, s)
  end.

(** The integer part of a number: [0], or a non-zero digit followed by
    digits. *)
Definition match_digits (s : string) : option (string * string) :=
  match s with
  | String c r =>
      if Ascii.eqb c "0" then Some ("0", r)
      else if PyStr.isdigit c then Some (span_digits s)
      else None
  | EmptyString => None
  end.

Definition starts_with_digit (s : string) : bool :=
  match s with
  | String c _ => PyStr.isdigit c
  | EmptyString => false
  end.

(** Does a fraction or an exponent follow the integer part? *)
Definition frac_or_exp (s : string) : bool :=
  match s with
  | String "." r => starts_with_digit r
  | String "e" (String "+" r) | String "e" (String "-" r)
  | String "E" (String "+" r) | String "E" (String "-" r) => starts_with_digit r
  | String "e" r | String "E" r => starts_with_digit r
  | _ => false
  end.

(** A number at the head of [s]; only integers have a value, and [int]
    refuses those of more than 4300 digits. *)
Definition match_number (s : string) : option (json * string) :=
  let '(neg, s1) :=
    match s with
    | String c r => if Ascii.eqb c "-" then (true, r) else (false, s)
    | EmptyString => (false, s)
    end in
  match match_digits s1 with
  | Some (ds, rest) =>
      if frac_or_exp rest then None
      else if (PyStr.max_str_digits <? String.length ds)%nat then None
      else match PyStr.of_digits ds with
           | Some n => Some (JInt (if neg then - n else n), rest)
           | None => None
           end
  | None => None
  end.

(** The constants [NaN], [Infinity] and [-Infinity], tried when no
    number matches. *)
Definition match_constant (s : string) : option (json * string) :=
  match s with
  | String "N" (String "a" (String "N" r)) => Some (JFloat NaN, r)
  | String "I" (String "n" (String "f" (String "i" (String "n"
      (String "i" (String "t" (String "y" r))))))) => Some (JFloat Infinity, r)
  | String "-" (String "I" (String "n" (String "f" (String "i" (String "n"
      (String "i" (String "t" (String "y" r)))))))) =>
      Some (JFloat NegInfinity, r)
  | _ => None
  end.

Section Decoder.

(** The scanner for one value, used for elements and member values. *)
Variable scan : string -> option (json * string).

(** The loop of [JSONArray], at the start of an element. *)
Fixpoint array_items (n : nat) (s : string) : option (list json * string) :=
  match n with
  | O => None
  | S n =>
      match scan s with
      | Some (v, r) =>
          match skip_ws r with
          | String "]" r' => Some ([v], r')
          | String "," r' =>
              match array_items n (skip_ws r') with
              | Some (vs, r'') => Some (v :: vs, r'')
              | None => None
              end
          | _ => None
          end
      | None => None
      end
  end.

(** The loop of [JSONObject], after the opening quote of a key. *)
Fixpoint object_pairs (n : nat) (s : string) : option (dict * string) :=
  match n with
  | O => None
  | S n =>
      match scanstring s with
      | Some (key, r) =>
          match skip_ws r with
          | String ":" r1 =>
              match scan (skip_ws r1) with
              | Some (v, r2) =>
                  match skip_ws r2 with
                  | String "}" r3 => Some ([(key, v)], r3)
                  | String "," r3 =>
                      match skip_ws r3 with
                      | String q r4 =>
                          if Ascii.eqb q dquote then
                            match object_pairs n r4 with
                            | Some (ps, r5) => Some ((key, v) :: ps, r5)
                            | None => None
                            end
                          else None
                      | EmptyString => None
                      end
                  | _ => None
                  end
              | None => None
              end
          | _ => None
          end
      | None => None
      end
  end.

End Decoder.

(** [dict(pairs)]: a repeated key keeps its first position and takes
    the last value. *)
Definition dict_of_pairs (pairs : dict) : dict :=
  fold_left (fun d kv => dict_set (fst kv) (snd kv) d) pairs [].

(** [scan_once]: one value at the head of [s]. *)
Fixpoint scan_once (fuel : nat) (s : string) : option (json * string) :=
  match fuel with
  | O => None
  | S fuel =>
      match s with
      | EmptyString => None
      | String "{" r =>
          match skip_ws r with
          | String "}" r' => Some (JObj [], r')
          | String q r' =>
              if Ascii.eqb q dquote then
                match object_pairs (scan_once fuel) fuel r' with
                | Some (ps, rest) => Some (JObj (dict_of_pairs ps), rest)
                | None => None
                end
              else None
          | EmptyString => None
          end
      | String "[" r =>
          match skip_ws r with
          | String c r' =>
              if Ascii.eqb c "]" then Some (JArr [], r')
              else
                match array_items (scan_once fuel) fuel (String c r') with
                | Some (vs, rest) => Some (JArr vs, rest)
                | None => None
                end
          | EmptyString => None
          end
      | String "n" (String "u" (String "l" (String "l" r))) => Some (JNull, r)
      | String "t" (String "r" (String "u" (String "e" r))) => Some (JBool true, r)
      | String "f" (String "a" (String "l" (String "s" (String "e" r)))) =>
          Some (JBool false, r)
      | String c r =>
          if Ascii.eqb c dquote then
            match scanstring r with
            | Some (str, rest) => Some (JStr str, rest)
            | None => None
            end
          else
            match match_number s with
            | Some r => Some r
            | None => match_constant s
            end
      end
  end.

(** [json.loads(s)]; [None] when the text is not a JSON document, or
    holds a value outside the model: a number with a fraction or an
    exponent, a character above U+00FF. *)
Definition loads (s : string) : option json :=
  match scan_once (S (String.length s)) (skip_ws s) with
  | Some (v, rest) =>
      match skip_ws rest with
      | EmptyString => Some v
      | _ => None
      end
  | None => None
  end.

End Json.

(** ** The script *)

Definition get_url (user : string) : string :=
  let base_url := "https://api.github.com" in
  base_url +:+ "/users/" +:+ user +:+ "/repos".

Definition convert_reset_to_ist (reset_timestamp : Z) : exn + string :=
  match DateTime.fromtimestamp_utc reset_timestamp with
  | inl e => inl e
  | inr utc_time =>
      let ist_offset := DateTime.mk_timedelta 0 5 30 0 in
      match DateTime.add utc_time ist_offset with
      | inl e => inl e
      | inr ist_time => inr (DateTime.strftime "%d-%b-%Y %I:%M:%S %p IST" ist_time)
      end
  end.

Section Script.

(** The network the script talks to. *)
Variable srv : server.

Definition page_params (page : Z) : dict :=
  [("type", JStr "owner"); ("sort", JStr "updated");
   ("direction", JStr "desc"); ("per_page", JInt 30); ("page", JInt page)].

(** How one turn of the [while True] loop of [fetcher] ends. *)
Inductive control : Type :=
| Next (page : Z) (all_items : list json)
| Break (all_items : list json)
| Return (r : option (list json)).

(** The dictionary [data] built from the dictionary [repo]. *)
Definition data_of (repo : dict) : json :=
  JObj [("name", dict_get "name" repo);
        ("description", dict_get "description" repo);
        ("stars", dict_get "stargazers_count" repo);
        ("language", dict_get "language" repo);
        ("created_at", dict_get "created_at" repo);
        ("updated_at", dict_get "updated_at" repo)].

(** [data = {...}] for one element of the page; [repo.get] exists on
    dictionaries only. *)
Definition summary (repo : json) : M json :=
  match repo with
  | JObj repo => mret (data_of repo)
  | _ => raise OtherException
  end.

(** [for repo in items: ... all_items.append(data)] *)
Fixpoint for_repos (items : list json) (all_items : list json) : M (list json) :=
  match items with
  | [] => mret all_items
  | repo :: rest =>
      data ← summary repo;
      for_repos rest (all_items ++ [data])
  end.

(** What iterating over a decoded value yields. *)
Definition iterate (items : json) : M (list json) :=
  match items with
  | JArr l => mret l
  | JObj d => mret (map (fun kv => JStr (fst kv)) d)
  | JStr s =>
      mret (map (fun c => JStr (String c EmptyString))
                (String.list_ascii_of_string s))
  | _ => raise OtherException
  end.

(** [len(items)] *)
Definition len (items : json) : M Z :=
  match items with
  | JArr l => mret (Z.of_nat (length l))
  | JObj d => mret (Z.of_nat (length d))
  | JStr s => mret (Z.of_nat (String.length s))
  | _ => raise OtherException
  end.

(** The branch [if resp.status_code == 403]. *)
Definition rate_limited (resp : response) : M control :=
  let reset_ts := headers_get "X-RateLimit-Reset" (headers resp) in
  match reset_ts with
  | Some (String _ _ as reset_ts) =>
      n ← lift (match PyStr.int reset_ts with
                | Some n => inr n
                | None => inl ValueError
                end);
      reset_time ← lift (convert_reset_to_ist n);
      print (Print ("Rate limit exceeded. It will reset at: " +:+ reset_time));;
      mret (Return None)
  | _ =>
      print (Print "Rate limit exceeded. No reset time provided.");;
      mret (Return None)
  end.

(** One turn of the loop: the request for [page] and what follows. *)
Definition turn (url : string) (page : Z) (all_items : list json) : M control :=
  resp ← session_get srv
           {| url := url; params := page_params page; timeout := (2, 10) |};
  if status_code resp =? 403 then rate_limited resp
  else
    raise_for_status resp;;
    let ctype := default EmptyString (headers_get "Content-Type" (headers resp)) in
    if negb (PyStr.contains "application/json" (PyStr.lower ctype)) then
      print (Print "Not JSON");;
      mret (Return None)
    else
      try_except
        (items ← resp_json resp;
         if negb (truthy items) then mret (Break all_items)
         else
           repos ← iterate items;
           all_items ← for_repos repos all_items;
           n ← len items;
           if n <? 30 then mret (Break all_items)
           else mret (Next (page + 1) all_items))
        (fun e => match e with ValueError => true | _ => false end)
        (fun _ => print (Print "Invalid JSON");; mret (Return None)).

Fixpoint pages (fuel : nat) (url : string) (page : Z) (all_items : list json)
  : M (option (list json)) :=
  match fuel with
  | O => diverge
  | S fuel =>
      c ← turn url page all_items;
      match c with
      | Next page all_items => pages fuel url page all_items
      | Break all_items => mret (Some all_items)
      | Return r => mret r
      end
  end.

Definition fetcher (fuel : nat) (username : string) : M (option (list json)) :=
  try_except
    (pages fuel (get_url username) 1 [])
    is_Exception
    (fun e =>
       match e with
       | Timeout => print (Print "Request timed out.");; mret None
       | ConnectionError => print (Print "Connection error");; mret None
       | _ => print (PrintExc EmptyString e);; mret None
       end).

(** [json.dump(o, data, indent=4)] on the file opened at [path]: the
    chunks are appended one by one, and the file holds what was written
    when the [with] block is left, also when the encoder raised. *)
Definition json_dump (o : json) (path : string) : M unit := fun w =>
  let '(s, ok) := Json.written (Json.iterencode 4 0 o) in
  (if ok then Ok tt else Exc ValueError,
   with_file path (default EmptyString (files w !! path) +:+ s) w).

(** [write_file(repos, output_file)]; [repos] may be [None]. *)
Definition write_file (repos : option (list json)) (output_file : string) : M unit :=
  match repos with
  | Some ((_ :: _) as repos) =>
      open_w output_file;;
      json_dump (JArr repos) output_file
  | _ => mret tt
  end.

(** The parsed command line: [--username] and [--output]. *)
Record args : Type := { username : option string; output : string }.

Definition default_output : string := "github_repos.json".

Definition sys_exit (code : Z) : M unit := raise (SystemExit code).

(** The branch of [main] taken when a user name is given. *)
Definition cli (fuel : nat) (user out : string) : M unit :=
  print (Print ("Fetching repos for user: " +:+ user));;
  repos ← fetcher fuel user;
  match repos with
  | Some (_ :: _) =>
      print (Print ("Logging repos to " +:+ out +:+ "..."));;
      write_file repos out;;
      print (Print ("Repos logged to " +:+ out))
  | None =>
      print (Print "Error fetching data.");;
      sys_exit 1
  | Some [] =>
      print (Print "No repos or Invalid account");;
      sys_exit 1
  end.

(** The test that ends the interactive loop. *)
Definition is_exit (line : string) : bool :=
  String.eqb (PyStr.strip (PyStr.lower line)) "exit".

(** One turn of the interactive loop; [true] stands for [break]. *)
Definition prompt (fuel : nat) : M bool :=
  try_except
    (user ← input "Enter username (or 'exit' to quit): ";
     if is_exit user then mret true
     else
       repos ← fetcher fuel user;
       match repos with
       | Some (_ :: _) =>
           print (Print "Logging repos to github_repos.json...");;
           write_file repos default_output;;
           print (Print "Repos logged to github_repos.json");;
           mret false
       | None =>
           print (Print "Error fetching data.");;
           mret false
       | Some [] =>
           print (Print "No repos or Invalid account");;
           mret false
       end)
    is_Exception
    (fun e =>
       match e with
       | ValueError => print (Print "Invalid input.");; mret false
       | _ => print (PrintExc "An Unexpected Error Occurred: " e);; mret false
       end).

Fixpoint interactive (fuel : nat) : M unit :=
  match fuel with
  | O => diverge
  | S fuel' =>
      stop ← prompt fuel;
      match stop with
      | true => mret tt
      | false => interactive fuel'
      end
  end.

Definition main (fuel : nat) (a : args) : M unit :=
  match username a with
  | Some (String _ _ as user) => cli fuel user (output a)
  | _ =>
      print (Print "Welcome to Github Repo Summary Extractor");;
      interactive fuel
  end.

(** Exit status of the process, once [main] has run. *)
Definition exit_status (r : res unit) : option Z :=
  match r with
  | Ok _ => Some 0
  | Exc (SystemExit code) => Some code
  | Exc _ => Some 1
  | Diverge => None
  end.

End Script.

(** ** Notions used in the statements *)

(** The request [fetcher] sends for a page. *)
Definition request_for (url : string) (page : Z) : request :=
  {| url := url; params := page_params page; timeout := (2, 10) |}.

(** The requests for [n] consecutive pages from page [first] on. *)
Definition requests (url : string) (first : Z) (n : nat) : list request :=
  map (fun i => request_for url (first + Z.of_nat i)) (seq 0 n).

(** The world after the requests [rqs] were sent and the lines [out]
    were printed. *)
Definition log (rqs : list request) (out : list printed) (w : world) : world :=
  {| stdout := stdout w ++ out; sent := sent w ++ rqs;
     files := files w; stdin := stdin w; unwritable := unwritable w |}.

(** [raise_for_status] lets the response through. *)
Definition good_status (resp : response) : bool :=
  negb ((400 <=? status_code resp) && (status_code resp <? 600)).

Definition content_type (resp : response) : string :=
  default EmptyString (headers_get "Content-Type" (headers resp)).

(** The test the script applies to the content type. *)
Definition json_type (resp : response) : bool :=
  PyStr.contains "application/json" (PyStr.lower (content_type resp)).

(** [resp] is a page of the listing: it passes the status and content
    type checks and decodes to the list of repository objects [items]. *)
Definition page_of (resp : response) (items : list dict) : Prop :=
  good_status resp = true /\ json_type resp = true
  /\ json_body resp = Some (JArr (map JObj items)).

Definition serves (srv : server) (url : string) (page : Z) (items : list dict) : Prop :=
  exists resp, srv (request_for url page) = Respond resp /\ page_of resp items.

(** Pages 1, 2, ... of [url] are the lists [pgs], each of 30 items or
    more. *)
Definition full_pages (srv : server) (url : string) (pgs : list (list dict)) : Prop :=
  forall (i : nat) (items : list dict),
    pgs !! i = Some items ->
    serves srv url (Z.of_nat i + 1) items /\ (30 <= length items)%nat.

(** The page number a request asks for. *)
Definition page_number (rq : request) : json := dict_get "page" (params rq).

(** The value is one [resp.json()] can return: every dictionary inside
    has pairwise distinct keys, as every Python [dict] has, and every
    integer is one [int] could read, of 4300 digits at most. *)
Fixpoint well_formed (v : json) : Prop :=
  match v with
  | JArr l => (fix all (l : list json) : Prop :=
                 match l with
                 | [] => True
                 | x :: r => well_formed x /\ all r
                 end) l
  | JObj d => NoDup (map fst d)
              /\ (fix all (d : dict) : Prop :=
                    match d with
                    | [] => True
                    | kv :: r => well_formed (snd kv) /\ all r
                    end) d
  | JInt z => PyStr.repr_int z <> None
  | _ => True
  end.

(** The values the server lets [resp.json()] return are well formed. *)
Definition well_formed_server (srv : server) : Prop :=
  forall rq resp v,
    srv rq = Respond resp -> json_body resp = Some v -> well_formed v.

(** The value of field [k] of a record. *)
Definition field (k : string) (r : json) : json :=
  match r with
  | JObj d => dict_get k d
  | _ => JNull
  end.

Definition record_fields : list string :=
  ["name"; "description"; "stars"; "language"; "created_at"; "updated_at"].

(** The computation [m] sends the requests [rqs] and prints some lines,
    whatever the world it starts from; it touches neither the files nor
    the standard input, and its result does not depend on the world. *)
Definition logs {A} (m : M A) (rqs : list request) : Prop :=
  exists (r : res A) (out : list printed), forall w, m w = (r, log rqs out w).

(** The world after [input(prompt)] has read a line. *)
Definition after_input (prompt : string) (w : world) : world :=
  {| stdout := stdout w ++ [Print prompt]; sent := sent w;
     files := files w; stdin := tail (stdin w);
     unwritable := unwritable w |}.

(** All characters are ASCII characters: the UTF-8 encoding of the text
    consists of the same bytes. *)
Fixpoint ascii_only (s : string) : Prop :=
  match s with
  | EmptyString => True
  | String c r => (PyStr.code c < 128)%N /\ ascii_only r
  end.

(** Number of nodes of a value: the fuel [scan_once] needs for it. *)
Fixpoint size (v : json) : nat :=
  match v with
  | JArr l => S (list_sum (map size l))
  | JObj d => S (list_sum (map (fun kv => size (snd kv)) d))
  | _ => 1
  end.

(** What can follow an encoded value: the end of the text, a comma or a
    new line. *)
Definition ends_value (rest : string) : bool :=
  match rest with
  | EmptyString => true
  | String c _ => Ascii.eqb c "," || Ascii.eqb c Json.newline
  end.

(** The characters an encoded value can start with. *)
Definition value_start (c : ascii) : bool :=
  Ascii.eqb c Json.dquote || Ascii.eqb c "{" || Ascii.eqb c "[" || Ascii.eqb c "n"
  || Ascii.eqb c "t" || Ascii.eqb c "f" || Ascii.eqb c "N" || Ascii.eqb c "I"
  || Ascii.eqb c "-" || PyStr.isdigit c.

(** The scanner [scan] reads the encoding of [v] back, whatever follows. *)
Definition scans (scan : string -> option (json * string))
    (i level : nat) (v : json) : Prop :=
  forall rest, ends_value rest = true ->
    scan (Json.text i level v +:+ rest) = Some (v, rest).

(** The encoding of one member of a dictionary printed at [level]. *)
Definition member (i level : nat) (kv : string * json) : string :=
  Json.encode_basestring_ascii (fst kv) +:+ ": "
  +:+ Json.text i (S level) (snd kv).

(** Whenever [m] returns a value, the value satisfies [Q]. *)
Definition ensures {A} (m : M A) (Q : A -> Prop) : Prop :=
  forall w a w', m w = (Ok a, w') -> Q a.

(** The records a turn of the loop hands on are well formed. *)
Definition records_ok (c : control) : Prop :=
  match c with
  | Next _ a | Break a => Forall well_formed a
  | Return r => r = None
  end.

(** The line the handlers of [fetcher] print for an exception. *)
Definition handler_line (e : exn) : printed :=
  match e with
  | Timeout => Print "Request timed out."
  | ConnectionError => Print "Connection error"
  | _ => PrintExc EmptyString e
  end.

(** The response that ends the loop at [page] and adds the records of
    [items]: it passes the status and content type checks and its body
    is a falsy value, or a list of fewer than 30 objects. *)
Definition last_page (srv : server) (url : string) (page : Z) (items : list dict) : Prop :=
  exists resp v,
    srv (request_for url page) = Respond resp
    /\ good_status resp = true /\ json_type resp = true
    /\ json_body resp = Some v
    /\ ((truthy v = false /\ items = [])
        \/ (v = JArr (map JObj items) /\ (length items < 30)%nat)).

(** The value is a list of JSON objects. *)
Definition objects (v : json) : Prop := exists items, v = JArr (map JObj items).

(** What a turn of the interactive loop prints at the end of the input:
    the prompt, then the line of the last handler for [EOFError]. *)
Definition eof_lines : list printed :=
  [Print "Enter username (or 'exit' to quit): ";
   PrintExc "An Unexpected Error Occurred: " OtherException].

(** Every integer inside the value has a [repr]: the encoder can write
    the value to its end. *)
Fixpoint printable (v : json) : bool :=
  match v with
  | JInt z => match PyStr.repr_int z with Some _ => true | None => false end
  | JArr l => forallb printable l
  | JObj d => forallb (fun kv => printable (snd kv)) d
  | _ => true
  end.

(** The chunks of the elements of a list printed at [level], the first
    after [buf]. *)
Fixpoint arr_chunks (i level : nat) (buf : string) (l : list json)
  : list (option string) :=
  match l with
  | [] => []
  | v :: rest =>
      match Json.atom v with
      | Some c => [option_map (String.append buf) c]
      | None => Some buf :: Json.iterencode i (S level) v
      end ++ arr_chunks i level ("," +:+ Json.newline_indent i (S level)) rest
  end.

(** The chunks of the members of a dictionary printed at [level]. *)
Fixpoint obj_chunks (i level : nat) (first : bool) (d : dict)
  : list (option string) :=
  match d with
  | [] => []
  | kv :: rest =>
      (if first then [] else [Some ("," +:+ Json.newline_indent i (S level))])
      ++ Some (Json.encode_basestring_ascii (fst kv)) :: Some ": "
         :: Json.iterencode i (S level) (snd kv)
      ++ obj_chunks i level false rest
  end.

(** Writing the chunks [cs] leaves a prefix of [t], and the whole of it
    exactly when [ok] holds, which says that no chunk raises. *)
Definition chunks_of (cs : list (option string)) (t : string) (ok : bool) : Prop :=
  snd (Json.written cs) = ok
  /\ exists rest, t = fst (Json.written cs) +:+ rest
                  /\ (ok = true -> rest = EmptyString).

(** The generator yields the text of [v] chunk by chunk, at every level,
    up to the first integer that has no [repr]. *)
Definition encodes (i : nat) (v : json) : Prop :=
  forall level,
    chunks_of (Json.iterencode i level v) (Json.text i level v) (printable v).

(** What [write_file] does with a non-empty list of records at [path]:
    how it ends, and the content it leaves in the file when it came to
    open it. *)
Definition write_result (records : list json) (path : string) (w : world)
  : res unit * option string :=
  match open_error path w with
  | Some e => (Exc e, None)
  | None =>
      let '(s, ok) := Json.written (Json.iterencode 4 0 (JArr records)) in
      (if ok then Ok tt else Exc ValueError, Some s)
  end.

(** The world once [write_file] has left [content] at [path], if it
    did. *)
Definition after_write (path : string) (content : option string) (w : world)
  : world :=
  match content with
  | Some s => with_file path s w
  | None => w
  end.

(** The files once [write_file] has left [content] at [path], if it
    did. *)
Definition files_after (path : string) (content : option string)
    (fs : gmap string string) : gmap string string :=
  match content with
  | Some s => <[path := s]> fs
  | None => fs
  end.

(** The lines the command-line mode prints after [fetcher] is back with
    the result [r], when writing the records ends as [written]. *)
Definition cli_ending (out : string) (r : res (option (list json)))
    (written : res unit) : list printed :=
  match r with
  | Ok (Some (_ :: _)) =>
      Print ("Logging repos to " +:+ out +:+ "...")
      :: match written with
         | Ok _ => [Print ("Repos logged to " +:+ out)]
         | _ => []
         end
  | Ok (Some []) => [Print "No repos or Invalid account"]
  | Ok None => [Print "Error fetching data."]
  | _ => []
  end.

(** No [NaN] inside the value. *)
Fixpoint nan_free (v : json) : bool :=
  match v with
  | JFloat NaN => false
  | JArr l => forallb nan_free l
  | JObj d => forallb (fun kv => nan_free (snd kv)) d
  | _ => true
  end.

(** [d[k]] when [k in d]. *)
Fixpoint dict_lookup (k : string) (d : dict) : option json :=
  match d with
  | [] => None
  | (k', v) :: r => if String.eqb k k' then Some v else dict_lookup k r
  end.

(** The number a value is for [==]: booleans count as 0 and 1. *)
Definition number (v : json) : option (Z + pyfloat) :=
  match v with
  | JBool b => Some (inl (if b then 1 else 0))
  | JInt z => Some (inl z)
  | JFloat f => Some (inr f)
  | _ => None
  end.

(** [x == y] on numbers: [NaN] equals nothing, itself included. *)
Definition number_eq (x y : Z + pyfloat) : bool :=
  match x, y with
  | inl a, inl b => a =? b
  | inr Infinity, inr Infinity => true
  | inr NegInfinity, inr NegInfinity => true
  | _, _ => false
  end.

(** [a is b] for an object of a value decoded from a response and an
    object of its copy read back from the file, as far as it can hold
    where [a == b] does not: for two [NaN]s.  [shared] says whether the
    two decoders return the same object for [NaN], as the decoder of the
    standard [json] module does every time. *)
Definition same_nan (shared : bool) (a b : json) : bool :=
  match a, b with
  | JFloat NaN, JFloat NaN => shared
  | _, _ => false
  end.

(** [a == b] for a decoded value and its copy: numbers by value, strings
    by their characters, lists element by element, dictionaries key by
    key whatever the order.  Lists and dictionaries take two elements
    that are the same object for equal. *)
Fixpoint py_eq (shared : bool) (a b : json) : bool :=
  match a with
  | JNull => match b with JNull => true | _ => false end
  | JStr s => match b with JStr t => String.eqb s t | _ => false end
  | JArr l =>
      match b with
      | JArr m =>
          (fix all (l m : list json) : bool :=
             match l, m with
             | [], [] => true
             | x :: l, y :: m =>
                 (same_nan shared x y || py_eq shared x y) && all l m
             | _, _ => false
             end) l m
      | _ => false
      end
  | JObj d =>
      match b with
      | JObj e =>
          Nat.eqb (length d) (length e)
          && (fix all (d : dict) : bool :=
                match d with
                | [] => true
                | kv :: r =>
                    match dict_lookup (fst kv) e with
                    | Some v' => same_nan shared (snd kv) v' || py_eq shared (snd kv) v'
                    | None => false
                    end && all r
                end) d
      | _ => false
      end
  | _ =>
      match number a, number b with
      | Some x, Some y => number_eq x y
      | _, _ => false
      end
  end.

(** What comparing a value with its copy gives: a [NaN] differs from
    its copy; a list or a dictionary equals its copy when no [NaN] is
    inside, or when the [NaN]s inside are the same objects. *)
Definition equals_copy (shared : bool) (v : json) : bool :=
  match v with
  | JFloat NaN => false
  | _ => shared || nan_free v
  end.

(** *** The layout of the reset time, as the specification words it *)

(** [DD-Mon-YYYY HH:MM:SS AM/PM IST]: day, month and year, then the time
    on the 12-hour clock, written out digit by digit. *)

Definition digit (n : Z) : ascii := ascii_of_N (48 + Z.to_N n).

Definition two_digits (n : Z) : string :=
  String (digit (n / 10)) (String (digit (n mod 10)) EmptyString).

Definition four_digits (n : Z) : string :=
  two_digits (n / 100) +:+ two_digits (n mod 100).

Definition month_name (m : Z) : string :=
  match m with
  | 1 => "Jan" | 2 => "Feb" | 3 => "Mar" | 4 => "Apr" | 5 => "May"
  | 6 => "Jun" | 7 => "Jul" | 8 => "Aug" | 9 => "Sep" | 10 => "Oct"
  | 11 => "Nov" | 12 => "Dec"
  | _ => EmptyString
  end.

(** The hour on the 12-hour clock: 12 at midnight and at noon. *)
Definition clock_hour (h : Z) : Z :=
  if h =? 0 then 12 else if h <=? 12 then h else h - 12.

(** Before noon or not. *)
Definition meridiem (h : Z) : string :=
  if h <=? 11 then "AM" else "PM".

Definition ist_layout (dt : DateTime.datetime) : string :=
  two_digits (DateTime.day dt) +:+ "-" +:+ month_name (DateTime.month dt)
  +:+ "-" +:+ four_digits (DateTime.year dt) +:+ " "
  +:+ two_digits (clock_hour (DateTime.hour dt)) +:+ ":"
  +:+ two_digits (DateTime.minute dt) +:+ ":"
  +:+ two_digits (DateTime.second dt) +:+ " "
  +:+ meridiem (DateTime.hour dt) +:+ " IST".

(** ** Concrete inputs *)

(** Inputs on which the statements below are run. *)

Definition empty_world : world :=
  {| stdout := []; sent := []; files := ∅; stdin := [];
     unwritable := fun _ => false |}.

Definition json_response (status : Z) (body : json) : response :=
  {| status_code := status;
     headers := {[ "content-type" := "application/json; charset=utf-8" ]};
     json_body := Some body |}.

Definition sample_repo (n : nat) : dict :=
  [("id", JInt (Z.of_nat n)); ("name", JStr "repo");
   ("stargazers_count", JInt (Z.of_nat n)); ("language", JNull);
   ("owner", JObj [("login", JStr "octocat")])].

Definition thirty_repos : list dict := map sample_repo (seq 0 30).

(** A listing of 30 repositories on page 1 and none afterwards. *)
Definition two_pages : server := fun rq =>
  match page_number rq with
  | JInt 1 => Respond (json_response 200 (JArr (map JObj thirty_repos)))
  | _ => Respond (json_response 200 (JArr []))
  end.

(** A listing of one repository. *)
Definition one_repo : server := fun _ =>
  Respond (json_response 200 (JArr [JObj (sample_repo 7)])).

Definition rate_limit_response (reset : option string) : response :=
  {| status_code := 403;
     headers := match reset with
                | Some v => {[ "x-ratelimit-reset" := v ]}
                | None => ∅
                end;
     json_body := None |}.

Definition rate_limited_server (reset : option string) : server :=
  fun _ => Respond (rate_limit_response reset).

Definition html_response : response :=
  {| status_code := 200;
     headers := {[ "content-type" := "text/html" ]};
     json_body := None |}.

Definition html_server : server := fun _ => Respond html_response.

Definition timeout_server : server := fun _ => Fail Timeout.

(** A world where the user is about to type [lines]. *)
Definition typing (lines : list string) : world :=
  {| stdout := []; sent := []; files := ∅; stdin := lines;
     unwritable := fun _ => false |}.

(** A world whose file system refuses every path. *)
Definition read_only_world : world :=
  {| stdout := []; sent := []; files := ∅; stdin := [];
     unwritable := fun _ => true |}.

(** A listing of one repository whose star count is not a number. *)
Definition nan_repo : server := fun _ =>
  Respond (json_response 200
             (JArr [JObj [("name", JStr "repo");
                          ("stargazers_count", JFloat NaN)]])).

(** A server that answers [null]. *)
Definition null_server : server := fun _ => Respond (json_response 200 JNull).

(** A server that answers an object where a list is expected. *)
Definition message_server : server := fun _ =>
  Respond (json_response 200 (JObj [("message", JStr "Not Found")])).

(** * Properties *)

(** ** The monad *)

Lemma log_nil w : log [] [] w = w.
Proof. destruct w; unfold log; simpl. by rewrite !app_nil_r. Qed.

Lemma log_log a b c d w : log c d (log a b w) = log (a ++ c) (b ++ d) w.
Proof. unfold log; simpl. by rewrite !app_assoc. Qed.

Lemma files_log rqs out w : files (log rqs out w) = files w.
Proof. reflexivity. Qed.

Lemma bind_ok {A B} (m : M A) (f : A -> M B) w a w' :
  m w = (Ok a, w') -> (m ≫= f) w = f a w'.
Proof. intros H. unfold mbind, M_bind. by rewrite H. Qed.

Lemma bind_exc {A B} (m : M A) (f : A -> M B) w e w' :
  m w = (Exc e, w') -> (m ≫= f) w = (Exc e, w').
Proof. intros H. unfold mbind, M_bind. by rewrite H. Qed.

Lemma bind_diverge {A B} (m : M A) (f : A -> M B) w w' :
  m w = (Diverge, w') -> (m ≫= f) w = (Diverge, w').
Proof. intros H. unfold mbind, M_bind. by rewrite H. Qed.

Lemma print_log o w : print o w = (Ok tt, log [] [o] w).
Proof. unfold print, log. by rewrite app_nil_r. Qed.

(** *** Computations that only send requests and print *)

Section Logs.

Context {A B : Type}.

Lemma quiet_ret (a : A) : logs (mret a) [].
Proof. exists (Ok a), []. intros w. by rewrite log_nil. Qed.

Lemma quiet_raise (e : exn) : logs (raise e : M A) [].
Proof. exists (Exc e), []. intros w. unfold raise. by rewrite log_nil. Qed.

Lemma quiet_diverge : logs (diverge : M A) [].
Proof. exists Diverge, []. intros w. unfold diverge. by rewrite log_nil. Qed.

Lemma quiet_lift (r : exn + A) : logs (lift r) [].
Proof. destruct r; [apply quiet_raise|apply quiet_ret]. Qed.

Lemma logs_bind (m : M A) (f : A -> M B) rqs :
  logs m rqs -> (forall a, exists rqs', logs (f a) rqs') ->
  exists rqs', logs (m ≫= f) (rqs ++ rqs').
Proof.
  intros (r & out & Hm) Hf. destruct r as [a|e|].
  - destruct (Hf a) as (rqs' & r' & out' & Hfa).
    exists rqs', r', (out ++ out'). intros w.
    by rewrite (bind_ok _ _ _ _ _ (Hm w)), Hfa, log_log.
  - exists [], (Exc e), out. intros w.
    by rewrite (bind_exc _ _ _ _ _ (Hm w)), app_nil_r.
  - exists [], Diverge, out. intros w.
    by rewrite (bind_diverge _ _ _ _ (Hm w)), app_nil_r.
Qed.

Lemma quiet_bind (m : M A) (f : A -> M B) :
  logs m [] -> (forall a, logs (f a) []) -> logs (m ≫= f) [].
Proof.
  intros (r & out & Hm) Hf. destruct r as [a|e|].
  - destruct (Hf a) as (r' & out' & Hfa).
    exists r', (out ++ out'). intros w.
    by rewrite (bind_ok _ _ _ _ _ (Hm w)), Hfa, log_log.
  - exists (Exc e), out. intros w. by rewrite (bind_exc _ _ _ _ _ (Hm w)).
  - exists Diverge, out. intros w. by rewrite (bind_diverge _ _ _ _ (Hm w)).
Qed.

Lemma logs_try (m : M A) catches (h : exn -> M A) rqs :
  logs m rqs -> (forall e, logs (h e) []) -> logs (try_except m catches h) rqs.
Proof.
  intros (r & out & Hm) Hh. destruct r as [a|e|].
  - exists (Ok a), out. intros w. unfold try_except. by rewrite Hm.
  - destruct (catches e) eqn:Hc.
    + destruct (Hh e) as (r' & out' & He).
      exists r', (out ++ out'). intros w. unfold try_except.
      by rewrite Hm, Hc, He, log_log, app_nil_r.
    + exists (Exc e), out. intros w. unfold try_except. by rewrite Hm, Hc.
  - exists Diverge, out. intros w. unfold try_except. by rewrite Hm.
Qed.

End Logs.

Lemma quiet_print o : logs (print o) [].
Proof. exists (Ok tt), [o]. intros w. apply print_log. Qed.

Create HintDb quiet.

#[local] Hint Resolve quiet_ret quiet_raise quiet_lift quiet_print
  quiet_diverge : quiet.

(** Solves goals [logs m []] for computations built from the above. *)
Ltac quiet :=
  repeat first
    [ progress auto with quiet
    | apply quiet_bind; [|intros ?]
    | apply logs_try; [|intros ?]
    | match goal with
      | |- logs (if ?b then _ else _) _ => destruct b
      | |- logs (match ?x with _ => _ end) _ => destruct x
      end ].

(** ** One turn of the loop of [fetcher] *)

Section Turn.

Variable srv : server.
Variables (url : string) (page : Z) (all_items : list json) (w : world).

Let rq := request_for url page.

Lemma turn_fail e :
  srv rq = Fail e ->
  turn srv url page all_items w = (Exc e, log [rq] [] w).
Proof.
  intros Hs. unfold turn, mbind, M_bind, session_get.
  fold (request_for url page). fold rq. rewrite Hs.
  unfold log. by rewrite app_nil_r.
Qed.

Lemma turn_403 resp :
  srv rq = Respond resp -> status_code resp = 403 ->
  turn srv url page all_items w = rate_limited resp (log [rq] [] w).
Proof.
  intros Hs H403. unfold turn, mbind, M_bind, session_get.
  fold (request_for url page). fold rq. rewrite Hs, H403. simpl.
  unfold log. by rewrite app_nil_r.
Qed.

Lemma turn_http_error resp :
  srv rq = Respond resp -> status_code resp <> 403 ->
  good_status resp = false ->
  turn srv url page all_items w = (Exc RequestException, log [rq] [] w).
Proof.
  intros Hs H403 Hbad. unfold turn, mbind, M_bind, session_get.
  fold (request_for url page). fold rq. rewrite Hs.
  apply Z.eqb_neq in H403. rewrite H403.
  unfold raise_for_status. unfold good_status in Hbad.
  apply negb_false_iff in Hbad. rewrite Hbad. simpl.
  unfold log. by rewrite app_nil_r.
Qed.

Lemma good_status_not_403 resp : good_status resp = true -> status_code resp <> 403.
Proof. unfold good_status. intros H E. rewrite E in H. discriminate H. Qed.

Lemma turn_not_json resp :
  srv rq = Respond resp -> good_status resp = true -> json_type resp = false ->
  turn srv url page all_items w = (Ok (Return None), log [rq] [Print "Not JSON"] w).
Proof.
  intros Hs Hgood Hct. unfold turn, mbind, M_bind, session_get.
  fold (request_for url page). fold rq. rewrite Hs.
  pose proof (good_status_not_403 _ Hgood) as H403.
  apply Z.eqb_neq in H403. rewrite H403.
  unfold raise_for_status. unfold good_status in Hgood.
  apply negb_true_iff in Hgood. rewrite Hgood. simpl.
  fold (content_type resp). fold (json_type resp). rewrite Hct. reflexivity.
Qed.

Lemma turn_json resp :
  srv rq = Respond resp -> good_status resp = true -> json_type resp = true ->
  turn srv url page all_items w =
  try_except
    (items ← resp_json resp;
     if negb (truthy items) then mret (Break all_items)
     else
       repos ← iterate items;
       all_items' ← for_repos repos all_items;
       n ← len items;
       if n <? 30 then mret (Break all_items')
       else mret (Next (page + 1) all_items'))
    (fun e => match e with ValueError => true | _ => false end)
    (fun _ => print (Print "Invalid JSON");; mret (Return None))
    (log [rq] [] w).
Proof.
  intros Hs Hgood Hct. unfold turn, mbind at 1, M_bind at 1, session_get.
  fold (request_for url page). fold rq. rewrite Hs.
  pose proof (good_status_not_403 _ Hgood) as H403.
  apply Z.eqb_neq in H403. rewrite H403.
  unfold raise_for_status. unfold good_status in Hgood.
  apply negb_true_iff in Hgood. rewrite Hgood.
  unfold mbind at 1, M_bind at 1. simpl.
  fold (content_type resp). fold (json_type resp). rewrite Hct. simpl.
  unfold log. by rewrite app_nil_r.
Qed.

Lemma turn_invalid_json resp :
  srv rq = Respond resp -> good_status resp = true -> json_type resp = true ->
  json_body resp = None ->
  turn srv url page all_items w = (Ok (Return None), log [rq] [Print "Invalid JSON"] w).
Proof.
  intros Hs Hgood Hct Hb. rewrite (turn_json resp) by done.
  unfold try_except, mbind, M_bind, resp_json. rewrite Hb.
  unfold raise, print, log. simpl. by rewrite app_nil_r.
Qed.

Lemma for_repos_objects (items : list dict) acc w' :
  for_repos (map JObj items) acc w' = (Ok (acc ++ map data_of items), w').
Proof.
  revert acc. induction items as [|d items IH]; intros acc; simpl.
  - by rewrite app_nil_r.
  - unfold mbind, M_bind. simpl. rewrite IH. by rewrite <- app_assoc.
Qed.

(** A page of repository objects: the loop stops on an empty page and
    on a page of fewer than 30 items, and goes on to the next page
    otherwise. *)
Lemma turn_page resp (items : list dict) :
  srv rq = Respond resp -> page_of resp items ->
  turn srv url page all_items w =
  (Ok (if (length items <? 30)%nat
       then Break (all_items ++ map data_of items)
       else Next (page + 1) (all_items ++ map data_of items)),
   log [rq] [] w).
Proof.
  intros Hs (Hgood & Hct & Hb). rewrite (turn_json resp) by done.
  unfold try_except, mbind at 1, M_bind at 1, resp_json. rewrite Hb.
  destruct items as [|d items].
  - simpl. by rewrite app_nil_r.
  - cbn [mret M_ret truthy map negb iterate].
    unfold mbind at 1, M_bind at 1. cbn [mret M_ret].
    unfold mbind at 1, M_bind at 1.
    change (JObj d :: map JObj items) with (map JObj (d :: items)).
    rewrite for_repos_objects.
    unfold mbind at 1, M_bind at 1. cbn [len mret M_ret].
    rewrite length_map.
    destruct (Nat.ltb_spec (length (d :: items)) 30) as [Hlt|Hge].
    + assert ((Z.of_nat (length (d :: items)) <? 30) = true) as -> by lia.
      reflexivity.
    + assert ((Z.of_nat (length (d :: items)) <? 30) = false) as -> by lia.
      reflexivity.
Qed.

End Turn.

(** ** The loop of [fetcher] *)

Section Pages.

Variable srv : server.
Variable url : string.

Lemma pages_ok fuel page acc w c w' :
  turn srv url page acc w = (Ok c, w') ->
  pages srv (S fuel) url page acc w =
  match c with
  | Next p a => pages srv fuel url p a w'
  | Break a => (Ok (Some a), w')
  | Return r => (Ok r, w')
  end.
Proof.
  intros H. simpl. rewrite (bind_ok _ _ _ _ _ H). by destruct c.
Qed.

Lemma pages_exc fuel page acc w e w' :
  turn srv url page acc w = (Exc e, w') ->
  pages srv (S fuel) url page acc w = (Exc e, w').
Proof. intros H. simpl. by rewrite (bind_exc _ _ _ _ _ H). Qed.

Lemma requests_cons first n :
  requests url first (S n) = request_for url first :: requests url (first + 1) n.
Proof.
  unfold requests. simpl. rewrite Z.add_0_r. f_equal.
  rewrite <- seq_shift, map_map. apply map_ext. intros i.
  f_equal. lia.
Qed.

Lemma requests_snoc first n :
  requests url first (S n) =
  requests url first n ++ [request_for url (first + Z.of_nat n)].
Proof.
  unfold requests. rewrite seq_S, map_app. reflexivity.
Qed.

(** Full pages are all visited, in order, and their records are
    appended to the records gathered so far. *)
Lemma pages_full pgs : forall first acc w fuel,
  (forall (i : nat) items,
      pgs !! i = Some items ->
      serves srv url (first + Z.of_nat i) items /\ (30 <= length items)%nat) ->
  pages srv (length pgs + fuel) url first acc w =
  pages srv fuel url (first + Z.of_nat (length pgs))
    (acc ++ map data_of (concat pgs))
    (log (requests url first (length pgs)) [] w).
Proof.
  induction pgs as [|p pgs IH]; intros first acc w fuel Hfull.
  - simpl. rewrite Z.add_0_r, app_nil_r, log_nil. reflexivity.
  - destruct (Hfull 0%nat p eq_refl) as [(resp & Hs & Hp) Hlen].
    rewrite Z.add_0_r in Hs.
    change (length (p :: pgs) + fuel)%nat with (S (length pgs + fuel)).
    rewrite (pages_ok _ _ _ _ _ _ (turn_page srv url first acc w resp p Hs Hp)).
    destruct (Nat.ltb_spec (length p) 30) as [Hlt|_]; [lia|].
    rewrite IH.
    + change (length (p :: pgs)) with (S (length pgs)).
      rewrite log_log, requests_cons.
      change (concat (p :: pgs)) with (p ++ concat pgs).
      rewrite map_app, app_assoc.
      replace (first + Z.of_nat (S (length pgs)))
        with (first + 1 + Z.of_nat (length pgs)) by lia.
      reflexivity.
    + intros i items Hi. destruct (Hfull (S i) items Hi) as [Hsv Hl].
      split; [|done]. replace (first + 1 + Z.of_nat i) with (first + Z.of_nat (S i)) by lia.
      exact Hsv.
Qed.

End Pages.

(** ** [fetcher] *)

Section Fetcher.

Variable srv : server.

Lemma fetcher_ok fuel user w r w' :
  pages srv fuel (get_url user) 1 [] w = (Ok r, w') ->
  fetcher srv fuel user w = (Ok r, w').
Proof. intros H. unfold fetcher, try_except. by rewrite H. Qed.

Lemma fetcher_exc fuel user w e w' :
  pages srv fuel (get_url user) 1 [] w = (Exc e, w') ->
  is_Exception e = true ->
  fetcher srv fuel user w = (Ok None, log [] [handler_line e] w').
Proof.
  intros H He. unfold fetcher, try_except. rewrite H, He.
  destruct e; try discriminate He; unfold mbind, M_bind; by rewrite print_log.
Qed.

(** What [fetcher] does once the full pages [pgs] are behind it
    depends on the turn for the next page only. *)
Lemma pages_after_full user pgs fuel w :
  full_pages srv (get_url user) pgs ->
  pages srv (length pgs + fuel) (get_url user) 1 [] w =
  pages srv fuel (get_url user) (Z.of_nat (length pgs) + 1)
    (map data_of (concat pgs))
    (log (requests (get_url user) 1 (length pgs)) [] w).
Proof.
  intros Hfull. rewrite pages_full.
  - by rewrite Z.add_comm.
  - intros i items Hi. destruct (Hfull i items Hi) as [Hs Hl].
    split; [|done]. by rewrite Z.add_comm.
Qed.

(** The turn after the full pages decides: a turn that returns. *)
Lemma fetcher_returns user pgs fuel w r w' :
  full_pages srv (get_url user) pgs ->
  (length pgs < fuel)%nat ->
  turn srv (get_url user) (Z.of_nat (length pgs) + 1)
    (map data_of (concat pgs))
    (log (requests (get_url user) 1 (length pgs)) [] w) = (Ok (Return r), w') ->
  fetcher srv fuel user w = (Ok r, w').
Proof.
  intros Hfull Hfuel Hturn. apply fetcher_ok.
  replace fuel with (length pgs + S (fuel - S (length pgs)))%nat by lia.
  rewrite pages_after_full by done.
  by rewrite (pages_ok _ _ _ _ _ _ _ _ Hturn).
Qed.

(** The turn after the full pages decides: a turn that raises. *)
Lemma fetcher_raises user pgs fuel w e w' :
  full_pages srv (get_url user) pgs ->
  (length pgs < fuel)%nat ->
  turn srv (get_url user) (Z.of_nat (length pgs) + 1)
    (map data_of (concat pgs))
    (log (requests (get_url user) 1 (length pgs)) [] w) = (Exc e, w') ->
  is_Exception e = true ->
  fetcher srv fuel user w = (Ok None, log [] [handler_line e] w').
Proof.
  intros Hfull Hfuel Hturn He. apply fetcher_exc; [|done].
  replace fuel with (length pgs + S (fuel - S (length pgs)))%nat by lia.
  rewrite pages_after_full by done.
  by rewrite (pages_exc _ _ _ _ _ _ _ _ Hturn).
Qed.

(** The turn after the full pages decides: a turn that leaves the loop. *)
Lemma fetcher_breaks user pgs fuel w acc w' :
  full_pages srv (get_url user) pgs ->
  (length pgs < fuel)%nat ->
  turn srv (get_url user) (Z.of_nat (length pgs) + 1)
    (map data_of (concat pgs))
    (log (requests (get_url user) 1 (length pgs)) [] w) = (Ok (Break acc), w') ->
  fetcher srv fuel user w = (Ok (Some acc), w').
Proof.
  intros Hfull Hfuel Hturn. apply fetcher_ok.
  replace fuel with (length pgs + S (fuel - S (length pgs)))%nat by lia.
  rewrite pages_after_full by done.
  by rewrite (pages_ok _ _ _ _ _ _ _ _ Hturn).
Qed.

Lemma quiet_for_repos items : forall acc, logs (for_repos items acc) [].
Proof.
  induction items as [|x items IH]; intros acc; simpl; [quiet|].
  apply quiet_bind; [unfold summary; quiet|]. intros a. apply IH.
Qed.

Lemma quiet_rate_limited resp : logs (rate_limited resp) [].
Proof. unfold rate_limited. quiet. Qed.

(** One turn sends its request, once, and prints. *)
Lemma logs_turn url page acc :
  logs (turn srv url page acc) [request_for url page].
Proof.
  assert (forall resp,
    logs (if status_code resp =? 403 then rate_limited resp
          else
            raise_for_status resp;;
            let ctype :=
              default EmptyString (headers_get "Content-Type" (headers resp)) in
            if negb (PyStr.contains "application/json" (PyStr.lower ctype)) then
              print (Print "Not JSON");; mret (Return None)
            else
              try_except
                (items ← resp_json resp;
                 if negb (truthy items) then mret (Break acc)
                 else
                   repos ← iterate items;
                   all_items ← for_repos repos acc;
                   n ← len items;
                   if n <? 30 then mret (Break all_items)
                   else mret (Next (page + 1) all_items))
                (fun e => match e with ValueError => true | _ => false end)
                (fun _ => print (Print "Invalid JSON");; mret (Return None))) [])
    as Hrest.
  { intros resp. destruct (status_code resp =? 403).
    - apply quiet_rate_limited.
    - apply quiet_bind; [unfold raise_for_status; quiet|]. intros _.
      cbv zeta. destruct (negb _); [quiet|].
      apply logs_try; [|intros ?; quiet].
      apply quiet_bind; [unfold resp_json; quiet|]. intros items.
      destruct (negb (truthy items)); [quiet|].
      apply quiet_bind; [unfold iterate; quiet|]. intros repos.
      apply quiet_bind; [apply quiet_for_repos|]. intros all_items.
      apply quiet_bind; [unfold len; quiet|]. intros n. quiet. }
  unfold turn. fold (request_for url page).
  destruct (srv (request_for url page)) as [resp|e] eqn:Hs.
  - destruct (Hrest resp) as (r & out & Hr).
    exists r, out. intros w. unfold mbind at 1, M_bind at 1, session_get.
    rewrite Hs, Hr. unfold log. simpl. by rewrite app_nil_r.
  - exists (Exc e), []. intros w. unfold mbind at 1, M_bind at 1, session_get.
    rewrite Hs. unfold log. by rewrite app_nil_r.
Qed.

(** The loop sends the request for the page it starts at, then
    possibly others. *)
Lemma logs_pages url fuel : forall page acc,
  exists rqs, logs (pages srv (S fuel) url page acc) (request_for url page :: rqs).
Proof.
  induction fuel as [|fuel IH]; intros page acc.
  - destruct (logs_bind (turn srv url page acc)
                (fun c => match c with
                          | Next p a => pages srv 0 url p a
                          | Break a => mret (Some a)
                          | Return r => mret r
                          end) _ (logs_turn url page acc)) as (rqs & H).
    + intros [p a|a|r]; exists []; simpl; quiet.
    + exists rqs. exact H.
  - destruct (logs_bind (turn srv url page acc)
                (fun c => match c with
                          | Next p a => pages srv (S fuel) url p a
                          | Break a => mret (Some a)
                          | Return r => mret r
                          end) _ (logs_turn url page acc)) as (rqs & H).
    + intros [p a|a|r].
      * destruct (IH p a) as (rqs & H). eexists. exact H.
      * exists []. quiet.
      * exists []. quiet.
    + exists rqs. exact H.
Qed.

Lemma logs_fetcher fuel user :
  exists rqs, logs (fetcher srv (S fuel) user)
                (request_for (get_url user) 1 :: rqs).
Proof.
  destruct (logs_pages (get_url user) fuel 1 []) as (rqs & H).
  exists rqs. unfold fetcher. apply logs_try; [exact H|].
  intros e. destruct e; quiet.
Qed.

Lemma framed_fetcher fuel user : exists rqs, logs (fetcher srv fuel user) rqs.
Proof.
  destruct fuel as [|fuel].
  - exists []. unfold fetcher. apply logs_try; [simpl; quiet|].
    intros e. destruct e; quiet.
  - destruct (logs_fetcher fuel user) as (rqs & H). eexists. exact H.
Qed.

Lemma full_pages_nil url : full_pages srv url [].
Proof. intros i items Hi. discriminate Hi. Qed.

Lemma full_pages_one url items :
  serves srv url 1 items -> (30 <= length items)%nat ->
  full_pages srv url [items].
Proof.
  intros Hs Hl [|i] items' Hi; simpl in Hi.
  - injection Hi as <-. done.
  - discriminate Hi.
Qed.

End Fetcher.

Lemma log_requests_snoc url k out w :
  log [request_for url (Z.of_nat k + 1)] out (log (requests url 1 k) [] w)
  = log (requests url 1 (S k)) out w.
Proof.
  rewrite log_log, requests_snoc.
  replace (1 + Z.of_nat k) with (Z.of_nat k + 1) by lia. reflexivity.
Qed.

Lemma log_line_requests_snoc url k line w :
  log [] [line]
    (log [request_for url (Z.of_nat k + 1)] [] (log (requests url 1 k) [] w))
  = log (requests url 1 (S k)) [line] w.
Proof. rewrite log_log. cbn [app]. apply log_requests_snoc. Qed.

(** ** [main] in terms of the outcome of [fetcher] *)

Section Main.

Variable srv : server.

Lemma main_cli fuel user out w :
  user <> EmptyString ->
  main srv fuel {| username := Some user; output := out |} w
  = cli srv fuel user out w.
Proof. intros Hu. unfold main. simpl. by destruct user. Qed.

(** [write_file] on a non-empty list: [open] raises and nothing
    changes, or the file is emptied and holds what [json.dump] wrote. *)
Lemma write_file_result x l path w :
  write_file (Some (x :: l)) path w
  = (fst (write_result (x :: l) path w),
     after_write path (snd (write_result (x :: l) path w)) w).
Proof.
  unfold write_file, write_result, open_w, json_dump, mbind, M_bind.
  destruct (open_error path w) as [e|]; [reflexivity|].
  destruct (Json.written (Json.iterencode 4 0 (JArr (x :: l)))) as [s ok].
  simpl. rewrite lookup_insert_eq. simpl. unfold with_file. simpl.
  by rewrite insert_insert_eq.
Qed.

(** [write_file] ends normally or with an [Exception]. *)
Lemma write_result_ends records path w :
  match fst (write_result records path w) with
  | Ok _ => True
  | Exc e => is_Exception e = true
  | Diverge => False
  end.
Proof.
  unfold write_result, open_error.
  destruct path as [|c path]; [done|].
  destruct (has_nul (String c path)); [done|].
  destruct (unwritable w (String c path)); [done|].
  by destruct (Json.written _) as [s []].
Qed.

(** [write_file] touches the file it is given and nothing else. *)
Lemma after_write_frame path c w :
  stdin (after_write path c w) = stdin w
  /\ stdout (after_write path c w) = stdout w
  /\ sent (after_write path c w) = sent w
  /\ unwritable (after_write path c w) = unwritable w
  /\ files (after_write path c w) = files_after path c (files w).
Proof. by destruct c. Qed.

Lemma files_after_other path c fs p :
  p <> path -> files_after path c fs !! p = fs !! p.
Proof. intros Hne. destruct c; [|done]. simpl. by apply lookup_insert_ne. Qed.

Lemma cli_result fuel user out w r w1 :
  fetcher srv fuel user
    (log [] [Print ("Fetching repos for user: " +:+ user)] w) = (r, w1) ->
  cli srv fuel user out w =
  match r with
  | Ok (Some (x :: l)) =>
      let wl := log [] [Print ("Logging repos to " +:+ out +:+ "...")] w1 in
      match write_result (x :: l) out wl with
      | (Ok _, c) =>
          (Ok tt, log [] [Print ("Repos logged to " +:+ out)] (after_write out c wl))
      | (Exc e, c) => (Exc e, after_write out c wl)
      | (Diverge, c) => (Diverge, after_write out c wl)
      end
  | Ok (Some []) =>
      (Exc (SystemExit 1), log [] [Print "No repos or Invalid account"] w1)
  | Ok None => (Exc (SystemExit 1), log [] [Print "Error fetching data."] w1)
  | Exc e => (Exc e, w1)
  | Diverge => (Diverge, w1)
  end.
Proof.
  intros Hf. unfold cli.
  rewrite (bind_ok _ _ _ _ _ (print_log _ w)).
  unfold mbind at 1, M_bind at 1. rewrite Hf.
  destruct r as [[[|x l]|]|e|]; try reflexivity.
  - rewrite (bind_ok _ _ _ _ _ (print_log _ w1)). reflexivity.
  - rewrite (bind_ok _ _ _ _ _ (print_log _ w1)).
    unfold mbind at 1, M_bind at 1. rewrite write_file_result. cbv zeta.
    destruct (write_result _ _ _) as [[[]|e|] c]; cbv beta iota;
      cbn [fst snd]; try reflexivity.
    unfold mbind, M_bind. by rewrite print_log.
  - rewrite (bind_ok _ _ _ _ _ (print_log _ w1)). reflexivity.
Qed.

Lemma input_line text line rest w :
  stdin w = line :: rest ->
  input text w = (Ok line, after_input text w).
Proof. intros H. unfold input, after_input. by rewrite H. Qed.

(** A turn of the interactive loop on a line that is not the
    sentinel. *)
Lemma prompt_result fuel line rest w r w1 :
  stdin w = line :: rest ->
  is_exit line = false ->
  fetcher srv fuel line
    (after_input "Enter username (or 'exit' to quit): " w) = (r, w1) ->
  prompt srv fuel w =
  match r with
  | Ok (Some (x :: l)) =>
      let wl := log [] [Print "Logging repos to github_repos.json..."] w1 in
      match write_result (x :: l) default_output wl with
      | (Ok _, c) =>
          (Ok false,
           log [] [Print "Repos logged to github_repos.json"]
             (after_write default_output c wl))
      | (Exc e, c) =>
          if is_Exception e
          then (Ok false,
                log [] [match e with
                        | ValueError => Print "Invalid input."
                        | _ => PrintExc "An Unexpected Error Occurred: " e
                        end] (after_write default_output c wl))
          else (Exc e, after_write default_output c wl)
      | (Diverge, c) => (Diverge, after_write default_output c wl)
      end
  | Ok (Some []) => (Ok false, log [] [Print "No repos or Invalid account"] w1)
  | Ok None => (Ok false, log [] [Print "Error fetching data."] w1)
  | Exc e =>
      if is_Exception e
      then (Ok false,
            log [] [match e with
                    | ValueError => Print "Invalid input."
                    | _ => PrintExc "An Unexpected Error Occurred: " e
                    end] w1)
      else (Exc e, w1)
  | Diverge => (Diverge, w1)
  end.
Proof.
  intros Hin Hexit Hf. unfold prompt, try_except.
  rewrite (bind_ok _ _ _ _ _ (input_line _ _ _ _ Hin)), Hexit.
  unfold mbind at 1, M_bind at 1. rewrite Hf.
  destruct r as [[[|x l]|]|e|]; try reflexivity.
  - rewrite (bind_ok _ _ _ _ _ (print_log _ w1)). reflexivity.
  - rewrite (bind_ok _ _ _ _ _ (print_log _ w1)).
    unfold mbind at 1, M_bind at 1. rewrite write_file_result. cbv zeta.
    destruct (write_result _ _ _) as [[[]|e|] c]; cbv beta iota;
      cbn [fst snd]; try reflexivity.
    + unfold mbind, M_bind. by rewrite print_log.
    + destruct e; cbn [is_Exception]; try reflexivity;
        unfold mbind, M_bind; by rewrite print_log.
  - rewrite (bind_ok _ _ _ _ _ (print_log _ w1)). reflexivity.
  - destruct e; simpl; try reflexivity;
      unfold mbind, M_bind; by rewrite print_log.
Qed.

Lemma prompt_exit fuel line rest w :
  stdin w = line :: rest ->
  is_exit line = true ->
  prompt srv fuel w
  = (Ok true, after_input "Enter username (or 'exit' to quit): " w).
Proof.
  intros Hin Hexit. unfold prompt, try_except.
  by rewrite (bind_ok _ _ _ _ _ (input_line _ _ _ _ Hin)), Hexit.
Qed.

End Main.

Lemma convert_reset_raises n e :
  convert_reset_to_ist n = inl e -> is_Exception e = true.
Proof.
  unfold convert_reset_to_ist, DateTime.fromtimestamp_utc, DateTime.add.
  repeat match goal with
         | |- context [if ?b then _ else _] => destruct b
         end; intros H; inversion H; reflexivity.
Qed.

(** The 403 branch returns [None] after one line, or raises an
    [Exception] that [fetcher] reports. *)
Lemma rate_limited_cases resp w :
  (exists line, rate_limited resp w = (Ok (Return None), log [] [line] w))
  \/ (exists e, is_Exception e = true /\ rate_limited resp w = (Exc e, w)).
Proof.
  unfold rate_limited.
  destruct (headers_get "X-RateLimit-Reset" (headers resp)) as [[|c s]|].
  - left. eexists. unfold mbind, M_bind. by rewrite print_log.
  - destruct (PyStr.int (String c s)) as [n|].
    + destruct (convert_reset_to_ist n) as [e|t] eqn:Hc.
      * right. exists e. split; [by apply (convert_reset_raises n)|].
        unfold mbind, M_bind. simpl. rewrite Hc. reflexivity.
      * left. exists (Print ("Rate limit exceeded. It will reset at: " +:+ t)).
        unfold mbind, M_bind. simpl. rewrite Hc. simpl.
        unfold log. simpl. by rewrite app_nil_r.
    + right. exists ValueError. split; [reflexivity|].
      unfold mbind, M_bind. simpl. reflexivity.
  - left. eexists. unfold mbind, M_bind. by rewrite print_log.
Qed.

(** ** Failures *)

(** A response with status 4xx or 5xx, or without a JSON content type,
    or with a body that does not decode: [fetcher] returns [None] after
    one request for the page and one printed line. *)
Lemma bad_response_fails (srv : server) (user : string) (pgs : list (list dict))
    (resp : response) (fuel : nat) (w : world) :
  full_pages srv (get_url user) pgs ->
  srv (request_for (get_url user) (Z.of_nat (length pgs) + 1)) = Respond resp ->
  good_status resp = false \/ json_type resp = false \/ json_body resp = None ->
  (length pgs < fuel)%nat ->
  exists line,
    fetcher srv fuel user w =
    (Ok None, log (requests (get_url user) 1 (S (length pgs))) [line] w)
    /\ (good_status resp = true -> json_type resp = false ->
        line = Print "Not JSON")
    /\ (good_status resp = true -> json_type resp = true ->
        line = Print "Invalid JSON").
Proof.
  intros Hfull Hs Hbad Hfuel.
  set (w1 := log (requests (get_url user) 1 (length pgs)) [] w).
  destruct (Z.eq_dec (status_code resp) 403) as [H403|H403].
  { assert (good_status resp = false) as Hg
      by (unfold good_status; rewrite H403; reflexivity).
    pose proof (turn_403 srv _ _ (map data_of (concat pgs)) w1 resp Hs H403) as Ht.
    destruct (rate_limited_cases resp
                (log [request_for (get_url user) (Z.of_nat (length pgs) + 1)] [] w1))
      as [(line & Hr)|(e & He & Hr)].
    - exists line. split; [|split; intros H; congruence].
      rewrite Hr in Ht. rewrite (fetcher_returns srv user pgs fuel w _ _ Hfull Hfuel Ht).
      f_equal. unfold w1. by rewrite log_line_requests_snoc.
    - exists (handler_line e). split; [|split; intros H; congruence].
      rewrite Hr in Ht.
      rewrite (fetcher_raises srv user pgs fuel w _ _ Hfull Hfuel Ht He).
      f_equal. unfold w1. by rewrite log_line_requests_snoc. }
  destruct (good_status resp) eqn:Hg.
  - destruct (json_type resp) eqn:Hj.
    + destruct Hbad as [Hbad|[Hbad|Hbad]]; try discriminate Hbad.
      exists (Print "Invalid JSON"). split; [|split; intros; congruence].
      pose proof (turn_invalid_json srv _ _ (map data_of (concat pgs)) w1 resp
                    Hs Hg Hj Hbad) as Ht.
      rewrite (fetcher_returns srv user pgs fuel w _ _ Hfull Hfuel Ht).
      f_equal. unfold w1. by rewrite log_requests_snoc.
    + exists (Print "Not JSON"). split; [|split; intros; congruence].
      pose proof (turn_not_json srv _ _ (map data_of (concat pgs)) w1 resp
                    Hs Hg Hj) as Ht.
      rewrite (fetcher_returns srv user pgs fuel w _ _ Hfull Hfuel Ht).
      f_equal. unfold w1. by rewrite log_requests_snoc.
  - exists (handler_line RequestException).
    split; [|split; intros; congruence].
    pose proof (turn_http_error srv _ _ (map data_of (concat pgs)) w1 resp
                  Hs H403 Hg) as Ht.
    rewrite (fetcher_raises srv user pgs fuel w _ _ Hfull Hfuel Ht eq_refl).
    f_equal. unfold w1. by rewrite log_line_requests_snoc.
Qed.

(** When [fetcher] returns [None], neither mode of [main] writes a file,
    and the command-line mode exits with status 1. *)
Lemma failure_writes_nothing (srv : server) (user : string) (fuel : nat) :
  (forall w, exists w', fetcher srv fuel user w = (Ok None, w')) ->
  forall w,
    (forall out,
        user <> EmptyString ->
        files (snd (main srv fuel {| username := Some user; output := out |} w))
        = files w
        /\ exit_status
             (fst (main srv fuel {| username := Some user; output := out |} w))
           = Some 1)
    /\ (forall rest,
           stdin w = user :: rest -> files (snd (prompt srv fuel w)) = files w).
Proof.
  intros Hnone w.
  destruct (framed_fetcher srv fuel user) as (rqs & r & out' & Hf).
  assert (r = Ok None) as ->.
  { destruct (Hnone w) as (w' & Hw). rewrite Hf in Hw. congruence. }
  split.
  - intros out Hu. rewrite main_cli by done.
    rewrite (cli_result srv fuel user out w _ _ (Hf _)). split; reflexivity.
  - intros rest Hin. destruct (is_exit user) eqn:Hexit.
    + by rewrite (prompt_exit srv fuel user rest w Hin Hexit).
    + by rewrite (prompt_result srv fuel user rest w _ _ Hin Hexit (Hf _)).
Qed.

(** C4.  A response whose content type does not contain
    [application/json], or whose body does not decode as JSON, makes
    [fetcher] print one line reporting the error and return [None]:
    [Not JSON] for the content type, [Invalid JSON] for the body, when
    the status let the response through.  No file is written during
    that run of the program, in either mode. *)
Theorem bad_content_fails
    (srv : server) (user : string) (pgs : list (list dict))
    (resp : response) (fuel : nat) (w : world) :
  full_pages srv (get_url user) pgs ->
  srv (request_for (get_url user) (Z.of_nat (length pgs) + 1)) = Respond resp ->
  json_type resp = false \/ json_body resp = None ->
  (length pgs < fuel)%nat ->
  (exists line,
      fetcher srv fuel user w =
      (Ok None, log (requests (get_url user) 1 (S (length pgs))) [line] w)
      /\ (good_status resp = true -> json_type resp = false ->
          line = Print "Not JSON")
      /\ (good_status resp = true -> json_type resp = true ->
          line = Print "Invalid JSON"))
  /\ (forall out,
         user <> EmptyString ->
         files (snd (main srv fuel {| username := Some user; output := out |} w))
         = files w
         /\ exit_status
              (fst (main srv fuel {| username := Some user; output := out |} w))
            = Some 1)
  /\ (forall rest,
         stdin w = user :: rest -> files (snd (prompt srv fuel w)) = files w).
Proof.
  intros Hfull Hs Hbad Hfuel. split.
  - apply (bad_response_fails srv user pgs resp); auto.
  - apply failure_writes_nothing. intros w0.
    destruct (bad_response_fails srv user pgs resp fuel w0) as (line & H & _);
      auto.
    eexists. exact H.
Qed.

(** ** The sentinel of the interactive mode *)

Lemma isspace_lower_char c : PyStr.isspace (PyStr.lower_char c) = PyStr.isspace c.
Proof. destruct c as [[] [] [] [] [] [] [] []]; reflexivity. Qed.

Lemma lstrip_lower s : PyStr.lstrip (PyStr.lower s) = PyStr.lower (PyStr.lstrip s).
Proof.
  induction s as [|c s IH]; [reflexivity|]. simpl.
  rewrite isspace_lower_char. by destruct (PyStr.isspace c).
Qed.

Lemma rstrip_lower s : PyStr.rstrip (PyStr.lower s) = PyStr.lower (PyStr.rstrip s).
Proof.
  induction s as [|c s IH]; [reflexivity|]. simpl.
  rewrite IH, isspace_lower_char.
  destruct (PyStr.rstrip s); simpl; [|reflexivity].
  by destruct (PyStr.isspace c).
Qed.

(** Stripping and lower-casing commute. *)
Lemma strip_lower s : PyStr.strip (PyStr.lower s) = PyStr.lower (PyStr.strip s).
Proof. unfold PyStr.strip. by rewrite lstrip_lower, rstrip_lower. Qed.

Lemma page_number_requests url first n :
  map page_number (requests url first n)
  = map (fun i => JInt (first + Z.of_nat i)) (seq 0 n).
Proof. unfold requests. rewrite map_map. reflexivity. Qed.

(** ** Pagination *)

(** C1.  Whatever the pages are, [fetcher] asks for page 1, 2, ... in
    turn, 30 items per page; it stops at the first page of fewer than
    30 items (an empty page included), not before, and returns the
    records of all the pages it visited, in the order of the pages.  In
    particular, 30 items on page 1 and none on page 2 give 30 records
    and the two requests for pages 1 and 2.  When every page has 30
    items or more the loop does not stop. *)
Theorem fetcher_pagination :
  (forall (srv : server) (user : string) (pgs : list (list dict))
          (last : list dict) (fuel : nat) (w : world),
      full_pages srv (get_url user) pgs ->
      serves srv (get_url user) (Z.of_nat (length pgs) + 1) last ->
      (length last < 30)%nat ->
      (length pgs < fuel)%nat ->
      fetcher srv fuel user w =
      (Ok (Some (map data_of (concat pgs ++ last))),
       log (requests (get_url user) 1 (S (length pgs))) [] w))
  /\ (forall (url : string) (first : Z) (n : nat),
         map page_number (requests url first n)
         = map (fun i => JInt (first + Z.of_nat i)) (seq 0 n)
         /\ Forall (fun rq => dict_get "per_page" (params rq) = JInt 30)
              (requests url first n))
  /\ (forall (srv : server) (user : string) (first : list dict)
             (fuel : nat) (w : world),
         length first = 30%nat ->
         serves srv (get_url user) 1 first ->
         serves srv (get_url user) 2 [] ->
         (2 <= fuel)%nat ->
         exists records w',
           fetcher srv fuel user w = (Ok (Some records), w')
           /\ length records = 30%nat
           /\ map page_number (sent w')
              = map page_number (sent w) ++ [JInt 1; JInt 2])
  /\ (forall (srv : server) (user : string) (page : nat -> list dict)
             (fuel : nat) (w : world),
         (forall i : nat,
             serves srv (get_url user) (Z.of_nat i + 1) (page i)
             /\ (30 <= length (page i))%nat) ->
         fst (fetcher srv fuel user w) = Diverge).
Proof.
  assert (forall (srv : server) (user : string) (pgs : list (list dict))
          (last : list dict) (fuel : nat) (w : world),
      full_pages srv (get_url user) pgs ->
      serves srv (get_url user) (Z.of_nat (length pgs) + 1) last ->
      (length last < 30)%nat ->
      (length pgs < fuel)%nat ->
      fetcher srv fuel user w =
      (Ok (Some (map data_of (concat pgs ++ last))),
       log (requests (get_url user) 1 (S (length pgs))) [] w)) as General.
  { intros srv user pgs last fuel w Hfull (resp & Hs & Hp) Hlast Hfuel.
    apply (fetcher_breaks srv user pgs); [done|done|].
    rewrite (turn_page srv _ _ _ _ resp last Hs Hp).
    apply Nat.ltb_lt in Hlast. rewrite Hlast.
    rewrite log_log, requests_snoc, map_app.
    replace (1 + Z.of_nat (length pgs)) with (Z.of_nat (length pgs) + 1) by lia.
    reflexivity. }
  split; [exact General|]. split; [|split].
  - intros url first n. split; [apply page_number_requests|].
    unfold requests. apply Forall_map, Forall_forall. reflexivity.
  - intros srv user first fuel w Hlen H1 H2 Hfuel.
    eexists _, _. split.
    + apply (General srv user [first] []); try done.
      * apply full_pages_one; [done|lia].
      * simpl. lia.
    + split.
      * rewrite length_map. simpl. rewrite !app_nil_r. exact Hlen.
      * simpl. rewrite map_app. reflexivity.
  - intros srv user page fuel w Hall.
    assert (full_pages srv (get_url user) (page <$> seq 0 fuel)) as Hfull.
    { intros i items Hi. rewrite list_lookup_fmap in Hi.
      destruct (seq 0 fuel !! i) as [j|] eqn:Hj; [|discriminate Hi].
      apply lookup_seq in Hj as [-> _]. injection Hi as <-. apply Hall. }
    pose proof (pages_after_full srv user _ 0 w Hfull) as H.
    rewrite length_fmap, length_seq, Nat.add_0_r in H.
    unfold fetcher, try_except. rewrite H. reflexivity.
Qed.

(** ** The record of a repository *)

(** C2.  The record built for a repository object has exactly the six
    fields name, description, stars, language, created_at, updated_at;
    stars is the value of stargazers_count, every other field the value
    of the field of the same name, and a field the object lacks reads as
    null.  Every object of a decoded page is turned into this record. *)
Theorem summary_fields (repo : dict) (w : world) :
  summary (JObj repo) w = (Ok (data_of repo), w)
  /\ (exists data, data_of repo = JObj data /\ dict_keys data = record_fields)
  /\ field "stars" (data_of repo) = dict_get "stargazers_count" repo
  /\ (forall k,
         In k ["name"; "description"; "language"; "created_at"; "updated_at"] ->
         field k (data_of repo) = dict_get k repo)
  /\ (forall k, ~ In k (dict_keys repo) -> dict_get k repo = JNull)
  /\ (forall (items : list dict) (all_items : list json),
         for_repos (map JObj items) all_items w
         = (Ok (all_items ++ map data_of items), w)).
Proof.
  split; [reflexivity|]. split; [eexists; split; reflexivity|].
  split; [reflexivity|]. split; [|split].
  - intros k Hk. simpl in Hk.
    destruct Hk as [<-|[<-|[<-|[<-|[<-|[]]]]]]; reflexivity.
  - intros k. induction repo as [|[k' v] r IH]; intros Hk; [reflexivity|].
    simpl in *. destruct (String.eqb_spec k k') as [->|Hne].
    + exfalso. apply Hk. by left.
    + apply IH. intros Hin. apply Hk. by right.
  - intros items all_items. apply for_repos_objects.
Qed.

(** ** Rate limiting without a reset time *)

Lemma rate_limited_no_reset (resp : response) (w : world) :
  headers_get "X-RateLimit-Reset" (headers resp) = None
  \/ headers_get "X-RateLimit-Reset" (headers resp) = Some EmptyString ->
  rate_limited resp w =
  (Ok (Return None),
   log [] [Print "Rate limit exceeded. No reset time provided."] w).
Proof.
  intros Hh. unfold rate_limited.
  destruct Hh as [-> | ->]; unfold mbind, M_bind; by rewrite print_log.
Qed.

(** C10.  A response with status 403 whose X-RateLimit-Reset header is
    missing or empty makes [fetcher] return [None]; the request is not
    sent again (403 is not a status the adapter retries), and the line
    printed says that no reset time was provided. *)
Theorem rate_limit_without_reset
    (srv : server) (user : string) (pgs : list (list dict))
    (resp : response) (fuel : nat) (w : world) :
  full_pages srv (get_url user) pgs ->
  srv (request_for (get_url user) (Z.of_nat (length pgs) + 1)) = Respond resp ->
  status_code resp = 403 ->
  headers_get "X-RateLimit-Reset" (headers resp) = None
  \/ headers_get "X-RateLimit-Reset" (headers resp) = Some EmptyString ->
  (length pgs < fuel)%nat ->
  fetcher srv fuel user w =
  (Ok None,
   log (requests (get_url user) 1 (S (length pgs)))
       [Print "Rate limit exceeded. No reset time provided."] w)
  /\ ~ In (status_code resp) (status_forcelist retry_strategy).
Proof.
  intros Hfull Hs H403 Hh Hfuel. split.
  - apply (fetcher_returns srv user pgs); [done|done|].
    rewrite (turn_403 srv _ _ _ _ resp Hs H403).
    rewrite (rate_limited_no_reset _ _ Hh), !log_log, requests_snoc.
    replace (1 + Z.of_nat (length pgs)) with (Z.of_nat (length pgs) + 1) by lia.
    reflexivity.
  - rewrite H403. simpl. intros [H|[H|[H|[H|[H|[]]]]]]; discriminate H.
Qed.

(** ** Dates *)

Section Dates.

Import DateTime.

Lemma days_before_year_cycles n400 n100 n4 n1 :
  0 <= n100 <= 3 -> 0 <= n4 <= 24 -> 0 <= n1 <= 3 ->
  days_before_year (n400 * 400 + 1 + n100 * 100 + n4 * 4 + n1)
  = n400 * DI400Y + n100 * DI100Y + n4 * DI4Y + n1 * 365.
Proof.
  intros H100 H4 H1. unfold days_before_year, DI400Y, DI100Y, DI4Y.
  Z.div_mod_to_equations; lia.
Qed.

Lemma is_leap_cycles n400 n100 n4 n1 :
  0 <= n100 <= 3 -> 0 <= n4 <= 24 -> 0 <= n1 <= 3 ->
  is_leap (n400 * 400 + 1 + n100 * 100 + n4 * 4 + n1)
  = (n1 =? 3) && (negb (n4 =? 24) || (n100 =? 3)).
Proof.
  intros H100 H4 H1. unfold is_leap.
  destruct (Z.eqb_spec n1 3), (Z.eqb_spec n4 24), (Z.eqb_spec n100 3);
  repeat match goal with |- context [Z.eqb ?a ?b] => destruct (Z.eqb_spec a b) end; simpl; try reflexivity; exfalso; Z.div_mod_to_equations; lia.
Qed.

Lemma month_day_table :
  forallb (fun i => month_day_ok true (Z.of_nat i) && month_day_ok false (Z.of_nat i))
    (seq 0 365) = true.
Proof. vm_compute. reflexivity. Qed.

Lemma month_day_spec leap n :
  0 <= n < 365 ->
  let '(m, d) := month_day leap n in
  1 <= m <= 12 /\ 1 <= d <= dim leap m /\ dbm leap m + d = n + 1.
Proof.
  intros Hn. pose proof month_day_table as H.
  rewrite forallb_forall in H.
  specialize (H (Z.to_nat n)). rewrite Z2Nat.id in H by lia.
  assert (In (Z.to_nat n) (seq 0 365)) as Hin by (apply in_seq; lia).
  apply H in Hin. apply andb_prop in Hin as [Ht Hf].
  assert (month_day_ok leap n = true) as Hok by (destruct leap; assumption).
  unfold month_day_ok in Hok. destruct (month_day leap n) as [m d].
  repeat (apply andb_prop in Hok as [Hok ?]). lia.
Qed.

Lemma ord2ymd_spec n :
  1 <= n ->
  let '(y, m, d) := ord2ymd n in
  1 <= y /\ 1 <= m <= 12 /\ 1 <= d <= days_in_month y m /\ ymd2ord y m d = n.
Proof.
  intros Hn. unfold ord2ymd. cbv zeta.
  set (n0 := n - 1).
  set (n400 := n0 / DI400Y). set (r400 := n0 mod DI400Y).
  set (n100 := r400 / DI100Y). set (r100 := r400 mod DI100Y).
  set (n4 := r100 / DI4Y). set (r4 := r100 mod DI4Y).
  set (n1 := r4 / 365). set (r1 := r4 mod 365).
  assert (n0 = n400 * DI400Y + r400 /\ 0 <= r400 < DI400Y) as [E400 B400].
  { unfold n400, r400, DI400Y. split; [|apply Z.mod_pos_bound; lia].
    rewrite Z.mul_comm. apply Z.div_mod. lia. }
  assert (r400 = n100 * DI100Y + r100 /\ 0 <= r100 < DI100Y) as [E100 B100].
  { unfold n100, r100, DI100Y. split; [|apply Z.mod_pos_bound; lia].
    rewrite Z.mul_comm. apply Z.div_mod. lia. }
  assert (r100 = n4 * DI4Y + r4 /\ 0 <= r4 < DI4Y) as [E4 B4].
  { unfold n4, r4, DI4Y. split; [|apply Z.mod_pos_bound; lia].
    rewrite Z.mul_comm. apply Z.div_mod. lia. }
  assert (r4 = n1 * 365 + r1 /\ 0 <= r1 < 365) as [E1 B1].
  { unfold n1, r1. split; [|apply Z.mod_pos_bound; lia].
    rewrite Z.mul_comm. apply Z.div_mod. lia. }
  assert (0 <= n0 /\ n = n0 + 1) as [Hn0 En] by (unfold n0; lia).
  clearbody n400 r400 n100 r100 n4 r4 n1 r1 n0.
  unfold DI400Y, DI100Y, DI4Y in *.
  assert (0 <= n400 /\ 0 <= n100 <= 4 /\ 0 <= n4 <= 24 /\ 0 <= n1 <= 4) as (P400 & P100 & P4 & P1) by lia.
  destruct (Z.eqb_spec n1 4) as [N1|N1]; [|destruct (Z.eqb_spec n100 4) as [N100|N100]]; simpl orb; cbv iota.
  - (* last day of a leap year *)
    replace (n400 * 400 + 1 + n100 * 100 + n4 * 4 + n1 - 1)
      with (n400 * 400 + 1 + n100 * 100 + n4 * 4 + 3) by lia.
    assert (n100 <= 3 /\ n4 <= 23) as [??] by lia.
    unfold ymd2ord, days_in_month, days_before_month.
    rewrite is_leap_cycles, days_before_year_cycles by lia.
    replace (n4 =? 24) with false by (symmetry; apply Z.eqb_neq; lia).
    simpl. unfold DI400Y, DI100Y, DI4Y.
    change (at_index DAYS_IN_MONTH 12) with 31.
    change (at_index DAYS_BEFORE_MONTH 12) with 334. lia.
  - replace (n400 * 400 + 1 + n100 * 100 + n4 * 4 + n1 - 1)
      with ((n400 + 1) * 400) by lia.
    unfold ymd2ord, days_in_month, days_before_month.
    replace (is_leap ((n400 + 1) * 400)) with true.
    2:{ unfold is_leap.
        replace ((n400 + 1) * 400 mod 4) with 0 by (Z.div_mod_to_equations; lia).
        replace ((n400 + 1) * 400 mod 400) with 0 by (Z.div_mod_to_equations; lia).
        simpl. by rewrite orb_true_r. }
    replace ((n400 + 1) * 400) with (n400 * 400 + 1 + 3 * 100 + 24 * 4 + 3) by lia.
    rewrite days_before_year_cycles by lia.
    simpl. unfold DI400Y, DI100Y, DI4Y.
    change (at_index DAYS_IN_MONTH 12) with 31.
    change (at_index DAYS_BEFORE_MONTH 12) with 334. lia.
  - pose proof (month_day_spec ((n1 =? 3) && (negb (n4 =? 24) || (n100 =? 3))) r1 B1) as Hmd.
    unfold month_day in Hmd. cbv zeta in Hmd.
    set (y := n400 * 400 + 1 + n100 * 100 + n4 * 4 + n1).
    assert (is_leap y = (n1 =? 3) && (negb (n4 =? 24) || (n100 =? 3))) as Hleap
      by (apply is_leap_cycles; lia).
    assert (days_before_year y = n400 * 146097 + n100 * 36524 + n4 * 1461 + n1 * 365) as Hdby
      by (apply days_before_year_cycles; lia).
    assert (1 <= y) by (unfold y; lia).
    clearbody y. rewrite <- Hleap in *.
    match goal with
    | |- context [if ?b then _ else _] => destruct b
    end;
    (destruct Hmd as (Hm & Hd & Hsum); unfold ymd2ord, days_in_month, days_before_month;
     unfold dim, dbm in *; rewrite Hdby; split; [lia|split; [lia|split; [lia|lia]]]).
Qed.

Lemma forall_range (P : Z -> bool) (hi : Z) :
  forallb (fun i => P (Z.of_nat i)) (seq 0 (Z.to_nat hi)) = true ->
  forall n, 0 <= n < hi -> P n = true.
Proof.
  intros H n Hn. rewrite forallb_forall in H.
  specialize (H (Z.to_nat n)). rewrite Z2Nat.id in H by lia.
  apply H, in_seq. lia.
Qed.

Lemma year_bound y m d n :
  1 <= y -> 1 <= m <= 12 -> 1 <= d -> ymd2ord y m d = n -> n <= MAXORDINAL -> y <= 9999.
Proof.
  intros Hy Hm Hd E Hn. unfold ymd2ord, days_before_year, days_before_month, MAXORDINAL in *.
  assert (0 <= at_index DAYS_BEFORE_MONTH m) as Hb.
  { assert (m = 1 \/ m = 2 \/ m = 3 \/ m = 4 \/ m = 5 \/ m = 6 \/ m = 7 \/ m = 8 \/ m = 9 \/ m = 10 \/ m = 11 \/ m = 12) as Hc by lia.
    destruct Hc as [->|[->|[->|[->|[->|[->|[->|[->|[->|[->|[->| ->]]]]]]]]]]]; vm_compute; discriminate. }
  assert (0 <= (if (2 <? m) && is_leap y then 1 else 0)) by (destruct ((2 <? m) && is_leap y); lia).
  Z.div_mod_to_equations; lia.
Qed.

Lemma combine_spec n h m s :
  1 <= n <= MAXORDINAL -> 0 <= h < 24 -> 0 <= m < 60 -> 0 <= s < 60 ->
  valid (combine n h m s) /\ toordinal (combine n h m s) = n
  /\ hour (combine n h m s) = h /\ minute (combine n h m s) = m
  /\ second (combine n h m s) = s.
Proof.
  intros Hn Hh Hm Hs. unfold combine, valid, toordinal.
  pose proof (ord2ymd_spec n (proj1 Hn)) as H.
  destruct (ord2ymd n) as [[y mo] d]. simpl.
  destruct H as (Hy & Hmo & Hd & E).
  pose proof (year_bound y mo d n Hy Hmo (proj1 Hd) E (proj2 Hn)).
  repeat split; lia.
Qed.

Lemma convert_reset_spec ts :
  -62135596800 <= ts <= 253402280999 ->
  exists ist,
    valid ist /\ timestamp ist = ts + (5 * 3600 + 30 * 60)
    /\ convert_reset_to_ist ts = inr (reset_text ist).
Proof.
  intros Hts. unfold convert_reset_to_ist, fromtimestamp_utc.
  replace ((ts <? GMTIME_MIN) || (GMTIME_MAX <? ts)) with false
    by (symmetry; apply orb_false_iff; unfold GMTIME_MIN, GMTIME_MAX; split; lia).
  set (n := ts / 86400 + EPOCH). set (r := ts mod 86400).
  assert (ts = 86400 * (ts / 86400) + r /\ 0 <= r < 86400) as [Ets Br].
  { unfold r. split; [apply Z.div_mod; lia|apply Z.mod_pos_bound; lia]. }
  assert (1 <= n <= MAXORDINAL) as Hn.
  { unfold n, EPOCH, MAXORDINAL. Z.div_mod_to_equations. lia. }
  replace ((1 <=? n) && (n <=? MAXORDINAL)) with true
    by (symmetry; apply andb_true_iff; split; lia).
  destruct (combine_spec n (r / 3600) (r mod 3600 / 60) (r mod 60))
    as (Hv & Ho & Hh & Hm & Hs); try (Z.div_mod_to_equations; lia).
  unfold add. rewrite Ho, Hh, Hm, Hs.
  unfold td_add, mk_timedelta. cbn [td_days td_seconds].
  set (d' := n + (r / 3600 * 3600 + r mod 3600 / 60 * 60 + r mod 60) / 86400 +
         (0 + (5 * 3600 + 30 * 60 + 0) / 86400) +
         (0 * 3600 + 0 * 60 +
          ((r / 3600 * 3600 + r mod 3600 / 60 * 60 + r mod 60) mod 86400 +
           (5 * 3600 + 30 * 60 + 0) mod 86400)) / 86400).
  set (s' := (0 * 3600 + 0 * 60 +
       ((r / 3600 * 3600 + r mod 3600 / 60 * 60 + r mod 60) mod 86400 +
        (5 * 3600 + 30 * 60 + 0) mod 86400)) mod 86400).
  assert (r / 3600 * 3600 + r mod 3600 / 60 * 60 + r mod 60 = r) as Er
    by (Z.div_mod_to_equations; lia).
  assert (d' = n + (r + 19800) / 86400 /\ s' = (r + 19800) mod 86400) as [Ed Es].
  { unfold d', s'. rewrite Er.
    replace (r / 86400) with 0 by (Z.div_mod_to_equations; lia).
    replace (r mod 86400) with r by (Z.div_mod_to_equations; lia).
    split.
    - change ((5 * 3600 + 30 * 60 + 0) / 86400) with 0.
      change ((5 * 3600 + 30 * 60 + 0) mod 86400) with 19800.
      f_equal; lia.
    - change ((5 * 3600 + 30 * 60 + 0) mod 86400) with 19800. f_equal. }
  clearbody d' s'. subst d' s'.
  assert (1 <= n + (r + 19800) / 86400 <= MAXORDINAL) as Hd'.
  { unfold n, EPOCH, MAXORDINAL in *. Z.div_mod_to_equations. lia. }
  replace ((0 <? n + (r + 19800) / 86400) && (n + (r + 19800) / 86400 <=? MAXORDINAL))
    with true by (symmetry; apply andb_true_iff; split; lia).
  set (q := (r + 19800) mod 86400).
  assert (0 <= q < 86400) as Bq by (apply Z.mod_pos_bound; lia).
  destruct (combine_spec (n + (r + 19800) / 86400) (q / 3600) (q mod 3600 / 60) (q mod 3600 mod 60))
    as (Hv' & Ho' & Hh' & Hm' & Hs'); try (Z.div_mod_to_equations; lia).
  eexists. split; [exact Hv'|]. split; [|reflexivity].
  unfold timestamp. rewrite Ho', Hh', Hm', Hs'.
  unfold q, n, EPOCH. Z.div_mod_to_equations. lia.
Qed.

Lemma length_append (a b : string) :
  String.length (a +:+ b) = (String.length a + String.length b)%nat.
Proof. induction a as [|c a IH]; [reflexivity|]. cbn. by rewrite <- IH. Qed.

Lemma pad2_digits n : 0 <= n < 100 -> pad 2 n = two_digits n.
Proof.
  intros Hn. apply String.eqb_eq.
  apply (forall_range (fun n => String.eqb (pad 2 n) (two_digits n)) 100); [|lia].
  vm_compute. reflexivity.
Qed.

Lemma decimal_four_digits n : 1000 <= n < 10000 -> PyStr.decimal n = four_digits n.
Proof.
  intros Hn.
  assert ((n <? 1000) || String.eqb (PyStr.decimal n) (four_digits n) = true) as H.
  { apply (forall_range
             (fun n => (n <? 1000) || String.eqb (PyStr.decimal n) (four_digits n))
             10000); [|lia].
    vm_compute. reflexivity. }
  apply orb_true_iff in H as [H|H]; [lia|]. by apply String.eqb_eq.
Qed.

Lemma hour12_clock h : 0 <= h < 24 -> hour12 h = clock_hour h.
Proof.
  intros Hh. apply Z.eqb_eq.
  apply (forall_range (fun h => hour12 h =? clock_hour h) 24); [|lia].
  vm_compute. reflexivity.
Qed.

Lemma clock_hour_range h : 0 <= h < 24 -> 1 <= clock_hour h <= 12.
Proof.
  intros Hh. unfold clock_hour.
  destruct (Z.eqb_spec h 0); [lia|]. destruct (Z.leb_spec h 12); lia.
Qed.

Lemma am_pm_meridiem h : am_pm h = meridiem h.
Proof.
  unfold am_pm, meridiem.
  destruct (Z.ltb_spec h 12), (Z.leb_spec h 11); try reflexivity; lia.
Qed.

Lemma month_facts y m :
  1 <= m <= 12 ->
  month_abbr m = month_name m /\ String.length (month_name m) = 3%nat
  /\ days_in_month y m <= 31 /\ 0 <= at_index DAYS_BEFORE_MONTH m <= 334.
Proof.
  intros Hm.
  assert (m = 1 \/ m = 2 \/ m = 3 \/ m = 4 \/ m = 5 \/ m = 6 \/ m = 7
          \/ m = 8 \/ m = 9 \/ m = 10 \/ m = 11 \/ m = 12) as Hc by lia.
  unfold days_in_month.
  destruct Hc as [->|[->|[->|[->|[->|[->|[->|[->|[->|[->|[->| ->]]]]]]]]]]];
    (split; [reflexivity|]); (split; [reflexivity|]);
    (split; [|vm_compute; split; discriminate]);
    try (vm_compute; discriminate).
  destruct (is_leap y); vm_compute; discriminate.
Qed.

(** In a common year, a month ends on day 365 of the year at the
    latest. *)
Lemma month_end m :
  1 <= m <= 12 -> at_index DAYS_BEFORE_MONTH m + at_index DAYS_IN_MONTH m <= 365.
Proof.
  intros Hm.
  assert (m = 1 \/ m = 2 \/ m = 3 \/ m = 4 \/ m = 5 \/ m = 6 \/ m = 7 \/ m = 8
          \/ m = 9 \/ m = 10 \/ m = 11 \/ m = 12) as Hcase by lia.
  repeat (destruct Hcase as [->|Hcase]; [by vm_compute|]).
  subst m. by vm_compute.
Qed.

(** A date and time not before the year 1000 has a year of four
    digits. *)
Lemma year_four_digits dt :
  valid dt -> -30610224000 <= timestamp dt -> 1000 <= year dt.
Proof.
  intros (Hy & Hm & Hd & Hh & Hmi & Hs) Ht.
  destruct (Z.lt_ge_cases (year dt) 1000) as [Hlt|]; [exfalso|done].
  unfold timestamp, toordinal, ymd2ord, days_before_year, days_before_month,
    EPOCH in Ht.
  destruct (Z.eq_dec (year dt) 999) as [E|Hne].
  - pose proof (month_end (month dt) Hm) as Hend.
    unfold days_in_month in Hd. rewrite E in *.
    change (is_leap 999) with false in *.
    rewrite andb_false_r in Ht, Hd.
    change ((999 - 1) * 365 + (999 - 1) / 4 - (999 - 1) / 100 + (999 - 1) / 400)
      with 364512 in Ht.
    lia.
  - destruct (month_facts (year dt) (month dt) Hm) as (_ & _ & Dm & Db).
    assert ((if (2 <? month dt) && is_leap (year dt) then 1 else 0) <= 1)
      by (destruct ((2 <? month dt) && is_leap (year dt)); lia).
    Z.div_mod_to_equations. lia.
Qed.

(** The text [strftime] gives is the layout of the specification. *)
Lemma reset_text_layout dt :
  valid dt -> 1000 <= year dt -> reset_text dt = ist_layout dt.
Proof.
  intros (Hy & Hm & Hd & Hh & Hmi & Hs) Hy'.
  destruct (month_facts (year dt) (month dt) Hm) as (Em & _ & Dm & _).
  unfold reset_text, ist_layout.
  rewrite !pad2_digits, decimal_four_digits, Em, am_pm_meridiem,
    hour12_clock by (try lia; rewrite hour12_clock by lia;
                     pose proof (clock_hour_range (hour dt) Hh); lia).
  reflexivity.
Qed.

Lemma two_digits_length n : String.length (two_digits n) = 2%nat.
Proof. reflexivity. Qed.

Lemma ist_layout_length dt :
  1 <= month dt <= 12 -> String.length (ist_layout dt) = 27%nat.
Proof.
  intros Hm.
  destruct (month_facts (year dt) (month dt) Hm) as (_ & Lm & _).
  assert (String.length (meridiem (hour dt)) = 2%nat) as La
    by (unfold meridiem; destruct (hour dt <=? 11); reflexivity).
  unfold ist_layout, four_digits. rewrite !length_append.
  rewrite !two_digits_length, Lm, La. reflexivity.
Qed.

End Dates.

(** ** Rate limiting with a reset time *)

Lemma rate_limited_reset (resp : response) (w : world) (v text : string) (ts : Z) :
  headers_get "X-RateLimit-Reset" (headers resp) = Some v ->
  v <> EmptyString ->
  PyStr.int v = Some ts ->
  convert_reset_to_ist ts = inr text ->
  rate_limited resp w =
  (Ok (Return None),
   log [] [Print ("Rate limit exceeded. It will reset at: " +:+ text)] w).
Proof.
  intros Hh Hv Hint Hc. unfold rate_limited. rewrite Hh.
  destruct v as [|c s]; [done|]. rewrite Hint.
  unfold mbind, M_bind. simpl. rewrite Hc. simpl.
  unfold log. simpl. by rewrite app_nil_r.
Qed.

(** C3.  A response with status 403 whose X-RateLimit-Reset header is
    the text of an integer [ts], as [int] reads it, whose time 5 hours
    30 minutes later lies in the years 1000 to 9999 (from -30610243800
    to 253402280999): [fetcher] sends the request once (403 is not a status
    the adapter retries), prints one line and returns [None].  The line
    gives the reset time: the date and time 5 hours 30 minutes after the
    UTC time of [ts], laid out as two digits for the day, the English
    abbreviation of the month, four digits for the year, the time on the
    12-hour clock with two digits each, AM or PM, and the letters IST,
    27 characters in all. *)
Theorem rate_limit_reset
    (srv : server) (user : string) (pgs : list (list dict))
    (resp : response) (v : string) (ts : Z) (fuel : nat) (w : world) :
  full_pages srv (get_url user) pgs ->
  srv (request_for (get_url user) (Z.of_nat (length pgs) + 1)) = Respond resp ->
  status_code resp = 403 ->
  headers_get "X-RateLimit-Reset" (headers resp) = Some v ->
  PyStr.int v = Some ts ->
  -30610243800 <= ts <= 253402280999 ->
  (length pgs < fuel)%nat ->
  (exists ist,
      DateTime.valid ist
      /\ DateTime.timestamp ist = ts + (5 * 3600 + 30 * 60)
      /\ convert_reset_to_ist ts = inr (ist_layout ist)
      /\ String.length (ist_layout ist) = 27%nat
      /\ fetcher srv fuel user w =
         (Ok None,
          log (requests (get_url user) 1 (S (length pgs)))
            [Print ("Rate limit exceeded. It will reset at: " +:+ ist_layout ist)] w))
  /\ ~ In (status_code resp) (status_forcelist retry_strategy).
Proof.
  intros Hfull Hs H403 Hh Hint Hts Hfuel. split.
  - destruct (convert_reset_spec ts) as (ist & Hval & Hist & Hc); [lia|].
    assert (1000 <= DateTime.year ist) as Hy
      by (apply year_four_digits; [exact Hval|lia]).
    rewrite (reset_text_layout ist Hval Hy) in Hc.
    exists ist. split; [exact Hval|]. split; [exact Hist|]. split; [exact Hc|].
    split; [apply ist_layout_length; apply Hval|].
    assert (v <> EmptyString) as Hv by (intros ->; discriminate Hint).
    pose proof (turn_403 srv (get_url user) (Z.of_nat (length pgs) + 1)
                  (map data_of (concat pgs))
                  (log (requests (get_url user) 1 (length pgs)) [] w)
                  resp Hs H403) as Ht.
    rewrite (rate_limited_reset resp _ v _ ts Hh Hv Hint Hc) in Ht.
    rewrite (fetcher_returns srv user pgs fuel w _ _ Hfull Hfuel Ht).
    by rewrite log_line_requests_snoc.
  - rewrite H403. simpl. intros [H|[H|[H|[H|[H|[]]]]]]; discriminate H.
Qed.

(** ** Reading back what [json.dumps] wrote *)

Section JsonRoundTrip.

Import Json.

Lemma sapp_cons c s r : String c s +:+ r = String c (s +:+ r).
Proof. reflexivity. Qed.
Lemma sapp_nil_l r : EmptyString +:+ r = r.
Proof. reflexivity. Qed.
Lemma sapp_assoc a b c : (a +:+ b) +:+ c = a +:+ (b +:+ c).
Proof. induction a as [|x a IH]; [reflexivity|]. rewrite !sapp_cons. by f_equal. Qed.
Create Rewrite HintDb sapp.

#[local] Hint Rewrite sapp_assoc sapp_cons sapp_nil_l : sapp.

Lemma sapp_nil_r a : a +:+ EmptyString = a.
Proof. induction a as [|x a IH]; [reflexivity|]. rewrite sapp_cons. by f_equal. Qed.

Lemma json_induction (P : json -> Prop) :
  P JNull -> (forall b, P (JBool b)) -> (forall z, P (JInt z)) ->
  (forall f, P (JFloat f)) -> (forall s, P (JStr s)) ->
  (forall l, Forall P l -> P (JArr l)) ->
  (forall d, Forall (fun kv => P (snd kv)) d -> P (JObj d)) ->
  forall v, P v.
Proof.
  intros Hn Hb Hi Hf Hs Ha Ho. fix IH 1. intros [|b|z|f|s|l|d].
  - exact Hn.
  - apply Hb.
  - apply Hi.
  - apply Hf.
  - apply Hs.
  - apply Ha. induction l as [|x l IHl]; constructor; [apply IH|exact IHl].
  - apply Ho. induction d as [|[k x] d IHd]; constructor; [apply IH|exact IHd].
Qed.

Lemma scanstring_escape_char c tail :
  scanstring (escape_char c +:+ tail) = cons_char c (scanstring tail).
Proof. destruct c as [[] [] [] [] [] [] [] []]; reflexivity. Qed.

Lemma scanstring_escape s rest :
  scanstring (escape s +:+ String dquote rest) = Some (s, rest).
Proof.
  induction s as [|c s IH]; [reflexivity|].
  simpl escape. rewrite sapp_assoc, scanstring_escape_char, IH. reflexivity.
Qed.

Lemma digits_head d :
  d <> Decimal.Nil ->
  exists c t, NilEmpty.string_of_uint d = String c t /\ PyStr.isdigit c = true
              /\ (Ascii.eqb c "0" = true -> exists d', d = Decimal.D0 d')
              /\ Ascii.eqb c "-" = false.
Proof.
  destruct d; intros H; [done|..]; simpl; eexists _, _;
    (split; [reflexivity|split; [reflexivity|split; [|reflexivity]]]);
    try discriminate; eauto.
Qed.

Lemma span_digits_uint d rest :
  starts_with_digit rest = false ->
  span_digits (NilEmpty.string_of_uint d +:+ rest) = (NilEmpty.string_of_uint d, rest).
Proof.
  intros Hr. induction d; cbn [NilEmpty.string_of_uint];
    try (rewrite sapp_cons; cbn; by rewrite IHd).
  destruct rest as [|c r]; [reflexivity|]. simpl in *. by rewrite Hr.
Qed.

Lemma to_uint_no_leading_zero p d : Pos.to_uint p <> Decimal.D0 d.
Proof.
  intros H. pose proof (DecimalPos.Unsigned.to_of (Pos.to_uint p)) as E.
  rewrite DecimalPos.Unsigned.of_to in E. simpl in E.
  rewrite H, unorm_D0 in E. unfold Decimal.unorm in E.
  destruct (Decimal.nzhead d) eqn:Hn; try discriminate E.
  - injection E as E'. subst d. by apply (DecimalPos.Unsigned.to_uint_nonzero p).
  - apply (nzhead_nonzero d d). congruence.
Qed.

Lemma of_digits_to_uint p :
  PyStr.of_digits (NilEmpty.string_of_uint (Pos.to_uint p)) = Some (Zpos p).
Proof.
  unfold PyStr.of_digits. rewrite NilEmpty.usu. unfold Z.of_uint.
  by rewrite DecimalPos.Unsigned.of_to.
Qed.

Lemma ends_value_cases rest :
  ends_value rest = true ->
  rest = EmptyString \/ (exists r, rest = String "," r) \/ (exists r, rest = String newline r).
Proof.
  destruct rest as [|c r]; [by left|]. simpl. intros H.
  apply orb_prop in H as [H|H]; apply Ascii.eqb_eq in H; subst; eauto.
Qed.

Lemma ends_value_number rest :
  ends_value rest = true -> starts_with_digit rest = false /\ frac_or_exp rest = false.
Proof.
  intros H. destruct (ends_value_cases rest H) as [->|[[r ->]|[r ->]]]; by split.
Qed.

Lemma match_digits_pos p rest :
  ends_value rest = true ->
  match_digits (NilEmpty.string_of_uint (Pos.to_uint p) +:+ rest)
  = Some (NilEmpty.string_of_uint (Pos.to_uint p), rest).
Proof.
  intros Hr. destruct (ends_value_number rest Hr) as [Hd _].
  destruct (digits_head (Pos.to_uint p) (DecimalPos.Unsigned.to_uint_nonnil p))
    as (c & t & E & Hc & Hz & _).
  pose proof (span_digits_uint (Pos.to_uint p) rest Hd) as Hs.
  rewrite E in *. rewrite sapp_cons in *. unfold match_digits.
  destruct (Ascii.eqb c "0") eqn:H0.
  - destruct (Hz eq_refl) as [d' Hd']. by apply to_uint_no_leading_zero in Hd'.
  - by rewrite Hc, Hs.
Qed.

(** An integer that has a [repr] is read back from its numeral. *)
Lemma match_number_repr z rest :
  PyStr.repr_int z <> None ->
  ends_value rest = true ->
  match_number (PyStr.decimal z +:+ rest) = Some (JInt z, rest).
Proof.
  intros Hz Hr. destruct (ends_value_number rest Hr) as [_ Hf].
  assert ((PyStr.max_str_digits <? String.length (PyStr.decimal (Z.abs z)))%nat
          = false) as Hlen.
  { unfold PyStr.repr_int in Hz. by destruct (_ <? _)%nat. }
  unfold PyStr.decimal in *. destruct z as [|p|p]; simpl in *.
  - unfold match_number. simpl. by rewrite sapp_nil_l, Hf.
  - destruct (digits_head (Pos.to_uint p) (DecimalPos.Unsigned.to_uint_nonnil p))
      as (c & t & E & _ & _ & Hm).
    unfold match_number. pose proof (match_digits_pos p rest Hr) as Hd.
    rewrite E in *. rewrite sapp_cons in *. rewrite Hm, Hd, Hf, Hlen.
    rewrite <- E. by rewrite of_digits_to_uint.
  - unfold match_number. rewrite sapp_cons. simpl.
    rewrite (match_digits_pos p rest Hr), Hf, Hlen, of_digits_to_uint.
    reflexivity.
Qed.

Lemma scan_once_number fuel c t :
  PyStr.isdigit c = true \/ Ascii.eqb c "-" = true ->
  scan_once (S fuel) (String c t)
  = match match_number (String c t) with
    | Some r => Some r
    | None => match_constant (String c t)
    end.
Proof.
  destruct c as [[] [] [] [] [] [] [] []]; intros [H|H]; try discriminate H; reflexivity.
Qed.

Lemma decimal_head z :
  exists c t, PyStr.decimal z = String c t
              /\ (PyStr.isdigit c = true \/ Ascii.eqb c "-" = true).
Proof.
  unfold PyStr.decimal. destruct z as [|p|p]; simpl.
  - eexists _, _. split; [reflexivity|by left].
  - destruct (digits_head (Pos.to_uint p) (DecimalPos.Unsigned.to_uint_nonnil p))
      as (c & t & E & Hc & _). exists c, t. split; [exact E|by left].
  - eexists _, _. split; [reflexivity|by right].
Qed.

Lemma scan_once_int fuel z rest :
  PyStr.repr_int z <> None ->
  ends_value rest = true ->
  scan_once (S fuel) (PyStr.decimal z +:+ rest) = Some (JInt z, rest).
Proof.
  intros Hz Hr. destruct (decimal_head z) as (c & t & E & Hc).
  pose proof (match_number_repr z rest Hz Hr) as Hm.
  rewrite E in *. rewrite sapp_cons in *. by rewrite scan_once_number, Hm.
Qed.

Lemma skip_ws_spaces n t : skip_ws (spaces n +:+ t) = skip_ws t.
Proof. induction n as [|n IH]; [reflexivity|]. exact IH. Qed.

Lemma skip_ws_space t : skip_ws (String " " t) = skip_ws t.
Proof. reflexivity. Qed.

Lemma skip_ws_newline_indent i l t : skip_ws (newline_indent i l +:+ t) = skip_ws t.
Proof. unfold newline_indent. rewrite sapp_cons. cbn. apply skip_ws_spaces. Qed.

Lemma ends_value_newline_indent i l t : ends_value (newline_indent i l +:+ t) = true.
Proof. reflexivity. Qed.

Lemma value_start_facts c :
  value_start c = true -> is_ws c = false /\ Ascii.eqb c "]" = false.
Proof.
  destruct c as [[] [] [] [] [] [] [] []]; intros H; try discriminate H; by split.
Qed.

Lemma text_start i l v :
  exists c t, text i l v = String c t /\ value_start c = true.
Proof.
  destruct v as [|[]|z|[]|s|[|x lst]|[|kv d]];
    try (eexists _, _; split; reflexivity).
  destruct (decimal_head z) as (c & t & E & Hc). exists c, t. split; [exact E|].
  unfold value_start. destruct Hc as [-> | ->]; by rewrite ?orb_true_r.
Qed.

Lemma skip_ws_value i l v t :
  skip_ws (text i l v +:+ t) = text i l v +:+ t.
Proof.
  destruct (text_start i l v) as (c & u & -> & Hc).
  apply value_start_facts in Hc as [Hw _]. rewrite sapp_cons. cbn. by rewrite Hw.
Qed.

Lemma concat_cons sep a b r :
  String.concat sep (a :: b :: r) = a +:+ sep +:+ String.concat sep (b :: r).
Proof. reflexivity. Qed.

Lemma concat_head sep a r : exists u, String.concat sep (a :: r) = a +:+ u.
Proof.
  destruct r as [|b r].
  - exists EmptyString. simpl. by rewrite sapp_nil_r.
  - eexists. apply concat_cons.
Qed.

Section Loops.

Variable scan : string -> option (json * string).

Lemma array_items_last n s v r r' :
  scan s = Some (v, r) -> skip_ws r = String "]" r' ->
  array_items scan (S n) s = Some ([v], r').
Proof. intros H1 H2. simpl. by rewrite H1, H2. Qed.

Lemma array_items_more n s v r r' vs r'' :
  scan s = Some (v, r) -> skip_ws r = String "," r' ->
  array_items scan n (skip_ws r') = Some (vs, r'') ->
  array_items scan (S n) s = Some (v :: vs, r'').
Proof. intros H1 H2 H3. simpl. by rewrite H1, H2, H3. Qed.

Lemma object_pairs_last n s key r r1 v r2 r3 :
  scanstring s = Some (key, r) -> skip_ws r = String ":" r1 ->
  scan (skip_ws r1) = Some (v, r2) -> skip_ws r2 = String "}" r3 ->
  object_pairs scan (S n) s = Some ([(key, v)], r3).
Proof. intros H1 H2 H3 H4. simpl. by rewrite H1, H2, H3, H4. Qed.

Lemma object_pairs_more n s key r r1 v r2 r3 r4 ps r5 :
  scanstring s = Some (key, r) -> skip_ws r = String ":" r1 ->
  scan (skip_ws r1) = Some (v, r2) -> skip_ws r2 = String "," r3 ->
  skip_ws r3 = String dquote r4 ->
  object_pairs scan n r4 = Some (ps, r5) ->
  object_pairs scan (S n) s = Some ((key, v) :: ps, r5).
Proof. intros H1 H2 H3 H4 H5 H6. simpl. by rewrite H1, H2, H3, H4, H5, H6. Qed.

Variables i level : nat.

Let sep : string := "," +:+ newline_indent i (S level).

Lemma array_items_encoded l : forall x n rest,
  Forall (scans scan i (S level)) (x :: l) ->
  (length l < n)%nat ->
  array_items scan n
    (String.concat sep (map (text i (S level)) (x :: l))
     +:+ newline_indent i level +:+ "]" +:+ rest)
  = Some (x :: l, rest).
Proof.
  induction l as [|y l IH]; intros x n rest Hall Hn;
    (destruct n as [|n]; [simpl in Hn; lia|]);
    inversion Hall as [|? ? Hx Hl]; subst.
  - eapply array_items_last; [by apply Hx|].
    by rewrite skip_ws_newline_indent.
  - change (map (text i (S level)) (x :: y :: l))
      with (text i (S level) x :: map (text i (S level)) (y :: l)).
    change (map (text i (S level)) (y :: l))
      with (text i (S level) y :: map (text i (S level)) l) at 1.
    rewrite concat_cons, !sapp_assoc.
    change (text i (S level) y :: map (text i (S level)) l)
      with (map (text i (S level)) (y :: l)).
    eapply array_items_more.
    + apply Hx. reflexivity.
    + reflexivity.
    + rewrite skip_ws_newline_indent.
      destruct (concat_head sep (text i (S level) y)
                  (map (text i (S level)) l)) as [u Hu].
      assert (forall t, skip_ws (String.concat sep (map (text i (S level)) (y :: l)) +:+ t)
              = String.concat sep (map (text i (S level)) (y :: l)) +:+ t) as Hskip.
      { intros t. cbn [map]. rewrite Hu, sapp_assoc. apply skip_ws_value. }
      rewrite Hskip. apply (IH y n rest Hl). simpl in Hn. lia.
Qed.


Lemma member_head kv : exists t, member i level kv = String dquote t.
Proof. eexists. reflexivity. Qed.

Lemma object_pairs_encoded d : forall kv n rest X,
  Forall (fun kv => scans scan i (S level) (snd kv)) (kv :: d) ->
  (length d < n)%nat ->
  String dquote X
  = String.concat sep (map (member i level) (kv :: d))
    +:+ newline_indent i level +:+ "}" +:+ rest ->
  object_pairs scan n X = Some (kv :: d, rest).
Proof.
  induction d as [|kv' d IH]; intros [k v] n rest X Hall Hn HX;
    (destruct n as [|n]; [simpl in Hn; lia|]);
    inversion Hall as [|? ? Hx Hl]; subst; simpl in Hx.
  - cbn [map String.concat] in HX. unfold member at 1 in HX.
    unfold encode_basestring_ascii in HX. cbn [fst snd] in HX.
    autorewrite with sapp in HX.
    injection HX as ->.
    eapply object_pairs_last.
    + apply scanstring_escape.
    + reflexivity.
    + rewrite skip_ws_space, skip_ws_value. apply Hx. reflexivity.
    + by rewrite skip_ws_newline_indent.
  - assert (exists t, String.concat sep (map (member i level) (kv' :: d)) = String dquote t)
      as [t Ht].
    { cbn [map]. destruct (concat_head sep (member i level kv') (map (member i level) d)) as [u ->].
      destruct (member_head kv') as [t' ->]. eexists. apply sapp_cons. }
    change (map (member i level) ((k, v) :: kv' :: d))
      with (member i level (k, v) :: member i level kv' :: map (member i level) d) in HX.
    rewrite concat_cons in HX.
    change (member i level kv' :: map (member i level) d) with (map (member i level) (kv' :: d)) in HX.
    pose proof Ht as Ht'. rewrite Ht in HX. unfold member at 1 in HX.
    unfold encode_basestring_ascii, sep in HX. cbn [fst snd] in HX.
    autorewrite with sapp in HX. injection HX as ->.
    eapply object_pairs_more.
    + apply scanstring_escape.
    + reflexivity.
    + rewrite skip_ws_space, skip_ws_value. apply Hx. reflexivity.
    + reflexivity.
    + rewrite skip_ws_newline_indent. reflexivity.
    + apply (IH kv' n rest _ Hl); [simpl in Hn; lia|].
      rewrite Ht'. by autorewrite with sapp.
Qed.

End Loops.

Lemma dict_set_fresh k v (d : dict) :
  ~ In k (map fst d) -> dict_set k v d = d ++ [(k, v)].
Proof.
  induction d as [|[k' v'] d IH]; intros Hk; [reflexivity|]. simpl in *.
  destruct (String.eqb_spec k k') as [->|Hne]; [exfalso; auto|].
  rewrite IH; auto.
Qed.

Lemma fold_dict_set (pairs : dict) : forall acc : dict,
  NoDup (map fst (acc ++ pairs)) ->
  fold_left (fun d kv => dict_set (fst kv) (snd kv) d) pairs acc = acc ++ pairs.
Proof.
  induction pairs as [|[k v] pairs IH]; intros acc Hnd; simpl.
  - by rewrite app_nil_r.
  - rewrite dict_set_fresh.
    + rewrite IH; rewrite <- app_assoc; [reflexivity|exact Hnd].
    + rewrite map_app in Hnd. simpl in Hnd.
      apply NoDup_app in Hnd as (_ & Hdisj & _). intros Hin.
      apply (Hdisj k); rewrite list_elem_of_In; [exact Hin|by left].
Qed.

Lemma dict_of_pairs_nodup (d : dict) : NoDup (map fst d) -> dict_of_pairs d = d.
Proof. intros H. unfold dict_of_pairs. by rewrite fold_dict_set. Qed.

Lemma well_formed_arr l : well_formed (JArr l) <-> Forall well_formed l.
Proof.
  induction l as [|x l IH]; simpl.
  - split; [constructor|done].
  - split.
    + intros [Hx Hl]. constructor; [done|by apply IH].
    + intros H. inversion H; subst. split; [done|by apply IH].
Qed.

Lemma well_formed_obj (d : dict) :
  well_formed (JObj d)
  <-> NoDup (map fst d) /\ Forall (fun kv => well_formed (snd kv)) d.
Proof.
  simpl. apply and_iff_compat_l.
  induction d as [|kv d IH].
  - split; [constructor|done].
  - split.
    + intros [Hx Hl]. constructor; [done|by apply IH].
    + intros H. inversion H; subst. split; [done|by apply IH].
Qed.

Lemma size_pos v : (1 <= size v)%nat.
Proof. destruct v; simpl; lia. Qed.

Lemma list_sum_In {A} (f : A -> nat) x l :
  In x l -> (f x <= list_sum (map f l))%nat.
Proof.
  induction l as [|y l IH]; intros Hin; [done|]. simpl.
  destruct Hin as [->|Hin]; [lia|]. specialize (IH Hin). lia.
Qed.

Lemma length_le_list_sum {A} (f : A -> nat) l :
  (forall x, 1 <= f x)%nat -> (length l <= list_sum (map f l))%nat.
Proof.
  intros Hf. induction l as [|y l IH]; simpl; [lia|]. specialize (Hf y). lia.
Qed.

Lemma scan_once_array fuel r c r' vs rest :
  skip_ws r = String c r' -> Ascii.eqb c "]" = false ->
  array_items (scan_once fuel) fuel (String c r') = Some (vs, rest) ->
  scan_once (S fuel) (String "[" r) = Some (JArr vs, rest).
Proof. intros H1 H2 H3. cbn [scan_once]. by rewrite H1, H2, H3. Qed.

Lemma scan_once_object fuel r r' ps rest :
  skip_ws r = String dquote r' ->
  object_pairs (scan_once fuel) fuel r' = Some (ps, rest) ->
  scan_once (S fuel) (String "{" r) = Some (JObj (dict_of_pairs ps), rest).
Proof. intros H1 H2. cbn [scan_once]. rewrite H1. cbn. by rewrite H2. Qed.

Lemma scan_once_encoded i : forall v,
  well_formed v ->
  forall level fuel, (size v <= fuel)%nat -> scans (scan_once fuel) i level v.
Proof.
  induction v as [|b|z|f|s|l IH|d IH] using json_induction;
    intros Hwf level fuel Hfuel rest Hrest;
    (destruct fuel as [|fuel]; [simpl in Hfuel; lia|]).
  - reflexivity.
  - by destruct b.
  - by apply scan_once_int.
  - by destruct f.
  - cbn [text]. unfold encode_basestring_ascii.
    autorewrite with sapp. cbn [scan_once]. cbn.
    by rewrite scanstring_escape.
  - destruct l as [|x l]; [reflexivity|].
    apply well_formed_arr in Hwf. simpl in Hfuel.
    assert (Forall (scans (scan_once fuel) i (S level)) (x :: l)) as Hall.
    { rewrite Forall_forall in *. intros y Hy. apply IH; [done|by apply Hwf|].
      pose proof (list_sum_In size y (x :: l) (proj1 (list_elem_of_In _ _) Hy)).
      simpl in *. lia. }
    pose proof (length_le_list_sum size (x :: l) size_pos) as Hlen.
    change (text i level (JArr (x :: l)))
      with ("[" +:+ newline_indent i (S level)
            +:+ String.concat ("," +:+ newline_indent i (S level))
                  (map (text i (S level)) (x :: l))
            +:+ newline_indent i level +:+ "]").
    destruct (concat_head ("," +:+ newline_indent i (S level))
                (text i (S level) x) (map (text i (S level)) l))
      as [u Hu].
    destruct (text_start i (S level) x) as (c & t & Hc & Hstart).
    apply value_start_facts in Hstart as [Hws Hrb].
    pose proof (array_items_encoded (scan_once fuel) i level l x fuel rest Hall) as Hitems.
    cbn [map] in *. rewrite Hu, Hc in *. autorewrite with sapp in *.
    eapply scan_once_array; [|exact Hrb|].
    + rewrite skip_ws_newline_indent. cbn. by rewrite Hws.
    + apply Hitems. simpl in *. lia.
  - destruct d as [|[k x] d]; [reflexivity|].
    apply well_formed_obj in Hwf as [Hnd Hwf]. simpl in Hfuel.
    assert (Forall (fun kv => scans (scan_once fuel) i (S level) (snd kv)) ((k, x) :: d)) as Hall.
    { rewrite Forall_forall in *. intros y Hy. apply IH; [done|by apply Hwf|].
      pose proof (list_sum_In (fun kv => size (snd kv)) y ((k, x) :: d)
                    (proj1 (list_elem_of_In _ _) Hy)).
      simpl in *. lia. }
    pose proof (length_le_list_sum (fun kv : string * json => size (snd kv)) ((k, x) :: d)
                  (fun kv => size_pos (snd kv))) as Hlen.
    change (text i level (JObj ((k, x) :: d)))
      with ("{" +:+ newline_indent i (S level)
            +:+ String.concat ("," +:+ newline_indent i (S level))
                  (map (member i level) ((k, x) :: d))
            +:+ newline_indent i level +:+ "}").
    assert (exists t, String.concat ("," +:+ newline_indent i (S level))
                        (map (member i level) ((k, x) :: d)) = String dquote t)
      as [t Ht].
    { cbn [map]. destruct (concat_head ("," +:+ newline_indent i (S level))
                             (member i level (k, x)) (map (member i level) d)) as [u ->].
      destruct (member_head i level (k, x)) as [t' ->]. eexists. apply sapp_cons. }
    pose proof (fun X => object_pairs_encoded (scan_once fuel) i level d (k, x) fuel rest X Hall)
      as Hpairs.
    rewrite Ht in *. autorewrite with sapp in *.
    replace (JObj ((k, x) :: d)) with (JObj (dict_of_pairs ((k, x) :: d)))
      by (by rewrite dict_of_pairs_nodup).
    eapply scan_once_object.
    + rewrite skip_ws_newline_indent. reflexivity.
    + apply Hpairs; [simpl in *; lia|reflexivity].
Qed.


Lemma length_concat sep ss :
  (list_sum (map String.length ss) <= String.length (String.concat sep ss))%nat.
Proof.
  induction ss as [|a ss IH]; [simpl; lia|].
  destruct ss as [|b ss]; [simpl; lia|].
  rewrite concat_cons, !length_append.
  assert (list_sum (map String.length (a :: b :: ss))
          = String.length a + list_sum (map String.length (b :: ss)))%nat
    as -> by reflexivity.
  lia.
Qed.

Lemma list_sum_le {A} (f g : A -> nat) l :
  Forall (fun x => f x <= g x)%nat l ->
  (list_sum (map f l) <= list_sum (map g l))%nat.
Proof. induction 1; simpl; lia. Qed.

Lemma size_le_length i : forall v level,
  (size v <= String.length (text i level v))%nat.
Proof.
  induction v as [|b|z|f|s|l IH|d IH] using json_induction; intros level.
  - simpl. lia.
  - destruct b; simpl; lia.
  - destruct (decimal_head z) as (c & t & E & _). simpl. rewrite E. simpl. lia.
  - destruct f; simpl; lia.
  - simpl. lia.
  - destruct l as [|x l]; [simpl; lia|].
    change (text i level (JArr (x :: l)))
      with ("[" +:+ newline_indent i (S level)
            +:+ String.concat ("," +:+ newline_indent i (S level))
                  (map (text i (S level)) (x :: l))
            +:+ newline_indent i level +:+ "]").
    rewrite !length_append.
    pose proof (length_concat ("," +:+ newline_indent i (S level))
                  (map (text i (S level)) (x :: l))) as Hc.
    rewrite map_map in Hc.
    assert (list_sum (map size (x :: l))
            <= list_sum (map (fun y => String.length (text i (S level) y)) (x :: l)))%nat
      as Hs.
    { apply list_sum_le. eapply Forall_impl; [exact IH|]. intros y Hy. apply Hy. }
    change (size (JArr (x :: l))) with (S (list_sum (map size (x :: l)))).
    change (String.length "[") with 1%nat. lia.
  - destruct d as [|kv d]; [simpl; lia|].
    change (text i level (JObj (kv :: d)))
      with ("{" +:+ newline_indent i (S level)
            +:+ String.concat ("," +:+ newline_indent i (S level))
                  (map (member i level) (kv :: d))
            +:+ newline_indent i level +:+ "}").
    rewrite !length_append.
    pose proof (length_concat ("," +:+ newline_indent i (S level))
                  (map (member i level) (kv :: d))) as Hc.
    rewrite map_map in Hc.
    assert (list_sum (map (fun kv => size (snd kv)) (kv :: d))
            <= list_sum (map (fun y => String.length (member i level y)) (kv :: d)))%nat
      as Hs.
    { apply list_sum_le. eapply Forall_impl; [exact IH|]. intros y Hy.
      unfold member. rewrite !length_append. specialize (Hy (S level)). simpl in *. lia. }
    change (size (JObj (kv :: d)))
      with (S (list_sum (map (fun kv => size (snd kv)) (kv :: d)))).
    change (String.length "{") with 1%nat. lia.
Qed.

(** Reading back the text of a value gives the value. *)
Lemma loads_text i v : well_formed v -> loads (text i 0 v) = Some v.
Proof.
  intros Hwf. unfold loads.
  pose proof (skip_ws_value i 0 v EmptyString) as Hs. rewrite sapp_nil_r in Hs.
  rewrite Hs.
  pose proof (scan_once_encoded i v Hwf 0 (S (String.length (text i 0 v)))) as H.
  unfold scans in H. specialize (H ltac:(pose proof (size_le_length i v 0); lia) EmptyString eq_refl).
  rewrite sapp_nil_r in H. rewrite H. reflexivity.
Qed.

Lemma ascii_only_app a b : ascii_only a -> ascii_only b -> ascii_only (a +:+ b).
Proof.
  induction a as [|c a IH]; intros Ha Hb; [exact Hb|].
  rewrite sapp_cons. simpl in *. split; [tauto|apply IH; tauto].
Qed.

Ltac ascii_literal := repeat (split; [reflexivity|]); exact I.

Lemma ascii_only_escape_char c : ascii_only (escape_char c).
Proof. destruct c as [[] [] [] [] [] [] [] []]; ascii_literal. Qed.

Lemma ascii_only_escape s : ascii_only (escape s).
Proof.
  induction s as [|c s IH]; [exact I|]. simpl.
  apply ascii_only_app; [apply ascii_only_escape_char|exact IH].
Qed.

Lemma ascii_only_uint d : ascii_only (NilEmpty.string_of_uint d).
Proof. induction d; simpl; try split; try exact IHd; try reflexivity; exact I. Qed.

Lemma ascii_only_decimal z : ascii_only (PyStr.decimal z).
Proof.
  unfold PyStr.decimal. destruct z; simpl; try split; try apply ascii_only_uint;
    try reflexivity; exact I.
Qed.

Lemma ascii_only_spaces n : ascii_only (spaces n).
Proof. induction n; [exact I|]. split; [reflexivity|exact IHn]. Qed.

Lemma ascii_only_newline_indent i l : ascii_only (newline_indent i l).
Proof. split; [reflexivity|apply ascii_only_spaces]. Qed.

Lemma ascii_only_concat sep ss :
  ascii_only sep -> Forall ascii_only ss -> ascii_only (String.concat sep ss).
Proof.
  intros Hsep. induction 1 as [|a ss Ha Hss IH]; [exact I|].
  destruct ss as [|b ss]; [exact Ha|].
  rewrite concat_cons. repeat apply ascii_only_app; auto.
Qed.

Lemma ascii_only_encode s : ascii_only (encode_basestring_ascii s).
Proof.
  unfold encode_basestring_ascii. split; [reflexivity|].
  apply ascii_only_app; [apply ascii_only_escape|]. split; [reflexivity|exact I].
Qed.

Lemma ascii_only_text i : forall v level, ascii_only (text i level v).
Proof.
  induction v as [|b|z|f|s|l IH|d IH] using json_induction; intros level.
  - ascii_literal.
  - destruct b; ascii_literal.
  - apply ascii_only_decimal.
  - destruct f; ascii_literal.
  - apply ascii_only_encode.
  - destruct l as [|x l]; [ascii_literal|].
    change (text i level (JArr (x :: l)))
      with ("[" +:+ newline_indent i (S level)
            +:+ String.concat ("," +:+ newline_indent i (S level))
                  (map (text i (S level)) (x :: l))
            +:+ newline_indent i level +:+ "]").
    apply ascii_only_app; [ascii_literal|].
    apply ascii_only_app; [apply ascii_only_newline_indent|].
    apply ascii_only_app;
      [|apply ascii_only_app; [apply ascii_only_newline_indent|ascii_literal]].
    apply ascii_only_concat.
    + apply ascii_only_app; [ascii_literal|apply ascii_only_newline_indent].
    + apply Forall_map. eapply Forall_impl; [exact IH|]. intros y Hy. apply Hy.
  - destruct d as [|kv d]; [ascii_literal|].
    change (text i level (JObj (kv :: d)))
      with ("{" +:+ newline_indent i (S level)
            +:+ String.concat ("," +:+ newline_indent i (S level))
                  (map (member i level) (kv :: d))
            +:+ newline_indent i level +:+ "}").
    apply ascii_only_app; [ascii_literal|].
    apply ascii_only_app; [apply ascii_only_newline_indent|].
    apply ascii_only_app;
      [|apply ascii_only_app; [apply ascii_only_newline_indent|ascii_literal]].
    apply ascii_only_concat.
    + apply ascii_only_app; [ascii_literal|apply ascii_only_newline_indent].
    + apply Forall_map. eapply Forall_impl; [exact IH|]. intros y Hy.
      unfold member. apply ascii_only_app; [apply ascii_only_encode|].
      apply ascii_only_app; [ascii_literal|apply Hy].
Qed.



Section Ensures.
Context {A B : Type}.

Lemma ensures_ret (a : A) (Q : A -> Prop) : Q a -> ensures (mret a) Q.
Proof. intros H w a' w' E. by injection E as <- _. Qed.

Lemma ensures_raise e (Q : A -> Prop) : ensures (raise e) Q.
Proof. intros w a w' E. discriminate E. Qed.

Lemma ensures_diverge (Q : A -> Prop) : ensures diverge Q.
Proof. intros w a w' E. discriminate E. Qed.

Lemma ensures_bind (m : M A) (f : A -> M B) (P : A -> Prop) (Q : B -> Prop) :
  ensures m P -> (forall a, P a -> ensures (f a) Q) -> ensures (m ≫= f) Q.
Proof.
  intros Hm Hf w b w' H. unfold mbind, M_bind in H.
  destruct (m w) as [[a|e|] w1] eqn:E; try discriminate H.
  eapply Hf; [eapply Hm; exact E|exact H].
Qed.

Lemma ensures_try (m : M A) catches (h : exn -> M A) (Q : A -> Prop) :
  ensures m Q -> (forall e, ensures (h e) Q) -> ensures (try_except m catches h) Q.
Proof.
  intros Hm Hh w a w' H. unfold try_except in H.
  destruct (m w) as [[a'|e|] w1] eqn:E.
  - injection H as <- <-. eapply Hm, E.
  - destruct (catches e); [eapply Hh, H|discriminate H].
  - discriminate H.
Qed.

Lemma ensures_true (m : M A) : ensures m (fun _ => True).
Proof. by intros w a w' _. Qed.
End Ensures.

Lemma dict_get_well_formed k (d : dict) :
  Forall (fun kv => well_formed (snd kv)) d -> well_formed (dict_get k d).
Proof.
  induction 1 as [|[k' v] d Hv Hd IH]; [exact I|]. simpl.
  by destruct (String.eqb k k').
Qed.

Lemma data_of_well_formed repo : well_formed (JObj repo) -> well_formed (data_of repo).
Proof.
  intros [_ Hv]%well_formed_obj. unfold data_of. apply well_formed_obj. split.
  - apply (bool_decide_unpack _). vm_compute. exact I.
  - repeat constructor; apply dict_get_well_formed; exact Hv.
Qed.

Lemma ensures_for_repos l : forall acc,
  Forall well_formed l -> Forall well_formed acc ->
  ensures (for_repos l acc) (Forall well_formed).
Proof.
  induction l as [|x l IH]; intros acc Hl Hacc; simpl.
  - by apply ensures_ret.
  - inversion Hl as [|? ? Hx Hl']; subst.
    eapply ensures_bind with (P := well_formed).
    + destruct x; try apply ensures_raise.
      apply ensures_ret. by apply data_of_well_formed.
    + intros a Ha. apply IH; [exact Hl'|].
      apply Forall_app. split; [exact Hacc|by constructor].
Qed.

Lemma ensures_turn srv url page acc :
  well_formed_server srv -> Forall well_formed acc ->
  ensures (turn srv url page acc) records_ok.
Proof.
  intros Hsrv Hacc. unfold turn.
  eapply ensures_bind
    with (P := fun resp => forall v, json_body resp = Some v -> well_formed v).
  { intros w resp w' H. unfold session_get in H.
    destruct (srv _) as [r|e] eqn:Hs; [|discriminate H].
    injection H as <- _. intros v Hv. eapply Hsrv; eauto. }
  intros resp Hresp. destruct (status_code resp =? 403).
  { unfold rate_limited.
    destruct (headers_get _ _) as [[|c s]|];
      repeat first [ apply ensures_ret; reflexivity
                   | eapply ensures_bind; [apply ensures_true|intros ? _] ]. }
  eapply ensures_bind; [apply ensures_true|intros _ _]. cbv zeta.
  destruct (negb _).
  { eapply ensures_bind; [apply ensures_true|intros _ _].
    by apply ensures_ret. }
  apply ensures_try.
  2:{ intros e. eapply ensures_bind; [apply ensures_true|intros _ _].
      by apply ensures_ret. }
  eapply ensures_bind with (P := well_formed).
  { intros w v w' H. unfold resp_json in H.
    destruct (json_body resp) as [v'|] eqn:Hb; [|discriminate H].
    injection H as <- _. by apply Hresp. }
  intros items Hitems. destruct (negb (truthy items)); [by apply ensures_ret|].
  eapply ensures_bind with (P := Forall well_formed).
  { destruct items as [|b|z|f|s|l|d]; try apply ensures_raise; apply ensures_ret.
    - apply Forall_map, Forall_forall. by intros.
    - by apply well_formed_arr.
    - apply Forall_map, Forall_forall. by intros. }
  intros repos Hrepos.
  eapply ensures_bind; [by apply ensures_for_repos|].
  intros a Ha. eapply ensures_bind; [apply ensures_true|intros n _].
  destruct (n <? 30); by apply ensures_ret.
Qed.

Lemma ensures_pages srv url fuel : forall page acc,
  well_formed_server srv -> Forall well_formed acc ->
  ensures (pages srv fuel url page acc)
    (fun r => match r with Some rs => Forall well_formed rs | None => True end).
Proof.
  induction fuel as [|fuel IH]; intros page acc Hsrv Hacc; simpl.
  - apply ensures_diverge.
  - eapply ensures_bind; [by apply ensures_turn|].
    intros [p a|a|r] Hc; simpl in Hc.
    + by apply IH.
    + by apply ensures_ret.
    + apply ensures_ret. by subst r.
Qed.

Lemma fetcher_well_formed srv fuel user w rs w' :
  well_formed_server srv ->
  fetcher srv fuel user w = (Ok (Some rs), w') -> Forall well_formed rs.
Proof.
  intros Hsrv H.
  assert (ensures (fetcher srv fuel user)
            (fun r => match r with Some rs => Forall well_formed rs | None => True end))
    as He.
  { unfold fetcher. apply ensures_try; [by apply ensures_pages|].
    intros e. destruct e;
      (eapply ensures_bind; [apply ensures_true|intros _ _]; by apply ensures_ret). }
  exact (He _ _ _ H).
Qed.

End JsonRoundTrip.

(** ** What [json.dump] writes, chunk by chunk *)

Section Encoder.

Import Json.

Lemma written_app a b :
  written (a ++ b)
  = if snd (written a)
    then (fst (written a) +:+ fst (written b), snd (written b))
    else written a.
Proof.
  induction a as [|[c|] a IH]; simpl.
  - rewrite sapp_nil_l. by destruct (written b).
  - rewrite IH. destruct (written a) as [s []]; simpl; [|done].
    by rewrite sapp_assoc.
  - done.
Qed.

Lemma chunks_of_app a b s t oka okb :
  chunks_of a s oka -> chunks_of b t okb ->
  chunks_of (a ++ b) (s +:+ t) (oka && okb).
Proof.
  intros [Ha (ra & -> & Hra)] [Hb (rb & -> & Hrb)]. unfold chunks_of.
  rewrite written_app, Ha. destruct oka; simpl.
  - rewrite (Hra eq_refl), sapp_nil_r. split; [done|].
    exists rb. split; [by rewrite sapp_assoc|done].
  - rewrite Ha. split; [done|].
    eexists. split; [by rewrite sapp_assoc|done].
Qed.

Lemma chunks_of_some c : chunks_of [Some c] c true.
Proof. split; [done|]. exists EmptyString. simpl. by rewrite !sapp_nil_r. Qed.

Lemma chunks_of_none t : chunks_of [None] t false.
Proof. split; [done|]. exists t. by rewrite sapp_nil_l. Qed.

Lemma chunks_of_nil : chunks_of [] EmptyString true.
Proof. split; [done|]. by exists EmptyString. Qed.

(** The chunk of a value that is no list and no dictionary, after
    [buf]. *)
Lemma chunks_of_atom i level buf v c :
  atom v = Some c ->
  iterencode i level v = [c]
  /\ chunks_of [option_map (String.append buf) c] (buf +:+ text i level v)
       (printable v).
Proof.
  destruct v as [|[]|z|f|s|l|d]; intros [= <-]; (split; [reflexivity|]);
    try apply chunks_of_some.
  simpl. destruct (PyStr.repr_int z) as [s|] eqn:E.
  - unfold PyStr.repr_int in E. destruct (_ <? _)%nat; [discriminate E|].
    injection E as <-. apply chunks_of_some.
  - apply chunks_of_none.
Qed.

Lemma iterencode_arr i level x l :
  iterencode i level (JArr (x :: l))
  = arr_chunks i level ("[" +:+ newline_indent i (S level)) (x :: l)
    ++ [Some (newline_indent i level); Some "]"].
Proof.
  cbn [iterencode arr_chunks]. do 2 f_equal.
  match goal with
  | |- ?f _ l = _ => assert (forall l buf, f buf l = arr_chunks i level buf l) as H
  end; [|apply H].
  clear. induction l as [|v r IH]; intros buf; [reflexivity|].
  cbn [arr_chunks]. f_equal. apply IH.
Qed.

Lemma iterencode_obj i level kv d :
  iterencode i level (JObj (kv :: d))
  = Some "{" :: Some (newline_indent i (S level))
    :: obj_chunks i level true (kv :: d)
    ++ [Some (newline_indent i level); Some "}"].
Proof.
  cbn [iterencode obj_chunks app]. do 6 f_equal.
  match goal with
  | |- ?f _ d = _ => assert (forall d first, f first d = obj_chunks i level first d) as H
  end; [|apply H].
  clear. induction d as [|kv r IH]; intros first; [reflexivity|].
  cbn [obj_chunks]. do 4 f_equal. apply IH.
Qed.

Lemma chunks_of_element i level buf v :
  encodes i v ->
  chunks_of match atom v with
            | Some c => [option_map (String.append buf) c]
            | None => Some buf :: iterencode i (S level) v
            end (buf +:+ text i (S level) v) (printable v).
Proof.
  intros Hv. destruct (atom v) as [c|] eqn:E.
  - by apply chunks_of_atom.
  - apply (chunks_of_app [Some buf] _ _ _ true); [apply chunks_of_some|apply Hv].
Qed.

Lemma chunks_of_arr i level : forall l x buf,
  Forall (encodes i) (x :: l) ->
  chunks_of (arr_chunks i level buf (x :: l))
    (buf +:+ String.concat ("," +:+ newline_indent i (S level))
               (map (text i (S level)) (x :: l)))
    (forallb printable (x :: l)).
Proof.
  induction l as [|y l IH]; intros x buf H; inversion H as [|? ? Hx Hl]; subst.
  - cbn [arr_chunks forallb map String.concat]. rewrite app_nil_r, andb_true_r.
    by apply chunks_of_element.
  - change (arr_chunks i level buf (x :: y :: l))
      with (match atom x with
            | Some c => [option_map (String.append buf) c]
            | None => Some buf :: iterencode i (S level) x
            end ++ arr_chunks i level ("," +:+ newline_indent i (S level)) (y :: l)).
    cbn [map]. rewrite concat_cons, <- (sapp_assoc buf).
    change (forallb printable (x :: y :: l))
      with (printable x && forallb printable (y :: l)).
    apply chunks_of_app; [by apply chunks_of_element|by apply IH].
Qed.

Lemma chunks_of_obj i level : forall d kv first,
  Forall (fun kv => encodes i (snd kv)) (kv :: d) ->
  chunks_of (obj_chunks i level first (kv :: d))
    ((if first then EmptyString else "," +:+ newline_indent i (S level))
     +:+ String.concat ("," +:+ newline_indent i (S level))
           (map (member i level) (kv :: d)))
    (forallb (fun kv => printable (snd kv)) (kv :: d)).
Proof.
  assert (forall (first : bool) (kv : string * json),
    encodes i (snd kv) ->
    chunks_of ((if first then [] else [Some ("," +:+ newline_indent i (S level))])
               ++ Some (encode_basestring_ascii (fst kv)) :: Some ": "
                  :: iterencode i (S level) (snd kv))
      ((if first then EmptyString else "," +:+ newline_indent i (S level))
       +:+ member i level kv)
      (printable (snd kv))) as Hm.
  { intros first kv Hkv.
    apply (chunks_of_app _ _ _ _ true).
    - destruct first; [apply chunks_of_nil|apply chunks_of_some].
    - unfold member.
      apply (chunks_of_app [Some _] _ _ _ true); [apply chunks_of_some|].
      apply (chunks_of_app [Some _] _ _ _ true); [apply chunks_of_some|].
      apply Hkv. }
  induction d as [|kv' d IH]; intros kv first H; inversion H as [|? ? Hx Hl]; subst.
  - cbn [obj_chunks forallb map String.concat]. rewrite andb_true_r.
    rewrite app_nil_r. apply (Hm first kv Hx).
  - change (obj_chunks i level first (kv :: kv' :: d))
      with (((if first then [] else [Some ("," +:+ newline_indent i (S level))])
             ++ Some (encode_basestring_ascii (fst kv)) :: Some ": "
                :: iterencode i (S level) (snd kv)
                ++ obj_chunks i level false (kv' :: d))).
    cbn [map]. rewrite concat_cons.
    change (forallb (fun kv0 => printable (snd kv0)) (kv :: kv' :: d))
      with (printable (snd kv) && forallb (fun kv0 => printable (snd kv0)) (kv' :: d)).
    rewrite <- (sapp_assoc (if first then _ else _)).
    replace ((if first then [] else [Some ("," +:+ newline_indent i (S level))])
             ++ Some (encode_basestring_ascii (fst kv)) :: Some ": "
                :: iterencode i (S level) (snd kv)
                ++ obj_chunks i level false (kv' :: d))
      with (((if first then [] else [Some ("," +:+ newline_indent i (S level))])
             ++ Some (encode_basestring_ascii (fst kv)) :: Some ": "
                :: iterencode i (S level) (snd kv))
            ++ obj_chunks i level false (kv' :: d))
      by (rewrite <- app_assoc; reflexivity).
    apply chunks_of_app; [by apply Hm|].
    apply (IH kv' false Hl).
Qed.

Lemma encodes_atom i v c : atom v = Some c -> encodes i v.
Proof.
  intros E level. destruct (chunks_of_atom i level EmptyString v c E) as [-> H].
  rewrite sapp_nil_l in H. destruct c as [s|]; [|exact H].
  cbn [option_map] in H. by rewrite sapp_nil_l in H.
Qed.

(** The generator yields the text of the value chunk by chunk, up to
    the first integer that has no [repr]. *)
Lemma iterencode_chunks i : forall v, encodes i v.
Proof.
  induction v as [|b|z|f|s|l IH|d IH] using json_induction;
    try (by eapply encodes_atom); try (destruct b; by eapply encodes_atom);
    intros level.
  - destruct l as [|x l]; [apply chunks_of_some|].
    rewrite iterencode_arr.
    change (text i level (JArr (x :: l)))
      with ("[" +:+ newline_indent i (S level)
            +:+ String.concat ("," +:+ newline_indent i (S level))
                  (map (text i (S level)) (x :: l))
            +:+ newline_indent i level +:+ "]").
    change (printable (JArr (x :: l))) with (forallb printable (x :: l)).
    rewrite <- (andb_true_r (forallb _ _)), <- (sapp_assoc "[").
    rewrite <- (sapp_assoc ("[" +:+ _)).
    apply chunks_of_app; [by apply chunks_of_arr|].
    apply (chunks_of_app [Some _] [Some _] _ _ true true); apply chunks_of_some.
  - destruct d as [|kv d]; [apply chunks_of_some|].
    rewrite iterencode_obj.
    change (text i level (JObj (kv :: d)))
      with ("{" +:+ newline_indent i (S level)
            +:+ String.concat ("," +:+ newline_indent i (S level))
                  (map (member i level) (kv :: d))
            +:+ newline_indent i level +:+ "}").
    change (printable (JObj (kv :: d)))
      with (forallb (fun kv => printable (snd kv)) (kv :: d)).
    set (ok := forallb (fun kv => printable (snd kv)) (kv :: d)).
    apply (chunks_of_app [Some _] _ _ _ true ok); [apply chunks_of_some|].
    apply (chunks_of_app [Some _] _ _ _ true ok); [apply chunks_of_some|].
    rewrite <- (andb_true_r ok).
    apply chunks_of_app.
    + pose proof (chunks_of_obj i level d kv true IH) as H.
      by rewrite sapp_nil_l in H.
    + apply (chunks_of_app [Some _] [Some _] _ _ true true); apply chunks_of_some.
Qed.

Lemma written_printable i level v :
  snd (written (iterencode i level v)) = printable v.
Proof. apply iterencode_chunks. Qed.

Lemma written_text i level v :
  printable v = true -> written (iterencode i level v) = (text i level v, true).
Proof.
  intros Hp. destruct (iterencode_chunks i v level) as [Hs (rest & Ht & Hr)].
  rewrite Hp in *. rewrite (Hr eq_refl), sapp_nil_r in Ht.
  destruct (written _) as [s ok]. simpl in *. congruence.
Qed.

Lemma written_prefix i level v :
  exists rest, text i level v = fst (written (iterencode i level v)) +:+ rest.
Proof.
  destruct (iterencode_chunks i v level) as [_ (rest & Ht & _)]. by exists rest.
Qed.

Lemma dumps_text i v : printable v = true -> dumps i v = Some (text i 0 v).
Proof. intros Hp. unfold dumps. by rewrite written_text. Qed.

Lemma dumps_printable i v : dumps i v <> None <-> printable v = true.
Proof.
  unfold dumps. pose proof (written_printable i 0 v) as H.
  destruct (written _) as [s []]; simpl in H; rewrite <- H; split; congruence.
Qed.

Lemma well_formed_printable : forall v, well_formed v -> printable v = true.
Proof.
  induction v as [|b|z|f|s|l IH|d IH] using json_induction; intros Hwf; try done.
  - simpl in *. by destruct (PyStr.repr_int z).
  - simpl. apply forallb_forall. intros x Hx.
    apply well_formed_arr in Hwf.
    rewrite Forall_forall in IH, Hwf.
    apply list_elem_of_In in Hx. by apply IH, Hwf.
  - simpl. apply forallb_forall. intros x Hx.
    apply well_formed_obj in Hwf as [_ Hwf].
    rewrite Forall_forall in IH, Hwf.
    apply list_elem_of_In in Hx. by apply IH, Hwf.
Qed.

End Encoder.

(** ** Equality of decoded values *)

Section Equality.

Lemma dict_lookup_nodup (d : dict) :
  NoDup (map fst d) ->
  forall k v, In (k, v) d -> dict_lookup k d = Some v.
Proof.
  induction d as [|[k' v'] d IH]; intros Hnd k v Hin; [done|].
  apply NoDup_cons in Hnd as [Hk Hnd]. simpl.
  destruct (String.eqb_spec k k') as [->|Hne].
  - destruct Hin as [[= ->]|Hin]; [done|].
    exfalso. apply Hk. apply list_elem_of_In, in_map_iff. by exists (k', v).
  - destruct Hin as [[= -> ->]|Hin]; [done|]. by apply IH.
Qed.

Lemma forallb_orb {A} (s : bool) (f : A -> bool) (l : list A) :
  forallb (fun x => s || f x) l = s || forallb f l.
Proof.
  induction l as [|x l IH]; simpl; [by rewrite orb_true_r|].
  rewrite IH. by destruct s.
Qed.

(** An element and its copy, as a list or a dictionary compares them. *)
Lemma element_equals_copy shared v :
  py_eq shared v v = equals_copy shared v ->
  same_nan shared v v || py_eq shared v v = shared || nan_free v.
Proof.
  intros ->. destruct v as [| | |[]| | |]; simpl; try reflexivity;
    by rewrite ?orb_false_r.
Qed.

(** A decoded value compared with its copy. *)
Lemma py_eq_self shared : forall v,
  well_formed v -> py_eq shared v v = equals_copy shared v.
Proof.
  induction v as [|b|z|f|s|l IH|d IH] using json_induction; intros Hwf.
  - simpl. by rewrite orb_true_r.
  - destruct b; simpl; by rewrite orb_true_r.
  - simpl. by rewrite Z.eqb_refl, orb_true_r.
  - destruct f; simpl; by rewrite ?orb_true_r.
  - simpl. by rewrite String.eqb_refl, orb_true_r.
  - apply well_formed_arr in Hwf. cbn [py_eq equals_copy nan_free].
    rewrite <- forallb_orb.
    induction l as [|x l IHl]; [reflexivity|].
    inversion IH; inversion Hwf; subst. cbn [forallb].
    f_equal; [apply element_equals_copy|]; auto.
  - apply well_formed_obj in Hwf as [Hnd Hwf]. cbn [py_eq equals_copy nan_free].
    rewrite Nat.eqb_refl, andb_true_l, <- forallb_orb.
    match goal with
    | |- ?f d = _ =>
        assert (forall r : dict,
                   (forall kv, In kv r -> In kv d) ->
                   Forall (fun kv => well_formed (snd kv)
                                     -> py_eq shared (snd kv) (snd kv)
                                        = equals_copy shared (snd kv)) r ->
                   Forall (fun kv => well_formed (snd kv)) r ->
                   f r = forallb (fun kv => shared || nan_free (snd kv)) r) as Hall
    end; [|by apply Hall].
    clear IH Hwf.
    induction r as [|[k x] r IHr]; intros Hsub IH Hwf; [reflexivity|].
    inversion IH; inversion Hwf; subst. cbn [forallb fst snd] in *.
    rewrite (dict_lookup_nodup d Hnd k x) by (apply Hsub; by left).
    f_equal; [apply element_equals_copy; auto|].
    apply IHr; auto. intros kv Hkv. apply Hsub. by right.
Qed.

End Equality.

(** ** How [write_file] ends *)

Section Writing.

Lemma open_error_log rqs out path w :
  open_error path (log rqs out w) = open_error path w.
Proof. reflexivity. Qed.

Lemma write_result_log rqs out records path w :
  write_result records path (log rqs out w) = write_result records path w.
Proof. reflexivity. Qed.

(** [open] raises an [OSError] or a [ValueError]. *)
Lemma open_error_class path w e :
  open_error path w = Some e -> e = OtherException \/ e = ValueError.
Proof.
  unfold open_error. destruct path as [|c path]; [intros [= <-]; by left|].
  destruct (has_nul _); [intros [= <-]; by right|].
  destruct (unwritable _ _); [intros [= <-]; by left|discriminate].
Qed.

(** The three ways [write_file] ends on a non-empty list. *)
Lemma write_result_cases records path w :
  match open_error path w with
  | Some e => write_result records path w = (Exc e, None)
  | None =>
      if forallb printable records
      then write_result records path w
           = (Ok tt, Some (Json.text 4 0 (JArr records)))
      else exists part rest,
             write_result records path w = (Exc ValueError, Some part)
             /\ Json.text 4 0 (JArr records) = part +:+ rest
  end.
Proof.
  unfold write_result. destruct (open_error path w) as [e|]; [reflexivity|].
  change (forallb printable records) with (printable (JArr records)).
  destruct (printable (JArr records)) eqn:Hp.
  - by rewrite written_text.
  - pose proof (written_printable 4 0 (JArr records)) as Hs.
    destruct (written_prefix 4 0 (JArr records)) as (rest & Ht).
    destruct (Json.written _) as [part ok]. simpl in *. subst ok. rewrite Hp.
    by exists part, rest.
Qed.

End Writing.

(** ** The three outcomes *)


(** ** Writing the records *)


(** ** Round trip *)


(** ** The statements on concrete inputs *)

Lemma fetcher_pagination_witness :
  length thirty_repos = 30%nat
  /\ fetcher two_pages 2%nat "octocat" empty_world
     = (Ok (Some (map data_of thirty_repos)),
        log (requests (get_url "octocat") 1 2%nat) [] empty_world).
Proof.
  split; [reflexivity|].
  rewrite <- (app_nil_r thirty_repos) at 1.
  apply (proj1 fetcher_pagination two_pages "octocat" [thirty_repos] [] 2%nat empty_world).
  - apply full_pages_one; [|vm_compute; lia].
    eexists. split; [reflexivity|]. split; [reflexivity|]. split; reflexivity.
  - eexists. split; [reflexivity|]. split; [reflexivity|]. split; reflexivity.
  - simpl. lia.
  - simpl. lia.
Defined.

Lemma summary_fields_witness :
  field "stars" (data_of (sample_repo 7)) = JInt 7
  /\ field "description" (data_of (sample_repo 7)) = JNull.
Proof.
  destruct (summary_fields (sample_repo 7) empty_world)
    as (_ & _ & Hstars & Hsame & Habsent & _).
  split.
  - rewrite Hstars. reflexivity.
  - rewrite (Hsame "description") by (simpl; tauto).
    apply Habsent. simpl. intros [H|[H|[H|[H|[H|[]]]]]]; discriminate H.
Defined.

Lemma bad_content_fails_witness :
  json_type html_response = false
  /\ fetcher html_server 1%nat "octocat" empty_world
     = (Ok None, log (requests (get_url "octocat") 1 1%nat) [Print "Not JSON"] empty_world)
  /\ files (snd (main html_server 1%nat {| username := Some "octocat"; output := "out.json" |}
                   empty_world)) = ∅.
Proof.
  split; [reflexivity|].
  destruct (bad_content_fails html_server "octocat" [] html_response 1%nat empty_world)
    as ((line & Hf & Hnot & _) & Hmain & _).
  - apply full_pages_nil.
  - reflexivity.
  - left. reflexivity.
  - simpl. lia.
  - split.
    + rewrite Hf, Hnot; reflexivity.
    + apply (Hmain "out.json"). discriminate.
Defined.

Lemma well_formed_one_repo : well_formed_server one_repo.
Proof.
  intros rq resp v Hs Hb. unfold one_repo in Hs. injection Hs as <-.
  injection Hb as <-. simpl.
  repeat split; try exact I; apply (bool_decide_unpack _); vm_compute; exact I.
Qed.

Lemma rate_limit_without_reset_witness :
  fetcher (rate_limited_server None) 1%nat "octocat" empty_world
  = (Ok None,
     log (requests (get_url "octocat") 1 1%nat)
       [Print "Rate limit exceeded. No reset time provided."] empty_world).
Proof.
  apply (rate_limit_without_reset (rate_limited_server None) "octocat" []
           (rate_limit_response None) 1%nat empty_world).
  - apply full_pages_nil.
  - reflexivity.
  - reflexivity.
  - left. reflexivity.
  - simpl. lia.
Defined.

(** The layout at midnight, at noon and in the afternoon, Indian time. *)
Lemma convert_reset_samples :
  convert_reset_to_ist 1700073000 = inr "16-Nov-2023 12:00:00 AM IST"
  /\ convert_reset_to_ist 1700029800 = inr "15-Nov-2023 12:00:00 PM IST"
  /\ convert_reset_to_ist 1700040000 = inr "15-Nov-2023 02:50:00 PM IST"
  /\ convert_reset_to_ist 0 = inr "01-Jan-1970 05:30:00 AM IST".
Proof. repeat split; vm_compute; reflexivity. Qed.

Lemma rate_limit_reset_witness :
  PyStr.int "1700040000" = Some 1700040000
  /\ fetcher (rate_limited_server (Some "1700040000")) 1%nat "octocat" empty_world
     = (Ok None,
        log (requests (get_url "octocat") 1 1%nat)
          [Print "Rate limit exceeded. It will reset at: 15-Nov-2023 02:50:00 PM IST"]
          empty_world).
Proof.
  split; [reflexivity|].
  destruct (rate_limit_reset (rate_limited_server (Some "1700040000")) "octocat" []
              (rate_limit_response (Some "1700040000")) "1700040000" 1700040000
              1%nat empty_world)
    as [(ist & _ & _ & Hc & _ & Hf) _].
  - apply full_pages_nil.
  - reflexivity.
  - reflexivity.
  - reflexivity.
  - reflexivity.
  - lia.
  - simpl. lia.
  - rewrite Hf. assert (ist_layout ist = "15-Nov-2023 02:50:00 PM IST") as ->.
    { assert (convert_reset_to_ist 1700040000 = inr "15-Nov-2023 02:50:00 PM IST") as E
        by (vm_compute; reflexivity).
      congruence. }
    reflexivity.
Defined.

(** Three reset headers for which no reset time in the layout is
    printed.  For a header that is no number the line is the text of
    the [ValueError] of [int]; for a timestamp past the year 9999 it is
    the text of the [OverflowError] of the addition; for a timestamp
    before the year 1000 the year is printed with three digits. *)
Lemma rate_limit_reset_counterexample :
  status_code (rate_limit_response (Some "soon")) = 403
  /\ headers_get "X-RateLimit-Reset" (headers (rate_limit_response (Some "soon")))
     = Some "soon"
  /\ stdout (snd (fetcher (rate_limited_server (Some "soon")) 1%nat "octocat"
                    empty_world))
     = [PrintExc EmptyString ValueError]
  /\ (~ exists text,
         In (Print ("Rate limit exceeded. It will reset at: " +:+ text))
           (stdout (snd (fetcher (rate_limited_server (Some "soon")) 1%nat "octocat"
                           empty_world))))
  /\ stdout (snd (fetcher (rate_limited_server (Some "253402290000")) 1%nat
                    "octocat" empty_world))
     = [PrintExc EmptyString OtherException]
  /\ stdout (snd (fetcher (rate_limited_server (Some "-30610243801")) 1%nat
                    "octocat" empty_world))
     = [Print "Rate limit exceeded. It will reset at: 31-Dec-999 11:59:59 PM IST"]
  /\ String.length "31-Dec-999 11:59:59 PM IST" = 26%nat.
Proof.
  assert (stdout (snd (fetcher (rate_limited_server (Some "soon")) 1%nat "octocat"
                         empty_world))
          = [PrintExc EmptyString ValueError]) as E by (vm_compute; reflexivity).
  split; [reflexivity|]. split; [reflexivity|]. split; [exact E|].
  split; [rewrite E; intros (text & [H|[]]); discriminate H|].
  split; [vm_compute; reflexivity|]. split; [vm_compute; reflexivity|].
  reflexivity.
Qed.







(** * Further properties of the script *)

(** ** Every way a turn of the loop can end *)

Section TurnCases.

Variable srv : server.
Variables (url : string) (page : Z) (all_items : list json) (w : world).

Lemma objects_dec (l : list json) :
  (exists items, l = map JObj items) \/ (forall items, l <> map JObj items).
Proof.
  induction l as [|x l IH].
  - left. exists []. reflexivity.
  - destruct IH as [(items & ->)|Hno].
    + destruct x as [| | | | | |d];
        try (right; intros [|d' items'] E; discriminate E).
      left. exists (d :: items). reflexivity.
    + right. intros [|d' items'] E; [discriminate E|].
      injection E as _ E. exact (Hno _ E).
Qed.

(** [repo.get] fails on the first element that is no dictionary. *)
Lemma for_repos_other (l : list json) :
  (forall items, l <> map JObj items) ->
  forall acc w', for_repos l acc w' = (Exc OtherException, w').
Proof.
  induction l as [|x l IH]; intros Hno acc w'.
  - exfalso. apply (Hno []). reflexivity.
  - simpl. destruct x as [| | | | | |d]; try reflexivity.
    unfold mbind, M_bind. simpl. apply IH.
    intros items E. apply (Hno (d :: items)). simpl. by rewrite E.
Qed.

Lemma turn_falsy resp v :
  srv (request_for url page) = Respond resp ->
  good_status resp = true -> json_type resp = true ->
  json_body resp = Some v -> truthy v = false ->
  turn srv url page all_items w
  = (Ok (Break all_items), log [request_for url page] [] w).
Proof.
  intros Hs Hgood Hct Hb Hv.
  rewrite (turn_json srv url page all_items w resp) by done.
  unfold try_except, mbind at 1, M_bind at 1, resp_json. rewrite Hb.
  cbn [mret M_ret]. rewrite Hv. reflexivity.
Qed.

Lemma turn_other resp v :
  srv (request_for url page) = Respond resp ->
  good_status resp = true -> json_type resp = true ->
  json_body resp = Some v -> truthy v = true -> ~ objects v ->
  turn srv url page all_items w
  = (Exc OtherException, log [request_for url page] [] w).
Proof.
  intros Hs Hgood Hct Hb Hv Hno.
  rewrite (turn_json srv url page all_items w resp) by done.
  unfold try_except, mbind at 1, M_bind at 1, resp_json. rewrite Hb.
  cbn [mret M_ret]. rewrite Hv. cbn [negb].
  destruct v as [|b|z|f|s|l|d]; try reflexivity.
  - destruct s as [|c s]; [discriminate Hv|]. reflexivity.
  - unfold mbind at 1, M_bind at 1. cbn [iterate mret M_ret].
    unfold mbind at 1, M_bind at 1. rewrite for_repos_other; [reflexivity|].
    intros items E. apply Hno. exists items. by rewrite E.
  - destruct d as [|kv d]; [discriminate Hv|]. reflexivity.
Qed.

(** A turn goes on to the next page, leaves the loop, returns [None]
    after one line, or raises. *)
Lemma turn_cases :
  (exists items,
      serves srv url page items /\ (30 <= length items)%nat
      /\ turn srv url page all_items w
         = (Ok (Next (page + 1) (all_items ++ map data_of items)),
            log [request_for url page] [] w))
  \/ (exists items,
        last_page srv url page items
        /\ turn srv url page all_items w
           = (Ok (Break (all_items ++ map data_of items)),
              log [request_for url page] [] w))
  \/ (exists line,
        turn srv url page all_items w
        = (Ok (Return None), log [request_for url page] [line] w))
  \/ (exists e,
        turn srv url page all_items w = (Exc e, log [request_for url page] [] w)
        /\ (is_Exception e = true \/ srv (request_for url page) = Fail e)).
Proof.
  destruct (srv (request_for url page)) as [resp|e] eqn:Hs.
  2:{ right; right; right. exists e. split; [by apply turn_fail|by right]. }
  destruct (Z.eq_dec (status_code resp) 403) as [H403|H403].
  { rewrite (turn_403 srv url page all_items w resp Hs H403).
    destruct (rate_limited_cases resp (log [request_for url page] [] w))
      as [(line & ->)|(e & He & ->)].
    - right; right; left. exists line. by rewrite log_log.
    - right; right; right. exists e. split; [reflexivity|by left]. }
  destruct (good_status resp) eqn:Hg.
  2:{ right; right; right. exists RequestException.
      split; [by apply (turn_http_error srv url page all_items w resp)|by left]. }
  destruct (json_type resp) eqn:Hj.
  2:{ right; right; left. eexists.
      by apply (turn_not_json srv url page all_items w resp). }
  destruct (json_body resp) as [v|] eqn:Hb.
  2:{ right; right; left. eexists.
      by apply (turn_invalid_json srv url page all_items w resp). }
  destruct (truthy v) eqn:Hv.
  2:{ right; left. exists []. split.
      - exists resp, v. repeat split; try done. by left.
      - rewrite app_nil_r. by apply (turn_falsy resp v). }
  destruct v as [|b|z|f|s|l|d];
    try (right; right; right; exists OtherException;
         split; [|by left];
         apply (turn_other resp _ Hs Hg Hj Hb Hv);
         intros (items & E); discriminate E).
  destruct (objects_dec l) as [(items & ->)|Hno].
  - rewrite (turn_page srv url page all_items w resp items Hs) by done.
    destruct (Nat.ltb_spec (length items) 30) as [Hlt|Hge].
    + right; left. exists items. split; [|reflexivity].
      exists resp, (JArr (map JObj items)). repeat split; try done. by right.
    + left. exists items. split; [|done]. exists resp. done.
  - right; right; right. exists OtherException. split; [|by left].
    apply (turn_other resp _ Hs Hg Hj Hb Hv).
    intros (items & E). injection E as E. exact (Hno _ E).
Qed.

End TurnCases.

(** ** Every run of [fetcher] *)

Section Shape.

Variable srv : server.
Variable url : string.

(** The loop visits full pages until the fuel runs out or one more turn
    ends it. *)
Lemma pages_shape fuel : forall page acc w r w',
  pages srv fuel url page acc w = (r, w') ->
  exists pgs : list (list dict),
    (forall (i : nat) items,
        pgs !! i = Some items ->
        serves srv url (page + Z.of_nat i) items /\ (30 <= length items)%nat)
    /\ ((length pgs = fuel /\ r = Diverge
         /\ w' = log (requests url page fuel) [] w)
        \/ ((length pgs < fuel)%nat
            /\ exists c,
                turn srv url (page + Z.of_nat (length pgs))
                  (acc ++ map data_of (concat pgs))
                  (log (requests url page (length pgs)) [] w) = (c, w')
                /\ match c with
                   | Ok (Next _ _) => False
                   | Ok (Break a) => r = Ok (Some a)
                   | Ok (Return x) => r = Ok x
                   | Exc e => r = Exc e
                   | Diverge => False
                   end)).
Proof.
  induction fuel as [|fuel IH]; intros page acc w r w' H.
  - exists []. split; [intros i items Hi; discriminate Hi|].
    left. simpl in H. unfold diverge in H. injection H as <- <-.
    by rewrite log_nil.
  - assert (forall c,
      turn srv url page acc w = (c, w') ->
      match c with
      | Ok (Next _ _) => False
      | Ok (Break a) => r = Ok (Some a)
      | Ok (Return x) => r = Ok x
      | Exc e => r = Exc e
      | Diverge => False
      end ->
      exists pgs : list (list dict),
        (forall (i : nat) items,
            pgs !! i = Some items ->
            serves srv url (page + Z.of_nat i) items /\ (30 <= length items)%nat)
        /\ ((length pgs = S fuel /\ r = Diverge
             /\ w' = log (requests url page (S fuel)) [] w)
            \/ ((length pgs < S fuel)%nat
                /\ exists c,
                    turn srv url (page + Z.of_nat (length pgs))
                      (acc ++ map data_of (concat pgs))
                      (log (requests url page (length pgs)) [] w) = (c, w')
                    /\ match c with
                       | Ok (Next _ _) => False
                       | Ok (Break a) => r = Ok (Some a)
                       | Ok (Return x) => r = Ok x
                       | Exc e => r = Exc e
                       | Diverge => False
                       end))) as Hlast.
    { intros c Hc Hr. exists []. split; [intros i items Hi; discriminate Hi|].
      right. split; [simpl; lia|]. exists c. split; [|exact Hr].
      simpl. by rewrite Z.add_0_r, app_nil_r, log_nil. }
    destruct (turn_cases srv url page acc w)
      as [(items & Hsv & Hlen & Ht)|[(items & Hl & Ht)|[(line & Ht)|(e & Ht & He)]]].
    + rewrite (pages_ok _ _ _ _ _ _ _ _ Ht) in H.
      destruct (IH _ _ _ _ _ H) as (pgs & Hfull & Hend).
      exists (items :: pgs). split.
      { intros [|i] its Hi; simpl in Hi.
        - injection Hi as <-. by rewrite Z.add_0_r.
        - destruct (Hfull i its Hi) as [Hs' Hl']. split; [|done].
          by replace (page + Z.of_nat (S i)) with (page + 1 + Z.of_nat i) by lia. }
      assert (forall out,
        log (requests url (page + 1) (length pgs)) out
          (log [request_for url page] [] w)
        = log (requests url page (length (items :: pgs))) out w) as Hlog.
      { intros out. rewrite log_log. cbn [length].
        by rewrite (requests_cons url page). }
      destruct Hend as [(Hk & -> & ->)|(Hk & c & Hc & Hr)].
      * left. split; [simpl; lia|]. split; [done|]. rewrite <- Hk. apply Hlog.
      * right. split; [simpl; lia|]. exists c. split; [|exact Hr].
        rewrite <- Hlog.
        change (concat (items :: pgs)) with (items ++ concat pgs).
        rewrite map_app, app_assoc.
        by replace (page + Z.of_nat (length (items :: pgs)))
          with (page + 1 + Z.of_nat (length pgs)) by (simpl; lia).
    + rewrite (pages_ok _ _ _ _ _ _ _ _ Ht) in H. injection H as <- <-.
      by apply (Hlast _ Ht).
    + rewrite (pages_ok _ _ _ _ _ _ _ _ Ht) in H. injection H as <- <-.
      by apply (Hlast _ Ht).
    + rewrite (pages_exc _ _ _ _ _ _ _ _ Ht) in H. injection H as <- <-.
      by apply (Hlast _ Ht).
Qed.

End Shape.

Section Outcome.

Variable srv : server.

(** A run of [fetcher] goes through full pages; then the fuel runs out,
    or one more turn ends the run with a list, with [None] after one
    line, or with an exception that is no [Exception]. *)
Lemma fetcher_shape fuel user w :
  exists pgs : list (list dict),
    full_pages srv (get_url user) pgs
    /\ ((length pgs = fuel
         /\ fetcher srv fuel user w
            = (Diverge, log (requests (get_url user) 1 fuel) [] w))
        \/ ((length pgs < fuel)%nat
            /\ ((exists last,
                    last_page srv (get_url user) (Z.of_nat (length pgs) + 1) last
                    /\ fetcher srv fuel user w
                       = (Ok (Some (map data_of (concat pgs ++ last))),
                          log (requests (get_url user) 1 (S (length pgs))) [] w))
                \/ (exists line,
                      fetcher srv fuel user w
                      = (Ok None,
                         log (requests (get_url user) 1 (S (length pgs))) [line] w))
                \/ (exists e,
                      is_Exception e = false
                      /\ srv (request_for (get_url user) (Z.of_nat (length pgs) + 1))
                         = Fail e
                      /\ fetcher srv fuel user w
                         = (Exc e,
                            log (requests (get_url user) 1 (S (length pgs))) [] w))))).
Proof.
  destruct (pages srv fuel (get_url user) 1 [] w) as [r w'] eqn:Hp.
  destruct (pages_shape srv (get_url user) fuel 1 [] w r w' Hp)
    as (pgs & Hfull & Hend).
  exists pgs. split.
  { intros i items Hi. rewrite Z.add_comm. by apply Hfull. }
  destruct Hend as [(Hk & -> & ->)|(Hk & c & Hc & Hr)].
  { left. split; [done|]. unfold fetcher, try_except. by rewrite Hp. }
  right. split; [done|]. rewrite app_nil_l in Hc.
  replace (1 + Z.of_nat (length pgs)) with (Z.of_nat (length pgs) + 1) in Hc by lia.
  destruct (turn_cases srv (get_url user) (Z.of_nat (length pgs) + 1)
              (map data_of (concat pgs))
              (log (requests (get_url user) 1 (length pgs)) [] w))
    as [(items & _ & _ & Ht)|[(items & Hl & Ht)|[(line & Ht)|(e & Ht & He)]]];
    rewrite Ht in Hc; injection Hc as <- <-; try done; subst r.
  - left. exists items. split; [done|].
    rewrite (fetcher_ok _ _ _ _ _ _ Hp).
    by rewrite log_requests_snoc, map_app.
  - right; left. exists line.
    rewrite (fetcher_ok _ _ _ _ _ _ Hp). by rewrite log_requests_snoc.
  - destruct (is_Exception e) eqn:Hex.
    + right; left. exists (handler_line e).
      rewrite (fetcher_exc _ _ _ _ _ _ Hp Hex). by rewrite log_line_requests_snoc.
    + right; right. exists e. split; [done|].
      destruct He as [He|He]; [discriminate He|]. split; [done|].
      unfold fetcher, try_except. rewrite Hp, Hex. by rewrite log_requests_snoc.
Qed.

(** The requests and the lines of a run do not depend on the world it
    starts from. *)
Lemma fetcher_uniform (fuel : nat) (user : string) :
  exists (n : nat) (r : res (option (list json))) (out : list printed),
    (n <= fuel)%nat
    /\ forall w,
        fetcher srv fuel user w = (r, log (requests (get_url user) 1 n) out w).
Proof.
  destruct (framed_fetcher srv fuel user) as (rqs & r & out & Hf).
  assert (forall n r' out',
    fetcher srv fuel user empty_world
    = (r', log (requests (get_url user) 1 n) out' empty_world) ->
    rqs = requests (get_url user) 1 n) as Hsame.
  { intros n r' out' H. rewrite Hf in H. unfold log in H. simpl in H.
    by injection H as _ _ ->. }
  destruct (fetcher_shape fuel user empty_world) as (pgs & _ & Hend).
  destruct Hend as [(Hk & H)|(Hk & [(last & _ & H)|[(line & H)|(e & He & Hs & H)]])];
    rewrite (Hsame _ _ _ H) in Hf.
  - exists fuel, r, out. done.
  - exists (S (length pgs)), r, out. split; [lia|done].
  - exists (S (length pgs)), r, out. split; [lia|done].
  - exists (S (length pgs)), r, out. split; [lia|done].
Qed.

Lemma length_requests url first n : length (requests url first n) = n.
Proof. unfold requests. by rewrite length_map, length_seq. Qed.

(** X1.  Whatever the server does, a run of [fetcher] sends the requests
    for pages 1, 2, ..., n of the account in this order and nothing
    else, leaves the files and the standard input alone, and its result
    does not depend on the world it starts from.  It prints nothing when
    it returns a list, and exactly one line when it returns [None]; no
    [Exception] ever leaves it: the only exceptions it lets through are
    those of other classes that the transport raised. *)
Theorem fetcher_trace (fuel : nat) (user : string) :
  exists (n : nat) (r : res (option (list json))) (out : list printed),
    (n <= fuel)%nat
    /\ (forall w,
          fetcher srv fuel user w = (r, log (requests (get_url user) 1 n) out w))
    /\ match r with
       | Ok (Some _) => out = []
       | Ok None => exists line, out = [line]
       | Exc e => out = [] /\ is_Exception e = false /\ exists rq, srv rq = Fail e
       | Diverge => out = [] /\ n = fuel
       end.
Proof.
  destruct (fetcher_uniform fuel user) as (n & r & out & Hn & Hf).
  exists n, r, out. split; [exact Hn|]. split; [exact Hf|].
  destruct (fetcher_shape fuel user empty_world) as (pgs & _ & Hend).
  destruct Hend as [(Hk & H)|(Hk & [(last & _ & H)|[(line & H)|(e & He & Hs & H)]])];
    rewrite Hf in H; unfold log in H; simpl in H; injection H as -> -> Hrqs.
  - split; [reflexivity|].
    apply (f_equal length) in Hrqs. by rewrite !length_requests in Hrqs.
  - reflexivity.
  - by exists line.
  - split; [reflexivity|]. split; [exact He|]. eexists. exact Hs.
Qed.

(** X2.  When [fetcher] returns a list, the server has served full pages
    of 30 repository objects or more, then one response that ended the
    loop: a falsy body, or a list of fewer than 30 objects.  The list
    returned holds the records of all these repositories in the order of
    the pages, one request was sent per page, and nothing was printed. *)
Theorem fetcher_success_inversion
    (fuel : nat) (user : string) (w w' : world) (records : list json) :
  fetcher srv fuel user w = (Ok (Some records), w') ->
  exists (pgs : list (list dict)) (last : list dict),
    full_pages srv (get_url user) pgs
    /\ last_page srv (get_url user) (Z.of_nat (length pgs) + 1) last
    /\ records = map data_of (concat pgs ++ last)
    /\ (length pgs < fuel)%nat
    /\ w' = log (requests (get_url user) 1 (S (length pgs))) [] w.
Proof.
  intros H. destruct (fetcher_shape fuel user w) as (pgs & Hfull & Hend).
  destruct Hend as [(Hk & H')|(Hk & [(last & Hl & H')|[(line & H')|(e & He & Hs & H')]])];
    rewrite H' in H; try discriminate H.
  injection H as <- <-. exists pgs, last. done.
Qed.

(** X3.  The loop of [fetcher] is still running after [fuel] requests
    exactly when the first [fuel] pages are all full pages: a response
    of any other kind ends it. *)
Theorem fetcher_diverges_iff (fuel : nat) (user : string) (w : world) :
  fst (fetcher srv fuel user w) = Diverge
  <-> exists pgs : list (list dict),
        length pgs = fuel /\ full_pages srv (get_url user) pgs.
Proof.
  split.
  - intros H. destruct (fetcher_shape fuel user w) as (pgs & Hfull & Hend).
    destruct Hend as [(Hk & H')|(Hk & [(last & Hl & H')|[(line & H')|(e & He & Hs & H')]])];
      rewrite H' in H; try discriminate H.
    exists pgs. done.
  - intros (pgs & <- & Hfull). unfold fetcher, try_except.
    replace (length pgs) with (length pgs + 0)%nat at 1 by lia.
    rewrite pages_after_full by done. reflexivity.
Qed.

End Outcome.

(** ** Responses that end the listing or break it *)

(** Past 23:59:59 of 31 December 9999, Indian time, the conversion
    raises: the addition overflows ([OverflowError]) while the UTC time
    still exists; later the year of the UTC time is out of range
    ([ValueError]); past the timestamps of [gmtime] it is [gmtime] that
    fails ([OSError] or [OverflowError]). *)
Lemma convert_reset_overflow ts :
  253402280999 < ts ->
  convert_reset_to_ist ts
  = inl (if ts <=? 253402300799 then OtherException
         else if ts <=? DateTime.GMTIME_MAX then ValueError
         else OtherException).
Proof.
  intros Hts. unfold convert_reset_to_ist, DateTime.fromtimestamp_utc.
  destruct (Z.leb_spec ts DateTime.GMTIME_MAX) as [Hgm|Hgm].
  2:{ replace ((ts <? DateTime.GMTIME_MIN) || (DateTime.GMTIME_MAX <? ts))
        with true by (symmetry; apply orb_true_iff; right; lia).
      unfold DateTime.GMTIME_MAX in Hgm.
      by replace (ts <=? 253402300799) with false by lia. }
  replace ((ts <? DateTime.GMTIME_MIN) || (DateTime.GMTIME_MAX <? ts)) with false
    by (symmetry; apply orb_false_iff; unfold DateTime.GMTIME_MIN; split; lia).
  set (n := ts / 86400 + DateTime.EPOCH). set (r := ts mod 86400).
  assert (ts = 86400 * (ts / 86400) + r /\ 0 <= r < 86400) as [Ets Br].
  { unfold r. split; [apply Z.div_mod; lia|apply Z.mod_pos_bound; lia]. }
  destruct (Z.leb_spec ts 253402300799) as [Hle|Hgt].
  2:{ assert ((1 <=? n) && (n <=? DateTime.MAXORDINAL) = false) as ->; [|done].
      apply andb_false_iff. right. apply Z.leb_gt.
      unfold n, DateTime.EPOCH, DateTime.MAXORDINAL. Z.div_mod_to_equations. lia. }
  assert (n = DateTime.MAXORDINAL) as Hn.
  { unfold n, DateTime.EPOCH, DateTime.MAXORDINAL. Z.div_mod_to_equations. lia. }
  assert (66600 <= r) as Hr.
  { unfold n, DateTime.EPOCH, DateTime.MAXORDINAL in Hn. lia. }
  replace ((1 <=? n) && (n <=? DateTime.MAXORDINAL)) with true
    by (rewrite Hn; reflexivity).
  destruct (combine_spec n (r / 3600) (r mod 3600 / 60) (r mod 60))
    as (Hv & Ho & Hh & Hm & Hs); try (Z.div_mod_to_equations; lia).
  { rewrite Hn. unfold DateTime.MAXORDINAL. lia. }
  unfold DateTime.add. rewrite Ho, Hh, Hm, Hs.
  unfold DateTime.td_add, DateTime.mk_timedelta.
  cbn [DateTime.td_days DateTime.td_seconds].
  assert (r / 3600 * 3600 + r mod 3600 / 60 * 60 + r mod 60 = r) as Er
    by (Z.div_mod_to_equations; lia).
  rewrite Er.
  match goal with
  | |- context [if (0 <? ?d) && (?d <=? DateTime.MAXORDINAL) then _ else _] =>
      assert ((0 <? d) && (d <=? DateTime.MAXORDINAL) = false) as ->; [|done]
  end.
  apply andb_false_iff. right. apply Z.leb_gt. rewrite Hn.
  unfold DateTime.MAXORDINAL.
  change ((5 * 3600 + 30 * 60 + 0) / 86400) with 0.
  change ((5 * 3600 + 30 * 60 + 0) mod 86400) with 19800.
  Z.div_mod_to_equations. lia.
Qed.

Section Edges.

Variable srv : server.
Variables (user : string) (pgs : list (list dict)) (fuel : nat) (w : world).

Hypothesis Hfull : full_pages srv (get_url user) pgs.
Hypothesis Hfuel : (length pgs < fuel)%nat.

(** X4.  A JSON body that is falsy without being a list ([null],
    [false], [0], the empty string, the empty object) ends the loop as
    an empty page does: [fetcher] returns the records gathered so far
    and prints nothing. *)
Theorem falsy_body_ends_listing (resp : response) (v : json) :
  srv (request_for (get_url user) (Z.of_nat (length pgs) + 1)) = Respond resp ->
  good_status resp = true -> json_type resp = true ->
  json_body resp = Some v -> truthy v = false ->
  fetcher srv fuel user w
  = (Ok (Some (map data_of (concat pgs))),
     log (requests (get_url user) 1 (S (length pgs))) [] w).
Proof.
  intros Hs Hg Hj Hb Hv.
  pose proof (turn_falsy srv (get_url user) (Z.of_nat (length pgs) + 1)
                (map data_of (concat pgs))
                (log (requests (get_url user) 1 (length pgs)) [] w)
                resp v Hs Hg Hj Hb Hv) as Ht.
  rewrite (fetcher_breaks srv user pgs fuel w _ _ Hfull Hfuel Ht).
  by rewrite log_requests_snoc.
Qed.

(** X5.  A JSON body that is truthy but no list of objects (an object
    such as an error message, a number, a string, a list with an
    element that is no object) makes [fetcher] return [None]: iterating
    or [repo.get] raises, the last handler prints the text of the
    exception, and the records of the pages before are dropped. *)
Theorem malformed_page_fails (resp : response) (v : json) :
  srv (request_for (get_url user) (Z.of_nat (length pgs) + 1)) = Respond resp ->
  good_status resp = true -> json_type resp = true ->
  json_body resp = Some v -> truthy v = true -> ~ objects v ->
  fetcher srv fuel user w
  = (Ok None,
     log (requests (get_url user) 1 (S (length pgs)))
       [PrintExc EmptyString OtherException] w).
Proof.
  intros Hs Hg Hj Hb Hv Hno.
  pose proof (turn_other srv (get_url user) (Z.of_nat (length pgs) + 1)
                (map data_of (concat pgs))
                (log (requests (get_url user) 1 (length pgs)) [] w)
                resp v Hs Hg Hj Hb Hv Hno) as Ht.
  rewrite (fetcher_raises srv user pgs fuel w _ _ Hfull Hfuel Ht eq_refl).
  by rewrite log_line_requests_snoc.
Qed.

(** X6.  The line [fetcher] prints before it returns [None] for a
    failed request: [Request timed out.] for a time-out,
    [Connection error] for a connection error, the text of the exception
    for any other [Exception] of the transport and for a response with a
    4xx or 5xx status other than 403. *)
Theorem failure_lines (rp : reply) :
  srv (request_for (get_url user) (Z.of_nat (length pgs) + 1)) = rp ->
  match rp with
  | Fail e => is_Exception e = true
  | Respond resp => good_status resp = false /\ status_code resp <> 403
  end ->
  fetcher srv fuel user w
  = (Ok None,
     log (requests (get_url user) 1 (S (length pgs)))
       [match rp with
        | Fail Timeout => Print "Request timed out."
        | Fail ConnectionError => Print "Connection error"
        | Fail e => PrintExc EmptyString e
        | Respond _ => PrintExc EmptyString RequestException
        end] w).
Proof.
  intros Hs Hrp. destruct rp as [resp|e].
  - destruct Hrp as (Hg & H403).
    pose proof (turn_http_error srv _ _ (map data_of (concat pgs))
                  (log (requests (get_url user) 1 (length pgs)) [] w) resp
                  Hs H403 Hg) as Ht.
    rewrite (fetcher_raises srv user pgs fuel w _ _ Hfull Hfuel Ht eq_refl).
    by rewrite log_line_requests_snoc.
  - pose proof (turn_fail srv _ _ (map data_of (concat pgs))
                  (log (requests (get_url user) 1 (length pgs)) [] w) e Hs) as Ht.
    rewrite (fetcher_raises srv user pgs fuel w _ _ Hfull Hfuel Ht Hrp).
    rewrite log_line_requests_snoc. by destruct e.
Qed.

(** X7.  A 403 response whose reset header is not the text of an
    integer: [int] raises [ValueError] outside the inner [try], so the
    last handler prints the text of the exception, not [Invalid JSON],
    and no line about the rate limit appears. *)
Theorem reset_header_not_a_number (resp : response) (v : string) :
  srv (request_for (get_url user) (Z.of_nat (length pgs) + 1)) = Respond resp ->
  status_code resp = 403 ->
  headers_get "X-RateLimit-Reset" (headers resp) = Some v ->
  v <> EmptyString ->
  PyStr.int v = None ->
  fetcher srv fuel user w
  = (Ok None,
     log (requests (get_url user) 1 (S (length pgs)))
       [PrintExc EmptyString ValueError] w).
Proof.
  intros Hs H403 Hh Hv Hint.
  pose proof (turn_403 srv (get_url user) (Z.of_nat (length pgs) + 1)
                (map data_of (concat pgs))
                (log (requests (get_url user) 1 (length pgs)) [] w)
                resp Hs H403) as Ht.
  assert (forall w', rate_limited resp w' = (Exc ValueError, w')) as Hr.
  { intros w'. unfold rate_limited. rewrite Hh.
    destruct v as [|c s]; [done|]. by rewrite Hint. }
  rewrite Hr in Ht.
  rewrite (fetcher_raises srv user pgs fuel w _ _ Hfull Hfuel Ht eq_refl).
  by rewrite log_line_requests_snoc.
Qed.

(** X8.  A 403 response whose reset header is a timestamp later than
    253402280999, the last second of the year 9999 in Indian time:
    [convert_reset_to_ist] raises, [fetcher] prints the text of the
    exception instead of the reset time and returns [None].  Up to
    253402300799 the UTC time exists and it is the addition of the
    offset that overflows; later it is [fromtimestamp] that raises,
    [ValueError] while [gmtime] still knows the year and an [OSError] or
    [OverflowError] beyond. *)
Theorem reset_time_out_of_range (resp : response) (v : string) (ts : Z) :
  srv (request_for (get_url user) (Z.of_nat (length pgs) + 1)) = Respond resp ->
  status_code resp = 403 ->
  headers_get "X-RateLimit-Reset" (headers resp) = Some v ->
  v <> EmptyString ->
  PyStr.int v = Some ts ->
  253402280999 < ts ->
  exists e,
    e = (if ts <=? 253402300799 then OtherException
         else if ts <=? DateTime.GMTIME_MAX then ValueError
         else OtherException)
    /\ (ts <= 253402300799 ->
        exists utc, DateTime.fromtimestamp_utc ts = inr utc
                    /\ DateTime.add utc (DateTime.mk_timedelta 0 5 30 0) = inl e)
    /\ (253402300799 < ts -> DateTime.fromtimestamp_utc ts = inl e)
    /\ convert_reset_to_ist ts = inl e
    /\ fetcher srv fuel user w
       = (Ok None,
          log (requests (get_url user) 1 (S (length pgs)))
            [PrintExc EmptyString e] w).
Proof.
  intros Hs H403 Hh Hv Hint Hts.
  pose proof (turn_403 srv (get_url user) (Z.of_nat (length pgs) + 1)
                (map data_of (concat pgs))
                (log (requests (get_url user) 1 (length pgs)) [] w)
                resp Hs H403) as Ht.
  pose proof (convert_reset_overflow ts Hts) as Hc.
  set (e := if ts <=? 253402300799 then OtherException
            else if ts <=? DateTime.GMTIME_MAX then ValueError
            else OtherException) in *.
  exists e. split; [reflexivity|].
  assert (forall e', DateTime.fromtimestamp_utc ts = inl e' -> 253402300799 < ts)
    as Hfrom.
  { intros e' Hu. unfold DateTime.fromtimestamp_utc in Hu.
    destruct (Z.ltb_spec ts DateTime.GMTIME_MIN) as [Hlo|Hlo];
      [unfold DateTime.GMTIME_MIN in Hlo; lia|].
    destruct (Z.ltb_spec DateTime.GMTIME_MAX ts) as [Hhi|Hhi];
      [unfold DateTime.GMTIME_MAX in Hhi; lia|].
    simpl in Hu.
    destruct ((1 <=? ts / 86400 + DateTime.EPOCH)
              && (ts / 86400 + DateTime.EPOCH <=? DateTime.MAXORDINAL)) eqn:Hord;
      [discriminate Hu|].
    apply andb_false_iff in Hord.
    unfold DateTime.EPOCH, DateTime.MAXORDINAL in Hord.
    destruct Hord as [Hord|Hord]; apply Z.leb_gt in Hord;
      Z.div_mod_to_equations; lia. }
  split; [|split].
  - intros Hle. unfold convert_reset_to_ist in Hc.
    destruct (DateTime.fromtimestamp_utc ts) as [e'|utc] eqn:Hu.
    + specialize (Hfrom e' eq_refl). lia.
    + exists utc. split; [done|].
      destruct (DateTime.add utc (DateTime.mk_timedelta 0 5 30 0)) as [e'|ist];
        [|discriminate Hc].
      by injection Hc as ->.
  - intros Hgt. unfold convert_reset_to_ist in Hc.
    destruct (DateTime.fromtimestamp_utc ts) as [e'|utc] eqn:Hu;
      [congruence|].
    exfalso. unfold DateTime.fromtimestamp_utc in Hu.
    destruct ((ts <? DateTime.GMTIME_MIN) || (DateTime.GMTIME_MAX <? ts));
      [discriminate Hu|].
    destruct ((1 <=? ts / 86400 + DateTime.EPOCH)
              && (ts / 86400 + DateTime.EPOCH <=? DateTime.MAXORDINAL)) eqn:Hord;
      [|discriminate Hu].
    apply andb_true_iff in Hord as [_ Hord].
    apply Z.leb_le in Hord. unfold DateTime.EPOCH, DateTime.MAXORDINAL in Hord.
    Z.div_mod_to_equations. lia.
  - split; [exact Hc|].
    assert (forall w', rate_limited resp w' = (Exc e, w')) as Hr.
    { intros w'. unfold rate_limited. rewrite Hh.
      destruct v as [|c s]; [done|]. rewrite Hint.
      unfold mbind, M_bind. simpl. by rewrite Hc. }
    rewrite Hr in Ht.
    assert (is_Exception e = true /\ handler_line e = PrintExc EmptyString e)
      as [He Hl].
    { unfold e. destruct (ts <=? 253402300799); [done|].
      by destruct (ts <=? DateTime.GMTIME_MAX). }
    rewrite (fetcher_raises srv user pgs fuel w _ _ Hfull Hfuel Ht He).
    by rewrite log_line_requests_snoc, Hl.
Qed.

End Edges.

(** ** The reset header as a decimal number *)

Section Decimal.

Lemma int_digits_uint d :
  PyStr.int_digits (NilEmpty.string_of_uint d) true = Some (NilEmpty.string_of_uint d).
Proof. induction d; simpl; try rewrite IHd; reflexivity. Qed.

Lemma drop_space_uint d :
  PyStr.drop_space (NilEmpty.string_of_uint d) = NilEmpty.string_of_uint d.
Proof.
  induction d; simpl; [reflexivity|..]; rewrite IHd;
    by destruct (NilEmpty.string_of_uint d).
Qed.

Lemma int_uint d :
  d <> Decimal.Nil ->
  (String.length (NilEmpty.string_of_uint d) <= PyStr.max_str_digits)%nat ->
  PyStr.int (NilEmpty.string_of_uint d) = Some (Z.of_uint d)
  /\ PyStr.int (String "-" (NilEmpty.string_of_uint d)) = Some (- Z.of_uint d).
Proof.
  intros Hd Hlen.
  assert (PyStr.int_unsigned (NilEmpty.string_of_uint d) = Some (Z.of_uint d)) as Hu.
  { unfold PyStr.int_unsigned.
    assert (PyStr.int_digits (NilEmpty.string_of_uint d) false
            = PyStr.int_digits (NilEmpty.string_of_uint d) true) as ->
      by (by destruct d).
    rewrite int_digits_uint.
    apply Nat.ltb_ge in Hlen. rewrite Hlen.
    unfold PyStr.of_digits. by rewrite NilEmpty.usu. }
  split.
  - unfold PyStr.int.
    assert (PyStr.skip_space (NilEmpty.string_of_uint d) = NilEmpty.string_of_uint d)
      as -> by (by destruct d).
    rewrite drop_space_uint. rewrite <- Hu. by destruct d.
  - unfold PyStr.int.
    change (PyStr.skip_space (String "-" (NilEmpty.string_of_uint d)))
      with (String "-" (NilEmpty.string_of_uint d)).
    assert (PyStr.drop_space (String "-" (NilEmpty.string_of_uint d))
            = String "-" (NilEmpty.string_of_uint d)) as ->.
    { simpl. rewrite drop_space_uint. by destruct d. }
    by rewrite Hu.
Qed.

(** [int] reads back what [repr] writes. *)
Lemma int_repr z s : PyStr.repr_int z = Some s -> PyStr.int s = Some z.
Proof.
  unfold PyStr.repr_int.
  destruct (Nat.ltb_spec PyStr.max_str_digits (String.length (PyStr.decimal (Z.abs z))))
    as [|Hlen]; [discriminate|].
  intros [= <-]. unfold PyStr.decimal in *. destruct z as [|p|p]; simpl in *.
  - reflexivity.
  - destruct (int_uint (Pos.to_uint p) (DecimalPos.Unsigned.to_uint_nonnil p) Hlen)
      as [H _].
    rewrite H. unfold Z.of_uint. by rewrite DecimalPos.Unsigned.of_to.
  - destruct (int_uint (Pos.to_uint p) (DecimalPos.Unsigned.to_uint_nonnil p) Hlen)
      as [_ H].
    rewrite H. unfold Z.of_uint. by rewrite DecimalPos.Unsigned.of_to.
Qed.

Lemma length_string_of_uint d :
  String.length (NilEmpty.string_of_uint d) = Decimal.nb_digits d.
Proof. induction d; simpl; by rewrite ?IHd. Qed.

(** The digits read after [acc] weigh at least as much as [acc] shifted
    by their number. *)
Lemma of_uint_acc_lower d : forall acc,
  (Npos acc * 10 ^ N.of_nat (Decimal.nb_digits d) <= Npos (Pos.of_uint_acc d acc))%N.
Proof.
  induction d; intros acc; cbn [Pos.of_uint_acc Decimal.nb_digits];
    [rewrite N.pow_0_r; lia|..];
    rewrite Nat2N.inj_succ, N.pow_succ_r';
    (etransitivity; [|apply IHd]);
    rewrite N.mul_assoc; apply N.mul_le_mono_r; clear; lia.
Qed.

(** A positive number of [n] digits is at least [10 ^ (n - 1)]. *)
Lemma digits_lower p :
  (10 ^ N.of_nat (Decimal.nb_digits (Pos.to_uint p) - 1) <= Npos p)%N.
Proof.
  pose proof (DecimalPos.Unsigned.of_to p) as E.
  pose proof (to_uint_no_leading_zero p) as Hz.
  pose proof (DecimalPos.Unsigned.to_uint_nonnil p) as Hn.
  destruct (Pos.to_uint p) as [|d|d|d|d|d|d|d|d|d|d]; [done|by destruct (Hz d)|..];
    rewrite <- E; cbn [Pos.of_uint Decimal.nb_digits];
    rewrite Nat.sub_succ, Nat.sub_0_r;
    (etransitivity; [|apply of_uint_acc_lower]); lia.
Qed.

(** An integer below [10 ^ k] has a numeral of [k] digits at most. *)
Lemma decimal_length z (k : nat) :
  Z.abs z < 10 ^ Z.of_nat k -> (1 <= k)%nat ->
  (String.length (PyStr.decimal (Z.abs z)) <= k)%nat.
Proof.
  intros Hz Hk. unfold PyStr.decimal.
  destruct (Z.abs z) as [|p|p] eqn:Ez; [simpl; lia| |lia].
  simpl. rewrite length_string_of_uint.
  destruct (Nat.le_gt_cases (Decimal.nb_digits (Pos.to_uint p)) k) as [|Hgt]; [done|].
  exfalso. pose proof (digits_lower p) as Hl.
  assert (10 ^ N.of_nat k <= 10 ^ N.of_nat (Decimal.nb_digits (Pos.to_uint p) - 1))%N
    as Hm by (apply N.pow_le_mono_r; lia).
  assert (Z.of_N (10 ^ N.of_nat k) = 10 ^ Z.of_nat k) as Ek.
  { rewrite N2Z.inj_pow, nat_N_Z. reflexivity. }
  lia.
Qed.

(** A timestamp of the range of the calendar has a [repr]. *)
Lemma repr_int_small z :
  Z.abs z < 10 ^ 12 -> PyStr.repr_int z = Some (PyStr.decimal z).
Proof.
  intros Hz. unfold PyStr.repr_int.
  pose proof (decimal_length z 12 Hz ltac:(lia)) as Hl.
  destruct (Nat.ltb_spec PyStr.max_str_digits (String.length (PyStr.decimal (Z.abs z))))
    as [Hgt|]; [|reflexivity].
  unfold PyStr.max_str_digits in Hgt. lia.
Qed.

(** X9.  A 403 response whose reset header is the decimal numeral of a
    timestamp [ts] between 0 and 253402280999, which is its [repr]:
    [int] reads the numeral back as [ts], the conversion succeeds, and
    [fetcher] prints the reset line with the converted time and returns
    [None]. *)
Theorem reset_header_decimal
    (srv : server) (user : string) (pgs : list (list dict)) (resp : response)
    (ts : Z) (fuel : nat) (w : world) :
  full_pages srv (get_url user) pgs ->
  (length pgs < fuel)%nat ->
  srv (request_for (get_url user) (Z.of_nat (length pgs) + 1)) = Respond resp ->
  status_code resp = 403 ->
  headers_get "X-RateLimit-Reset" (headers resp) = Some (PyStr.decimal ts) ->
  0 <= ts <= 253402280999 ->
  PyStr.repr_int ts = Some (PyStr.decimal ts)
  /\ PyStr.int (PyStr.decimal ts) = Some ts
  /\ exists text,
      convert_reset_to_ist ts = inr text
      /\ fetcher srv fuel user w
         = (Ok None,
            log (requests (get_url user) 1 (S (length pgs)))
              [Print ("Rate limit exceeded. It will reset at: " +:+ text)] w).
Proof.
  intros Hfull Hfuel Hs H403 Hh Hts.
  assert (PyStr.repr_int ts = Some (PyStr.decimal ts)) as Hrepr
    by (apply repr_int_small; lia).
  pose proof (int_repr ts _ Hrepr) as Hint.
  split; [exact Hrepr|]. split; [exact Hint|].
  destruct (convert_reset_spec ts) as (ist & _ & _ & Hc); [lia|].
  exists (DateTime.reset_text ist). split; [exact Hc|].
  pose proof (turn_403 srv (get_url user) (Z.of_nat (length pgs) + 1)
                (map data_of (concat pgs))
                (log (requests (get_url user) 1 (length pgs)) [] w)
                resp Hs H403) as Ht.
  assert (PyStr.decimal ts <> EmptyString) as Hv.
  { destruct (decimal_head ts) as (c & t & E & _). by rewrite E. }
  rewrite (rate_limited_reset resp _ _ _ ts Hh Hv Hint Hc) in Ht.
  rewrite (fetcher_returns srv user pgs fuel w _ _ Hfull Hfuel Ht).
  by rewrite log_line_requests_snoc.
Qed.

End Decimal.

(** ** The reset time as a shifted UTC time *)

Section Shift.

Import DateTime.

(** X10.  For a timestamp between 0 and 253402280999, adding the offset
    of 5 hours 30 minutes to the UTC time of the timestamp gives the UTC
    time of the timestamp 19800 seconds later; the text returned is this
    date and time in the layout of the script, and its seconds are those
    of the timestamp. *)
Theorem convert_reset_shift (ts : Z) :
  0 <= ts <= 253402280999 ->
  exists utc ist,
    fromtimestamp_utc ts = inr utc
    /\ add utc (mk_timedelta 0 5 30 0) = inr ist
    /\ fromtimestamp_utc (ts + 19800) = inr ist
    /\ second ist = ts mod 60
    /\ convert_reset_to_ist ts = inr (reset_text ist).
Proof.
  intros Hts. unfold convert_reset_to_ist, fromtimestamp_utc.
  replace ((ts <? GMTIME_MIN) || (GMTIME_MAX <? ts)) with false
    by (symmetry; apply orb_false_iff; unfold GMTIME_MIN, GMTIME_MAX; split; lia).
  replace ((ts + 19800 <? GMTIME_MIN) || (GMTIME_MAX <? ts + 19800)) with false
    by (symmetry; apply orb_false_iff; unfold GMTIME_MIN, GMTIME_MAX; split; lia).
  set (n := ts / 86400 + EPOCH). set (r := ts mod 86400).
  assert (ts = 86400 * (ts / 86400) + r /\ 0 <= r < 86400) as [Ets Br].
  { unfold r. split; [apply Z.div_mod; lia|apply Z.mod_pos_bound; lia]. }
  assert (1 <= n <= MAXORDINAL) as Hn.
  { unfold n, EPOCH, MAXORDINAL. Z.div_mod_to_equations. lia. }
  replace ((1 <=? n) && (n <=? MAXORDINAL)) with true
    by (symmetry; apply andb_true_iff; split; lia).
  set (n' := (ts + 19800) / 86400 + EPOCH). set (q := (ts + 19800) mod 86400).
  assert (0 <= q < 86400) as Bq by (apply Z.mod_pos_bound; lia).
  assert (1 <= n' <= MAXORDINAL) as Hn'.
  { unfold n', EPOCH, MAXORDINAL. Z.div_mod_to_equations. lia. }
  replace ((1 <=? n') && (n' <=? MAXORDINAL)) with true
    by (symmetry; apply andb_true_iff; split; lia).
  destruct (combine_spec n (r / 3600) (r mod 3600 / 60) (r mod 60))
    as (Hv & Ho & Hh & Hm & Hs); try (Z.div_mod_to_equations; lia).
  assert (add (combine n (r / 3600) (r mod 3600 / 60) (r mod 60))
            (mk_timedelta 0 5 30 0)
          = inr (combine n' (q / 3600) (q mod 3600 / 60) (q mod 60))) as Hadd.
  { unfold add. rewrite Ho, Hh, Hm, Hs.
    unfold td_add, mk_timedelta. cbn [td_days td_seconds].
    assert (r / 3600 * 3600 + r mod 3600 / 60 * 60 + r mod 60 = r) as Er
      by (Z.div_mod_to_equations; lia).
    rewrite Er.
    change ((5 * 3600 + 30 * 60 + 0) / 86400) with 0.
    change ((5 * 3600 + 30 * 60 + 0) mod 86400) with 19800.
    replace (r / 86400) with 0 by (Z.div_mod_to_equations; lia).
    replace (r mod 86400) with r by (Z.div_mod_to_equations; lia).
    assert (n + 0 + (0 + 0) + (0 * 3600 + 0 * 60 + (r + 19800)) / 86400 = n') as ->.
    { unfold n', n. Z.div_mod_to_equations. lia. }
    assert ((0 * 3600 + 0 * 60 + (r + 19800)) mod 86400 = q) as ->.
    { unfold q. Z.div_mod_to_equations. lia. }
    replace ((0 <? n') && (n' <=? MAXORDINAL)) with true
      by (symmetry; apply andb_true_iff; split; lia).
    replace (q mod 3600 mod 60) with (q mod 60)
      by (Z.div_mod_to_equations; lia).
    reflexivity. }
  eexists _, _. split; [reflexivity|]. split; [exact Hadd|].
  split; [reflexivity|].
  destruct (combine_spec n' (q / 3600) (q mod 3600 / 60) (q mod 60))
    as (_ & _ & _ & _ & Hs'); try (Z.div_mod_to_equations; lia).
  split; [rewrite Hs'; unfold q; Z.div_mod_to_equations; lia|].
  rewrite Hadd. reflexivity.
Qed.

End Shift.

(** ** The address of the listing *)

Lemma append_inv_tail (s u v : string) : u +:+ s = v +:+ s -> u = v.
Proof.
  revert v. induction u as [|c u IH]; intros [|c' v] H.
  - reflexivity.
  - apply (f_equal String.length) in H. rewrite sapp_nil_l, sapp_cons in H.
    simpl in H. rewrite length_append in H. lia.
  - apply (f_equal String.length) in H. rewrite sapp_nil_l, sapp_cons in H.
    simpl in H. rewrite length_append in H. lia.
  - rewrite !sapp_cons in H. injection H as -> H. by rewrite (IH _ H).
Qed.

(** X11.  [get_url] puts the user name, as it is, between the prefix
    [https://api.github.com/users/] and the suffix [/repos]; two names
    have the same address only if they are the same name. *)
Theorem get_url_injective (u v : string) :
  get_url u = "https://api.github.com/users/" +:+ u +:+ "/repos"
  /\ (get_url u = get_url v <-> u = v).
Proof.
  split; [reflexivity|].
  split; [|by intros ->]. unfold get_url. cbv zeta. intros H.
  repeat first [rewrite sapp_nil_l in H|rewrite !sapp_cons in H; injection H as H].
  by apply append_inv_tail in H.
Qed.

(** ** The interactive mode *)

Section Interactive.

Variable srv : server.

Lemma prompt_eof fuel w :
  stdin w = [] -> prompt srv fuel w = (Ok false, log [] eof_lines w).
Proof.
  intros Hin. unfold prompt, try_except, mbind at 1, M_bind at 1, input.
  rewrite Hin. simpl. unfold mbind, M_bind, print, log. simpl.
  by rewrite Hin, app_nil_r, <- app_assoc.
Qed.

Lemma interactive_eof fuel : forall w,
  stdin w = [] ->
  interactive srv fuel w = (Diverge, log [] (concat (replicate fuel eof_lines)) w).
Proof.
  induction fuel as [|fuel IH]; intros w Hin.
  - simpl. unfold diverge. by rewrite log_nil.
  - change (interactive srv (S fuel) w)
      with ((stop ← prompt srv (S fuel);
             match stop with
             | true => mret tt
             | false => interactive srv fuel
             end) w).
    rewrite (bind_ok _ _ _ _ _ (prompt_eof (S fuel) w Hin)).
    rewrite IH by done. by rewrite log_log.
Qed.

(** X12.  At the end of the input the interactive mode does not stop:
    [input] raises [EOFError], the last handler prints it, and the loop
    asks again.  However many turns are run, the program is still in
    the loop, has printed the prompt and the error line once per turn,
    has sent no request and has written no file. *)
Theorem interactive_eof_loops (fuel : nat) (out : string) (w : world) :
  stdin w = [] ->
  main srv fuel {| username := None; output := out |} w
  = (Diverge,
     log [] (Print "Welcome to Github Repo Summary Extractor"
             :: concat (replicate fuel eof_lines)) w).
Proof.
  intros Hin. unfold main. simpl.
  rewrite (bind_ok _ _ _ _ _ (print_log _ w)).
  rewrite interactive_eof by done. by rewrite log_log.
Qed.

Lemma fetcher_exc_inv fuel user w e w' :
  fetcher srv fuel user w = (Exc e, w') ->
  is_Exception e = false /\ exists rq, srv rq = Fail e.
Proof.
  intros H. destruct (fetcher_shape srv fuel user w) as (pgs & _ & Hend).
  destruct Hend as [(Hk & H')|(Hk & [(last & Hl & H')|[(line & H')|(e' & He & Hs & H')]])];
    rewrite H' in H; try discriminate H.
  injection H as <- <-. split; [done|]. eexists. exact Hs.
Qed.

(** What a turn of the interactive loop does to the standard input and
    to the files, and how it can end. *)
Lemma prompt_cases fuel w :
  stdin (snd (prompt srv fuel w)) = tail (stdin w)
  /\ (forall path,
         path <> default_output ->
         files (snd (prompt srv fuel w)) !! path = files w !! path)
  /\ match fst (prompt srv fuel w) with
     | Ok true => exists line, head (stdin w) = Some line /\ is_exit line = true
     | Ok false => forall line, head (stdin w) = Some line -> is_exit line = false
     | Exc e =>
         is_Exception e = false /\ (exists rq, srv rq = Fail e)
         /\ forall line, head (stdin w) = Some line -> is_exit line = false
     | Diverge =>
         exists line,
           head (stdin w) = Some line /\ is_exit line = false
           /\ fst (fetcher srv fuel line
                     (after_input "Enter username (or 'exit' to quit): " w))
              = Diverge
     end.
Proof.
  destruct (stdin w) as [|line rest] eqn:Hin.
  { rewrite (prompt_eof fuel w Hin). simpl. rewrite Hin. done. }
  destruct (is_exit line) eqn:Hexit.
  { rewrite (prompt_exit srv fuel line rest w Hin Hexit). simpl. rewrite Hin.
    split; [done|]. split; [done|]. by exists line. }
  destruct (framed_fetcher srv fuel line) as (rqs & r & out & Hf).
  pose proof (Hf (after_input "Enter username (or 'exit' to quit): " w)) as Hw.
  rewrite (prompt_result srv fuel line rest w _ _ Hin Hexit Hw).
  destruct r as [[[|x l]|]|e|]; [| |simpl; rewrite ?Hin..].
  - simpl. rewrite Hin. split; [done|]. split; [done|]. by intros ? [= <-].
  - cbv zeta.
    set (wl := log [] [Print "Logging repos to github_repos.json..."]
                 (log rqs out (after_input "Enter username (or 'exit' to quit): " w))).
    pose proof (write_result_ends (x :: l) default_output wl) as Hends.
    destruct (after_write_frame default_output
                (snd (write_result (x :: l) default_output wl)) wl)
      as (Hi & _ & _ & _ & Hfs).
    assert (forall line0, head (line :: rest) = Some line0 -> is_exit line0 = false)
      as Hline by (by intros ? [= <-]).
    destruct (write_result (x :: l) default_output wl) as [[[]|e|] c];
      cbn [fst snd] in *; [| |done].
    + cbn [fst snd log stdin files]. rewrite Hi, Hfs.
      unfold wl. simpl. rewrite Hin. split; [done|]. split; [|done].
      intros path Hne. by rewrite files_after_other.
    + rewrite Hends. cbn [fst snd log stdin files]. rewrite Hi, Hfs.
      unfold wl. simpl. rewrite Hin. split; [done|]. split; [|done].
      intros path Hne. by rewrite files_after_other.
  - split; [done|]. split; [done|]. by intros ? [= <-].
  - destruct (fetcher_exc_inv _ _ _ _ _ Hw) as [He Hs]. rewrite He. simpl.
    rewrite Hin. split; [done|]. split; [done|]. split; [done|]. split; [done|].
    by intros ? [= <-].
  - split; [done|]. split; [done|]. exists line. rewrite Hw. done.
Qed.

Lemma interactive_step fuel w :
  interactive srv (S fuel) w
  = match prompt srv (S fuel) w with
    | (Ok true, w') => (Ok tt, w')
    | (Ok false, w') => interactive srv fuel w'
    | (Exc e, w') => (Exc e, w')
    | (Diverge, w') => (Diverge, w')
    end.
Proof.
  simpl. unfold mbind, M_bind.
  by destruct (prompt srv (S fuel) w) as [[[|]|e|] w'].
Qed.

(** X13.  The interactive loop returns only after it has read a line
    that is the sentinel: the lines read before were no sentinels, each
    took one turn, and the lines after the sentinel are left unread. *)
Theorem interactive_return_inversion (fuel : nat) : forall (w w' : world),
  interactive srv fuel w = (Ok tt, w') ->
  exists (lines : list string) (s : string) (rest : list string),
    stdin w = lines ++ s :: rest
    /\ Forall (fun line => is_exit line = false) lines
    /\ is_exit s = true
    /\ stdin w' = rest
    /\ (length lines < fuel)%nat.
Proof.
  induction fuel as [|fuel IH]; intros w w' H; [discriminate H|].
  rewrite interactive_step in H.
  destruct (prompt_cases (S fuel) w) as (Hin & _ & Hr).
  destruct (prompt srv (S fuel) w) as [[[|]|e|] w1]; simpl in *;
    try discriminate H.
  - injection H as <-. destruct Hr as (s & Hh & Hs).
    destruct (stdin w) as [|s' rest]; [discriminate Hh|]. injection Hh as ->.
    exists [], s, rest. repeat split; try done. simpl. lia.
  - destruct (IH _ _ H) as (lines & s & rest & Hl & Hne & Hs & Hrest & Hlen).
    destruct (stdin w) as [|l0 tl]; simpl in Hin.
    { rewrite Hin in Hl. by destruct lines. }
    subst tl. exists (l0 :: lines), s, rest.
    split; [simpl; by rewrite Hl|]. split; [constructor; [by apply Hr|done]|].
    split; [done|]. split; [done|]. simpl. lia.
Qed.

(** X14.  When the transport raises nothing but [Exception]s, the
    interactive mode never ends with an error: no exception leaves
    [main] and [sys.exit] is not called, so an exit status, if there is
    one, is 0. *)
Theorem interactive_never_fails (fuel : nat) (out : string) (w : world) :
  (forall rq e, srv rq = Fail e -> is_Exception e = true) ->
  forall code,
    exit_status (fst (main srv fuel {| username := None; output := out |} w))
    = Some code ->
    code = 0.
Proof.
  intros Hsrv.
  assert (forall fuel w,
    fst (interactive srv fuel w) = Ok tt \/ fst (interactive srv fuel w) = Diverge)
    as Hi.
  { clear fuel w. induction fuel as [|fuel IH]; intros w; [by right|].
    rewrite interactive_step.
    destruct (prompt_cases (S fuel) w) as (_ & _ & Hr).
    destruct (prompt srv (S fuel) w) as [[[|]|e|] w1]; simpl in *.
    - by left.
    - apply IH.
    - destruct Hr as (He & (rq & Hs) & _). apply Hsrv in Hs. congruence.
    - by right. }
  intros code. unfold main. simpl.
  rewrite (bind_ok _ _ _ _ _ (print_log _ w)).
  destruct (Hi fuel (log [] [Print "Welcome to Github Repo Summary Extractor"] w))
    as [-> | ->]; simpl; congruence.
Qed.

(** X15.  The interactive mode writes to [github_repos.json] and to no
    other file, whatever [--output] says: every other file is after the
    run what it was before. *)
Theorem interactive_writes_default_only
    (fuel : nat) (out path : string) (w : world) :
  path <> default_output ->
  files (snd (main srv fuel {| username := None; output := out |} w)) !! path
  = files w !! path.
Proof.
  intros Hne.
  assert (forall fuel w,
    files (snd (interactive srv fuel w)) !! path = files w !! path) as Hi.
  { clear fuel w. induction fuel as [|fuel IH]; intros w; [done|].
    rewrite interactive_step.
    destruct (prompt_cases (S fuel) w) as (_ & Hf & _).
    specialize (Hf path Hne).
    destruct (prompt srv (S fuel) w) as [[[|]|e|] w1]; simpl in *; try done.
    by rewrite IH. }
  unfold main. simpl. rewrite (bind_ok _ _ _ _ _ (print_log _ w)).
  by rewrite Hi.
Qed.

(** X16.  When the transport raises nothing but [Exception]s and the
    listing of each name typed ends within [limit] requests, the
    interactive loop takes one turn per line, returns at the first
    sentinel and leaves the lines after it unread. *)
Theorem interactive_session_ends
    (limit : nat) (lines : list string) (s : string) (rest : list string) :
  (forall rq e, srv rq = Fail e -> is_Exception e = true) ->
  (forall line fuel w,
      In line lines -> (limit <= fuel)%nat ->
      fst (fetcher srv fuel line w) <> Diverge) ->
  Forall (fun line => is_exit line = false) lines ->
  is_exit s = true ->
  forall (fuel : nat) (w : world),
    stdin w = lines ++ s :: rest ->
    (limit + length lines < fuel)%nat ->
    fst (interactive srv fuel w) = Ok tt
    /\ stdin (snd (interactive srv fuel w)) = rest.
Proof.
  intros Hsrv Hterm Hlines Hs.
  induction Hlines as [|l0 lines Hl0 Hlines IH]; intros fuel w Hin Hfuel.
  - destruct fuel as [|fuel]; [simpl in Hfuel; lia|].
    rewrite interactive_step.
    simpl in Hin. rewrite (prompt_exit srv (S fuel) s rest w Hin Hs).
    simpl. by rewrite Hin.
  - destruct fuel as [|fuel]; [simpl in Hfuel; lia|].
    rewrite interactive_step.
    destruct (prompt_cases (S fuel) w) as (Htl & _ & Hr).
    rewrite Hin in Htl, Hr. simpl in Htl, Hr.
    destruct (prompt srv (S fuel) w) as [[[|]|e|] w1]; simpl in *.
    + destruct Hr as (line & [= <-] & He). congruence.
    + apply IH; [|done|lia].
      intros line f w0 Hline. apply Hterm. by right.
    + destruct Hr as (He & (rq & Hrq) & _). apply Hsrv in Hrq. congruence.
    + destruct Hr as (line & [= <-] & _ & Hd).
      exfalso. revert Hd. apply Hterm; [by left|lia].
Qed.

End Interactive.

(** ** The sentinel and the loop *)

(** C9.  A line read in interactive mode ends the loop exactly when,
    stripped of the white space around it and lower-cased, it is
    [exit]; [EXIT] and [exit] between spaces are such lines.  On such a
    line the loop returns at once.  For any other line the turn goes on
    with [fetcher] on that line, the first request sent being for page 1
    of the account of that name, and the loop does not return: it reads
    the next line, unless an exception leaves it.  So the loop returns
    only if one of the lines typed is the sentinel. *)
Theorem exit_sentinel
    (srv : server) (fuel : nat) (line : string) (rest : list string) (w : world) :
  stdin w = line :: rest ->
  (fst (prompt srv fuel w) = Ok true
   <-> PyStr.lower (PyStr.strip line) = "exit")
  /\ PyStr.strip (PyStr.lower line) = PyStr.lower (PyStr.strip line)
  /\ (PyStr.lower (PyStr.strip line) = "exit" ->
      interactive srv (S fuel) w
      = (Ok tt, after_input "Enter username (or 'exit' to quit): " w))
  /\ (PyStr.lower (PyStr.strip line) <> "exit" ->
      (exists rqs,
          sent (snd (prompt srv (S fuel) w))
          = sent w ++ request_for (get_url line) 1 :: rqs)
      /\ stdin (snd (prompt srv (S fuel) w)) = rest
      /\ interactive srv (S fuel) w
         = match prompt srv (S fuel) w with
           | (Ok _, w1) => interactive srv fuel w1
           | (Exc e, w1) => (Exc e, w1)
           | (Diverge, w1) => (Diverge, w1)
           end)
  /\ (forall n,
         fst (interactive srv n w) = Ok tt ->
         Exists (fun l => PyStr.lower (PyStr.strip l) = "exit") (line :: rest))
  /\ is_exit "EXIT" = true /\ is_exit "  exit  " = true.
Proof.
  intros Hin.
  assert (forall l, is_exit l = true <-> PyStr.lower (PyStr.strip l) = "exit") as Hiff.
  { intros l. unfold is_exit. rewrite strip_lower. apply String.eqb_eq. }
  assert (fst (prompt srv fuel w) = Ok true
          <-> PyStr.lower (PyStr.strip line) = "exit") as Hturn.
  { rewrite <- Hiff. destruct (is_exit line) eqn:Hexit.
    + by rewrite (prompt_exit srv fuel line rest w Hin Hexit).
    + pose proof (prompt_cases srv fuel w) as (_ & _ & Hr).
      rewrite Hin in Hr. split; [|discriminate].
      intros E. rewrite E in Hr. destruct Hr as (l & [= <-] & Hl). congruence. }
  split; [exact Hturn|].
  split; [apply strip_lower|].
  split; [|split; [|split; [|split; reflexivity]]].
  - intros Hexit. apply Hiff in Hexit.
    rewrite interactive_step.
    by rewrite (prompt_exit srv (S fuel) line rest w Hin Hexit).
  - intros Hexit.
    assert (is_exit line = false) as Hne.
    { destruct (is_exit line) eqn:E; [|reflexivity]. exfalso. by apply Hexit, Hiff. }
    split; [|split].
    + destruct (logs_fetcher srv fuel line) as (rqs & r & out & Hf).
      exists rqs.
      rewrite (prompt_result srv (S fuel) line rest w _ _ Hin Hne (Hf _)).
      destruct r as [[[|x l]|]|e|]; try destruct (is_Exception e);
        try (simpl; by rewrite ?app_nil_r).
      cbv zeta.
      match goal with
      | |- context [write_result ?r ?p ?wl] =>
          destruct (after_write_frame p (snd (write_result r p wl)) wl)
            as (_ & _ & Hsent & _);
          destruct (write_result r p wl) as [[[]|e|] c]
      end; try destruct (is_Exception e); cbn [fst snd log sent] in *;
        rewrite Hsent; simpl; by rewrite ?app_nil_r.
    + pose proof (prompt_cases srv (S fuel) w) as (Htl & _). by rewrite Htl, Hin.
    + rewrite interactive_step.
      pose proof (prompt_cases srv (S fuel) w) as (_ & _ & Hr).
      destruct (prompt srv (S fuel) w) as [[[|]|e|] w1]; try reflexivity.
      simpl in Hr. rewrite Hin in Hr. destruct Hr as (l & [= <-] & Hl). congruence.
  - intros n. rewrite <- Hin. clear. revert w.
    induction n as [|n IH]; intros w Hr; [discriminate Hr|].
    rewrite interactive_step in Hr.
    pose proof (prompt_cases srv (S n) w) as (Htl & _ & Hp).
    destruct (prompt srv (S n) w) as [[[|]|e|] w1]; simpl in *;
      try discriminate Hr.
    + destruct Hp as (l & Hh & Hl).
      destruct (stdin w) as [|l0 tl]; [discriminate Hh|]. injection Hh as ->.
      apply Exists_cons_hd. unfold is_exit in Hl. rewrite strip_lower in Hl.
      by apply String.eqb_eq.
    + specialize (IH w1 Hr). rewrite Htl in IH.
      destruct (stdin w) as [|l0 tl]; [by apply Exists_nil in IH|].
      by apply Exists_cons_tl.
Qed.

(** ** The command-line mode *)

Section Cli.

Variable srv : server.


End Cli.

(** ** The further statements on concrete inputs *)

Lemma fetcher_success_inversion_witness :
  exists (pgs : list (list dict)) (last : list dict),
    full_pages one_repo (get_url "octocat") pgs
    /\ last_page one_repo (get_url "octocat") (Z.of_nat (length pgs) + 1) last
    /\ [data_of (sample_repo 7)] = map data_of (concat pgs ++ last).
Proof.
  destruct (fetcher_success_inversion one_repo 1%nat "octocat" empty_world
              (log (requests (get_url "octocat") 1 1%nat) [] empty_world)
              [data_of (sample_repo 7)])
    as (pgs & last & Hfull & Hlast & Hrec & _).
  - vm_compute. reflexivity.
  - exists pgs, last. split; [exact Hfull|]. split; [exact Hlast|exact Hrec].
Defined.

Lemma falsy_body_ends_listing_witness :
  fetcher null_server 1%nat "octocat" empty_world
  = (Ok (Some []), log (requests (get_url "octocat") 1 1%nat) [] empty_world).
Proof.
  apply (falsy_body_ends_listing null_server "octocat" [] 1%nat empty_world
           (full_pages_nil null_server _) (Nat.lt_0_succ 0)
           (json_response 200 JNull) JNull); reflexivity.
Defined.

Lemma malformed_page_fails_witness :
  fetcher message_server 1%nat "octocat" empty_world
  = (Ok None,
     log (requests (get_url "octocat") 1 1%nat)
       [PrintExc EmptyString OtherException] empty_world).
Proof.
  apply (malformed_page_fails message_server "octocat" [] 1%nat empty_world
           (full_pages_nil message_server _) (Nat.lt_0_succ 0)
           (json_response 200 (JObj [("message", JStr "Not Found")]))
           (JObj [("message", JStr "Not Found")])); try reflexivity.
  intros (items & E). discriminate E.
Defined.

Lemma failure_lines_witness :
  fetcher timeout_server 1%nat "octocat" empty_world
  = (Ok None,
     log (requests (get_url "octocat") 1 1%nat)
       [Print "Request timed out."] empty_world).
Proof.
  apply (failure_lines timeout_server "octocat" [] 1%nat empty_world
           (full_pages_nil timeout_server _) (Nat.lt_0_succ 0) (Fail Timeout));
    reflexivity.
Defined.

Lemma reset_header_not_a_number_witness :
  PyStr.int "soon" = None
  /\ fetcher (rate_limited_server (Some "soon")) 1%nat "octocat" empty_world
     = (Ok None,
        log (requests (get_url "octocat") 1 1%nat)
          [PrintExc EmptyString ValueError] empty_world).
Proof.
  split; [reflexivity|].
  apply (reset_header_not_a_number (rate_limited_server (Some "soon")) "octocat" []
           1%nat empty_world (full_pages_nil _ _) (Nat.lt_0_succ 0)
           (rate_limit_response (Some "soon")) "soon"); try reflexivity.
  discriminate.
Defined.

Lemma reset_header_decimal_witness :
  PyStr.decimal 1700000000 = "1700000000"
  /\ exists text,
      convert_reset_to_ist 1700000000 = inr text
      /\ fetcher (rate_limited_server (Some "1700000000")) 1%nat "octocat" empty_world
         = (Ok None,
            log (requests (get_url "octocat") 1 1%nat)
              [Print ("Rate limit exceeded. It will reset at: " +:+ text)]
              empty_world).
Proof.
  split; [reflexivity|].
  apply (reset_header_decimal (rate_limited_server (Some "1700000000")) "octocat" []
           (rate_limit_response (Some "1700000000")) 1700000000 1%nat empty_world).
  - apply full_pages_nil.
  - simpl. lia.
  - reflexivity.
  - reflexivity.
  - reflexivity.
  - lia.
Defined.

Lemma convert_reset_shift_witness :
  0 <= 1700000000 <= 253402280999
  /\ exists utc ist,
      DateTime.fromtimestamp_utc 1700000000 = inr utc
      /\ DateTime.add utc (DateTime.mk_timedelta 0 5 30 0) = inr ist
      /\ DateTime.fromtimestamp_utc (1700000000 + 19800) = inr ist
      /\ DateTime.second ist = 1700000000 mod 60
      /\ convert_reset_to_ist 1700000000 = inr (DateTime.reset_text ist).
Proof.
  split; [lia|]. apply (convert_reset_shift 1700000000). lia.
Defined.

Lemma interactive_eof_loops_witness :
  main timeout_server 2%nat {| username := None; output := "out.json" |} empty_world
  = (Diverge,
     log [] (Print "Welcome to Github Repo Summary Extractor"
             :: eof_lines ++ eof_lines) empty_world).
Proof.
  apply (interactive_eof_loops timeout_server 2%nat "out.json" empty_world).
  reflexivity.
Defined.

Lemma interactive_return_inversion_witness :
  exists (lines : list string) (s : string) (rest : list string),
    ["octocat"; " Exit"; "later"] = lines ++ s :: rest
    /\ Forall (fun line => is_exit line = false) lines
    /\ is_exit s = true
    /\ stdin (snd (interactive timeout_server 2%nat
                     (typing ["octocat"; " Exit"; "later"]))) = rest.
Proof.
  destruct (interactive_return_inversion timeout_server 2%nat
              (typing ["octocat"; " Exit"; "later"])
              (snd (interactive timeout_server 2%nat
                      (typing ["octocat"; " Exit"; "later"]))))
    as (lines & s & rest & Hin & Hlines & Hs & Hrest & _).
  - vm_compute. reflexivity.
  - exists lines, s, rest. split; [exact Hin|]. split; [exact Hlines|].
    split; [exact Hs|exact Hrest].
Defined.

Lemma interactive_never_fails_witness :
  exit_status
    (fst (main html_server 3%nat {| username := None; output := "out.json" |}
            (typing ["octocat"; "exit"])))
  <> Some 1.
Proof.
  intros H.
  apply (interactive_never_fails html_server 3%nat "out.json"
           (typing ["octocat"; "exit"])) in H.
  - discriminate H.
  - intros rq e Hs. discriminate Hs.
Defined.

Lemma interactive_writes_default_only_witness :
  "out.json" <> default_output
  /\ files (snd (main one_repo 3%nat {| username := None; output := "out.json" |}
                   (typing ["octocat"; "exit"]))) !! "out.json" = None.
Proof.
  split; [discriminate|].
  rewrite (interactive_writes_default_only one_repo 3%nat "out.json" "out.json"
             (typing ["octocat"; "exit"])); [reflexivity|discriminate].
Defined.

Lemma interactive_session_ends_witness :
  fst (interactive html_server 3%nat (typing ["octocat"; "exit"; "later"])) = Ok tt
  /\ stdin (snd (interactive html_server 3%nat (typing ["octocat"; "exit"; "later"])))
     = ["later"].
Proof.
  apply (interactive_session_ends html_server 1%nat ["octocat"] "exit" ["later"]).
  - intros rq e Hs. discriminate Hs.
  - intros line [|fuel] w _ Hfuel; [lia|].
    destruct (bad_response_fails html_server line [] html_response (S fuel) w)
      as (l & Hf & _).
    + apply full_pages_nil.
    + reflexivity.
    + right. left. reflexivity.
    + simpl. lia.
    + rewrite Hf. discriminate.
  - constructor; [reflexivity|constructor].
  - reflexivity.
  - reflexivity.
  - simpl. lia.
Defined.

Lemma exit_sentinel_witness :
  fst (prompt timeout_server 1%nat (typing ["  Exit "; "octocat"])) = Ok true
  /\ interactive timeout_server 2%nat (typing ["  Exit "; "octocat"])
     = (Ok tt, after_input "Enter username (or 'exit' to quit): "
                 (typing ["  Exit "; "octocat"]))
  /\ interactive timeout_server 2%nat (typing ["octocat"; "exit"])
     = interactive timeout_server 1%nat
         (snd (prompt timeout_server 2%nat (typing ["octocat"; "exit"]))).
Proof.
  destruct (exit_sentinel timeout_server 1%nat "  Exit " ["octocat"]
              (typing ["  Exit "; "octocat"]) eq_refl)
    as (Hiff & _ & Hloop & _).
  split; [|split].
  - apply Hiff. reflexivity.
  - apply Hloop. reflexivity.
  - destruct (exit_sentinel timeout_server 1%nat "octocat" ["exit"]
                (typing ["octocat"; "exit"]) eq_refl)
      as (_ & _ & _ & Hother & _).
    destruct Hother as (_ & _ & Hgo); [discriminate|].
    rewrite Hgo. reflexivity.
Defined.

Lemma reset_time_out_of_range_witness :
  PyStr.int "253402290000" = Some 253402290000
  /\ fetcher (rate_limited_server (Some "253402290000")) 1%nat "octocat" empty_world
     = (Ok None,
        log (requests (get_url "octocat") 1 1%nat)
          [PrintExc EmptyString OtherException] empty_world).
Proof.
  split; [reflexivity|].
  destruct (reset_time_out_of_range (rate_limited_server (Some "253402290000"))
              "octocat" [] 1%nat empty_world (full_pages_nil _ _) (Nat.lt_0_succ 0)
              (rate_limit_response (Some "253402290000")) "253402290000"
              253402290000)
    as (e & -> & _ & _ & _ & Hf).
  - reflexivity.
  - reflexivity.
  - reflexivity.
  - discriminate.
  - reflexivity.
  - lia.
  - exact Hf.
Defined.

